(** * Thoth: the repository ingestion pipeline of [populate_db_atlas/main.py]

    A shallow embedding of [get_file_content], [process_repo] and [main],
    and the properties of the bounded-concurrency fetch pipeline.

    Conventions of the embedding.
    - A Python [str] is a [string]; [len] is [String.length].
    - A decoded JSON payload is a value of [json]; Python's dynamic errors on
      such values ([TypeError], [KeyError], [AttributeError]) are raised
      explicitly.
    - The remote API is an oracle: the k-th request of a walk is answered by
      [respond env k].  [datetime.now()] is answered by [clock env].
    - A coroutine is a function from a [world] to an outcome, a new world and
      the list of events it performed, in order.  [Unfinished] marks a
      computation that is still running when the fuel is spent; the events
      are then the prefix performed so far.  One unit of fuel is one call of
      [get_file_content].
    - The retry of [get_file_content] is a nested call, and the
      interpreter's stack has room for finitely many.  [Stack] is the code
      with that room as a parameter; the definitions outside [Stack] are the
      code on a stack that is deep enough for the run, and the two agree as
      long as the fuel does not exceed the room.
    - A remote call is in flight from the moment [session.get] is issued
      until its answer (status and body, or the failure) has arrived.
    - The walks run as tasks of one event loop, modelled as a transition
      system over the events of the walks ([step]).  What a walk returns
      depends on the answers it gets only, so [main] takes the results of
      the walks from [process_repo] directly.
    - [print] writes to the console only and is not modelled; nor are the
      headers and the timeout passed to [session.get], whose effect is in
      the answers of the oracle. *)

From Stdlib Require Import String Ascii List ZArith Arith Lia Bool.
Import ListNotations.
Open Scope string_scope.
Open Scope list_scope.
Set Warnings "-register-all".

(** ** Python string primitives used by the source *)

Module Py.

(** [s.endswith(suf)] *)
Fixpoint endswith (s suf : string) : bool :=
  String.eqb s suf ||
  match s with
  | EmptyString => false
  | String _ s' => endswith s' suf
  end.

(** [s.endswith((a, b, ...))] *)
Definition endswith_any (s : string) (sufs : list string) : bool :=
  existsb (endswith s) sufs.

(** [s.split(sep)] for a one-character separator *)
Fixpoint split (sep : ascii) (s : string) : list string :=
  match s with
  | EmptyString => [EmptyString]
  | String c s' =>
      if Ascii.eqb c sep then EmptyString :: split sep s'
      else match split sep s' with
           | [] => [String c EmptyString]
           | h :: t => String c h :: t
           end
  end.

(** [l[-1]] on a list of strings ([IndexError] cannot occur on the result
    of [split], which is never empty) *)
Definition last_item (l : list string) : string := last l EmptyString.

(** [s.replace(old, new)]: every non-overlapping occurrence, left to
    right.  [skip] counts the characters of a matched occurrence that are
    still to be dropped. *)
Fixpoint replace_from (skip : nat) (old new s : string) : string :=
  match s with
  | EmptyString => EmptyString
  | String c s' =>
      match skip with
      | S k => replace_from k old new s'
      | O =>
          if prefix old s
          then (new ++ replace_from (String.length old - 1)%nat old new s')%string
          else String c (replace_from 0 old new s')
      end
  end.

Definition replace (old new s : string) : string := replace_from 0 old new s.

(** [range(start, stop, step)] for a positive step: i = start; while
    i < stop: yield i; i += step. *)
Fixpoint range_from (fuel start stop step : nat) : list nat :=
  match fuel with
  | O => []
  | S fuel' =>
      if Nat.ltb start stop
      then start :: range_from fuel' (start + step)%nat stop step
      else []
  end.

Definition range (start stop step : nat) : list nat :=
  range_from (stop - start)%nat start stop step.

(** [l[i:j]] for [0 <= i <= j]; Python clamps both ends to the list *)
Definition slice {A : Type} (l : list A) (i j : nat) : list A :=
  firstn (j - i)%nat (skipn i l).

End Py.

(** ** Data model *)

(** A decoded JSON value, as [response.json()] returns it.  An object is the
    list of the members of the parsed [dict], in order, each key once. *)
Inductive json : Type :=
| JNull
| JBool (b : bool)
| JNum (n : Z)
| JStr (s : string)
| JArr (items : list json)
| JObj (members : list (string * json)).

(** Exceptions the modelled code can raise; all are subclasses of
    [Exception]. *)
Inductive exn : Type :=
| ClientError        (* aiohttp: connection failure or timeout *)
| JsonDecodeError    (* response.json() on a malformed body *)
| DecodeError        (* b64decode / .decode('utf-8') *)
| TypeError
| KeyError
| AttributeError
| NameError
| RecursionError     (* the interpreter's stack is full *)
| SinkError.         (* pymongo *)

(** What one GET yields. *)
Inductive response : Type :=
| TransportError
| Reply (status : Z) (body : option json).   (* [None]: json() raises *)

(** One entry of [VERIFIED_REPOS]. *)
Record repo : Type := mkRepo {
  url : string;
  name : string;
  description : string;
  language : string;
  stars : Z;
  topics : list string;
  frameworks : list string
}.

Record metadata : Type := mkMeta {
  size : nat;
  type : string;
  extension : string
}.

(** The document built for MongoDB.  [file_path] is whatever the listing
    gave under ["path"]. *)
Record document : Type := mkDoc {
  repo_name : string;
  repo_url : string;
  file_name : string;
  file_path : json;
  doc_language : string;
  content : string;
  doc_topics : list string;
  doc_frameworks : list string;
  doc_stars : Z;
  created_at : Z;
  doc_metadata : metadata
}.

(** Observable actions of a repository walk. *)
Inductive event : Type :=
| EvAcquire                       (* the semaphore is acquired *)
| EvRelease                       (* the semaphore is released *)
| EvRequest (api_url : string)    (* session.get is issued *)
| EvResponse (status : option Z)  (* its answer (or failure) has arrived *)
| EvSleep (seconds : nat).        (* asyncio.sleep *)

(** The remote side as seen by one walk. *)
Record remote : Type := mkRemote {
  respond : nat -> response;
  clock : nat -> Z
}.

Record world : Type := mkWorld {
  next_request : nat;
  next_tick : nat
}.

Definition MAX_CONCURRENT_REQUESTS : nat := 3.

(** ** The catalog *)

Definition VERIFIED_REPOS : list (string * list repo) :=
  [
   ("python",
    [
      mkRepo "https://github.com/tiangolo/fastapi" "fastapi"
        "FastAPI framework, high performance, web APIs"
        "python" 65000
        ["api"; "async"; "python3"; "web-framework"]
        ["FastAPI"; "Pydantic"];
      mkRepo "https://github.com/langchain-ai/langchain" "langchain"
        "Building LLM applications"
        "python" 75000
        ["ai"; "llm"; "machine-learning"; "nlp"]
        ["LangChain"];
      mkRepo "https://github.com/pytorch/pytorch" "pytorch"
        "Deep learning framework"
        "python" 73000
        ["deep-learning"; "machine-learning"; "ai"; "neural-networks"]
        ["PyTorch"];
      mkRepo "https://github.com/huggingface/transformers" "transformers"
        "State-of-the-art Machine Learning"
        "python" 115000
        ["nlp"; "machine-learning"; "transformers"; "ai"]
        ["PyTorch"; "TensorFlow"];
      mkRepo "https://github.com/scrapy/scrapy" "scrapy"
        "Web scraping framework"
        "python" 49000
        ["web-scraping"; "crawler"; "spider"; "automation"]
        ["Scrapy"];
      mkRepo "https://github.com/streamlit/streamlit" "streamlit"
        "Web apps for Machine Learning"
        "python" 28000
        ["web-apps"; "data-science"; "ml-apps"; "dashboard"]
        ["Streamlit"];
      mkRepo "https://github.com/django/django" "django"
        "Web framework for perfectionists"
        "python" 73000
        ["web-framework"; "python3"; "orm"; "mvc"]
        ["Django"];
      mkRepo "https://github.com/numpy/numpy" "numpy"
        "Scientific computing in Python"
        "python" 24000
        ["scientific-computing"; "arrays"; "mathematics"; "data-science"]
        ["NumPy"]
    ]);
   ("typescript",
    [
      mkRepo "https://github.com/microsoft/TypeScript" "TypeScript"
        "JavaScript with syntax for types"
        "typescript" 94000
        ["typescript"; "javascript"; "compiler"; "language"]
        ["TypeScript"];
      mkRepo "https://github.com/nestjs/nest" "nest"
        "Progressive Node.js framework"
        "typescript" 60000
        ["nodejs"; "typescript"; "server"; "framework"]
        ["NestJS"; "Express"];
      mkRepo "https://github.com/prisma/prisma" "prisma"
        "Next-generation ORM for Node.js & TypeScript"
        "typescript" 34000
        ["orm"; "database"; "typescript"; "nodejs"]
        ["Prisma"];
      mkRepo "https://github.com/trpc/trpc" "trpc"
        "End-to-end typesafe APIs"
        "typescript" 30000
        ["api"; "typescript"; "rpc"; "full-stack"]
        ["tRPC"];
      mkRepo "https://github.com/supabase/supabase" "supabase"
        "Open source Firebase alternative"
        "typescript" 58000
        ["database"; "authentication"; "realtime"; "backend"]
        ["Supabase"; "PostgreSQL"];
      mkRepo "https://github.com/angular/angular" "angular"
        "Modern web development platform"
        "typescript" 89000
        ["web"; "framework"; "angular"; "spa"]
        ["Angular"];
      mkRepo "https://github.com/remix-run/remix" "remix"
        "Full stack web framework"
        "typescript" 24000
        ["web"; "framework"; "react"; "full-stack"]
        ["Remix"; "React"];
      mkRepo "https://github.com/jestjs/jest" "jest"
        "JavaScript Testing Framework"
        "typescript" 42000
        ["testing"; "jest"; "javascript"; "typescript"]
        ["Jest"]
    ])
  ].

(** ** The coroutine monad *)

Inductive outcome (A : Type) : Type :=
| Ok (a : A)
| Raise (e : exn)
| Unfinished.
Arguments Ok {A} a.
Arguments Raise {A} e.
Arguments Unfinished {A}.

Definition M (A : Type) : Type := world -> outcome A * world * list event.

Definition ret {A} (a : A) : M A := fun w => (Ok a, w, []).
Definition raise {A} (e : exn) : M A := fun w => (Raise e, w, []).
Definition diverge {A} : M A := fun w => (Unfinished, w, []).

Definition bind {A B} (m : M A) (f : A -> M B) : M B :=
  fun w =>
    match m w with
    | (Ok a, w1, t1) => let '(o, w2, t2) := f a w1 in (o, w2, t1 ++ t2)
    | (Raise e, w1, t1) => (Raise e, w1, t1)
    | (Unfinished, w1, t1) => (Unfinished, w1, t1)
    end.

Notation "x <- m ;; k" := (bind m (fun x => k))
  (at level 61, m at next level, right associativity).
Notation "m ;;; k" := (bind m (fun _ => k))
  (at level 61, right associativity).

(** [try: m  except Exception as e: h e] *)
Definition try_except {A} (m : M A) (h : exn -> M A) : M A :=
  fun w =>
    match m w with
    | (Raise e, w1, t1) => let '(o, w2, t2) := h e w1 in (o, w2, t1 ++ t2)
    | r => r
    end.

Definition emit (e : event) : M unit := fun w => (Ok tt, w, [e]).

(** [async with semaphore: m].  The release runs on every way out of the
    block; a block that is still running has not released. *)
Definition with_semaphore {A} (m : M A) : M A :=
  fun w =>
    match m w with
    | (Unfinished, w1, t1) => (Unfinished, w1, EvAcquire :: t1)
    | (o, w1, t1) => (o, w1, EvAcquire :: t1 ++ [EvRelease])
    end.

(** [await asyncio.sleep(n)] *)
Definition sleep (n : nat) : M unit := emit (EvSleep n).

Definition status_of (r : response) : option Z :=
  match r with
  | TransportError => None
  | Reply st _ => Some st
  end.

(** [async with session.get(api_url, ...) as response]: one request, one
    answer.  A call is in flight between its [EvRequest] and its
    [EvResponse]. *)
Definition session_get (env : remote) (api_url : string) : M (Z * option json) :=
  fun w =>
    let r := respond env (next_request w) in
    let w' := mkWorld (S (next_request w)) (next_tick w) in
    let t := [EvRequest api_url; EvResponse (status_of r)] in
    match r with
    | TransportError => (Raise ClientError, w', t)
    | Reply st body => (Ok (st, body), w', t)
    end.

(** [await response.json()] *)
Definition response_json (body : option json) : M json :=
  match body with
  | Some j => ret j
  | None => raise JsonDecodeError
  end.

(** [datetime.now()] *)
Definition now (env : remote) : M Z :=
  fun w => (Ok (clock env (next_tick w)),
            mkWorld (next_request w) (S (next_tick w)), []).

(** ** Dynamic operations on JSON values *)

Fixpoint assoc (k : string) (kv : list (string * json)) : option json :=
  match kv with
  | [] => None
  | (k', v) :: rest => if String.eqb k k' then Some v else assoc k rest
  end.

(** [key in data], after [isinstance(data, dict)] *)
Definition is_dict_with (key : string) (data : json) : bool :=
  match data with
  | JObj kv => match assoc key kv with Some _ => true | None => false end
  | _ => false
  end.

(** [obj[key]] for a string key *)
Definition getitem (obj : json) (key : string) : M json :=
  match obj with
  | JObj kv => match assoc key kv with
               | Some v => ret v
               | None => raise KeyError
               end
  | _ => raise TypeError
  end.

Definition chars (s : string) : list json :=
  map (fun c => JStr (String c EmptyString)) (list_ascii_of_string s).

(** [for item in contents]: the items the loop visits *)
Definition iterate (contents : json) : M (list json) :=
  match contents with
  | JArr items => ret items
  | JObj kv => ret (map (fun p => JStr (fst p)) kv)
  | JStr s => ret (chars s)
  | _ => raise TypeError
  end.

(** [x == "file"] *)
Definition eq_str (x : json) (s : string) : bool :=
  match x with
  | JStr s' => String.eqb s' s
  | _ => false
  end.

(** [x.endswith(sufs)] *)
Definition json_endswith (x : json) (sufs : list string) : M bool :=
  match x with
  | JStr s => ret (Py.endswith_any s sufs)
  | _ => raise AttributeError
  end.

(** [prefix + path] where [prefix] is a [str] *)
Definition str_add (prefix : string) (path : json) : M string :=
  match path with
  | JStr p => ret (prefix ++ p)%string
  | _ => raise TypeError
  end.

(** ** The Content Fetcher and the Repository Walker *)

Definition EXTENSIONS : list string :=
  [".js"; ".ts"; ".py"; ".java"; ".rs"; ".go"; ".cpp"].

Definition contents_url (repo_url : string) : string :=
  (Py.replace "github.com" "api.github.com/repos" repo_url ++ "/contents")%string.

Section Walk.

(** [b64decode(x).decode('utf-8')] on a [str]: the text, or [None] when
    either step raises.  Library code, taken as given. *)
Variable b64decode_utf8 : string -> option string.

Variable env : remote.

Definition decode (x : json) : M string :=
  match x with
  | JStr s => match b64decode_utf8 s with
              | Some text => ret text
              | None => raise DecodeError
              end
  | _ => raise TypeError
  end.

(** [get_file_content(session, repo_url, path)].  One unit of fuel per
    call; the retry after a 403 is the recursive call. *)
Fixpoint get_file_content (fuel : nat) (repo_url : string) (path : json)
  : M string :=
  match fuel with
  | O => diverge
  | S fuel' =>
      try_except
        (api_url <- str_add (Py.replace "github.com" "api.github.com/repos"
                               repo_url ++ "/contents/")%string path ;;
         r <- session_get env api_url ;;
         let '(status, body) := r in
         if (status =? 404)%Z then ret ""
         else if (status =? 403)%Z then
           sleep 60 ;;; get_file_content fuel' repo_url path
         else if (status =? 200)%Z then
           data <- response_json body ;;
           if is_dict_with "content" data then
             c <- getitem data "content" ;; decode c
           else ret ""
         else ret "")
        (fun _ => ret "")
  end.

Definition build_doc (r : repo) (item_name : string) (item_path : json)
  (text : string) (stamp : Z) : document :=
  {| repo_name := name r;
     repo_url := url r;
     file_name := item_name;
     file_path := item_path;
     doc_language := language r;
     content := text;
     doc_topics := topics r;
     doc_frameworks := frameworks r;
     doc_stars := stars r;
     created_at := stamp;
     doc_metadata :=
       {| size := String.length text;
          type := "code";
          extension := Py.last_item (Py.split "." item_name) |} |}.

(** [item["name"]] as a [str]; [endswith] succeeded on it, so it is one *)
Definition as_str (x : json) : string :=
  match x with
  | JStr s => s
  | _ => ""
  end.

(** One iteration of [for item in contents], with [processed_files] as the
    accumulator. *)
Definition process_item (fuel : nat) (r : repo) (item : json)
  (processed_files : list document) : M (list document) :=
  ty <- getitem item "type" ;;
  if eq_str ty "file" then
    nm <- getitem item "name" ;;
    matches <- json_endswith nm EXTENSIONS ;;
    if matches then
      path <- getitem item "path" ;;
      text <- get_file_content fuel (url r) path ;;
      if negb (String.eqb text "") then
        path' <- getitem item "path" ;;
        stamp <- now env ;;
        ret (processed_files ++ [build_doc r (as_str nm) path' text stamp])
      else ret processed_files
    else ret processed_files
  else ret processed_files.

Fixpoint process_items (fuel : nat) (r : repo) (items : list json)
  (processed_files : list document) : M (list document) :=
  match items with
  | [] => ret processed_files
  | item :: rest =>
      acc <- process_item fuel r item processed_files ;;
      process_items fuel r rest acc
  end.

(** [process_repo(session, repo, semaphore)] *)
Definition process_repo (fuel : nat) (r : repo) : M (list document) :=
  try_except
    (with_semaphore
       (resp <- session_get env (contents_url (url r)) ;;
        let '(status, body) := resp in
        if negb (status =? 200)%Z then ret []
        else
          contents <- response_json body ;;
          items <- iterate contents ;;
          process_items fuel r items []))
    (fun _ => ret []).

End Walk.

Definition start : world := mkWorld 0 0.

(** The outcome, and the events, of one walk started afresh. *)
Definition walk_result (dec : string -> option string) (env : remote)
  (fuel : nat) (r : repo) : outcome (list document) :=
  fst (fst (process_repo dec env fuel r start)).

Definition walk_trace (dec : string -> option string) (env : remote)
  (fuel : nat) (r : repo) : list event :=
  snd (process_repo dec env fuel r start).

(** ** The interpreter's stack *)

Module Stack.

(** [get_file_content] on a stack with room for [room] more nested calls of
    it.  Every 403 nests one call; the call for which no room is left is
    not entered: [RecursionError] is raised at the [await], inside the [try]
    of the caller, whose [except Exception] returns the empty text. *)
Fixpoint get_file_content (dec : string -> option string) (env : remote)
  (room fuel : nat) (repo_url : string) (path : json) {struct fuel}
  : M string :=
  match fuel with
  | O => diverge
  | S fuel' =>
      try_except
        (api_url <- str_add (Py.replace "github.com" "api.github.com/repos"
                               repo_url ++ "/contents/")%string path ;;
         r <- session_get env api_url ;;
         let '(status, body) := r in
         if (status =? 404)%Z then ret ""
         else if (status =? 403)%Z then
           sleep 60 ;;;
           match room with
           | O => raise RecursionError
           | S room' => get_file_content dec env room' fuel' repo_url path
           end
         else if (status =? 200)%Z then
           data <- response_json body ;;
           if is_dict_with "content" data then
             c <- getitem data "content" ;; decode dec c
           else ret ""
         else ret "")
        (fun _ => ret "")
  end.

Definition process_item (dec : string -> option string) (env : remote)
  (room fuel : nat) (r : repo) (item : json)
  (processed_files : list document) : M (list document) :=
  ty <- getitem item "type" ;;
  if eq_str ty "file" then
    nm <- getitem item "name" ;;
    matches <- json_endswith nm EXTENSIONS ;;
    if matches then
      path <- getitem item "path" ;;
      text <- get_file_content dec env room fuel (url r) path ;;
      if negb (String.eqb text "") then
        path' <- getitem item "path" ;;
        stamp <- now env ;;
        ret (processed_files ++ [build_doc r (as_str nm) path' text stamp])
      else ret processed_files
    else ret processed_files
  else ret processed_files.

Fixpoint process_items (dec : string -> option string) (env : remote)
  (room fuel : nat) (r : repo) (items : list json)
  (processed_files : list document) : M (list document) :=
  match items with
  | [] => ret processed_files
  | item :: rest =>
      acc <- process_item dec env room fuel r item processed_files ;;
      process_items dec env room fuel r rest acc
  end.

Definition process_repo (dec : string -> option string) (env : remote)
  (room fuel : nat) (r : repo) : M (list document) :=
  try_except
    (with_semaphore
       (resp <- session_get env (contents_url (url r)) ;;
        let '(status, body) := resp in
        if negb (status =? 200)%Z then ret []
        else
          contents <- response_json body ;;
          items <- iterate contents ;;
          process_items dec env room fuel r items []))
    (fun _ => ret []).

End Stack.

(** ** The Sink *)

(** An index definition: the indexed fields with their directions. *)
Definition index_spec : Type := list (string * Z).

(** The document store as [main] sees it: whether the client is open, the
    indexes and documents of the collection, and the batches handed to
    [insert_many] so far. *)
Record sink : Type := mkSink {
  connected : bool;
  indexes : list index_spec;
  collection : list document;
  submitted : list (list document)
}.

(** Faults of the store: whether [MongoClient] raises, whether the k-th
    [create_index] raises, and whether the k-th [insert_many] raises, and
    then after how many documents of its batch were written. *)
Record sink_env : Type := mkSinkEnv {
  connect_fault : bool;
  index_fault : nat -> bool;
  insert_fault : nat -> option nat
}.

Definition SM (A : Type) : Type := sink -> outcome A * sink.

Definition sret {A} (a : A) : SM A := fun s => (Ok a, s).

Definition sbind {A B} (m : SM A) (f : A -> SM B) : SM B :=
  fun s =>
    match m s with
    | (Ok a, s1) => f a s1
    | (Raise e, s1) => (Raise e, s1)
    | (Unfinished, s1) => (Unfinished, s1)
    end.

Notation "m >> k" := (sbind m (fun _ => k))
  (at level 62, right associativity).

(** [await] on something computed outside the store *)
Definition lift {A} (o : outcome A) : SM A := fun s => (o, s).

Definition index_spec_dec (a b : index_spec) : {a = b} + {a <> b}.
Proof. repeat decide equality. Defined.

Definition index_eqb (a b : index_spec) : bool :=
  if index_spec_dec a b then true else false.

(** [MongoClient(MONGODB_URI)] *)
Definition MongoClient (db : sink_env) : SM unit :=
  fun s =>
    if connect_fault db then (Raise SinkError, s)
    else (Ok tt, mkSink true (indexes s) (collection s) (submitted s)).

(** [collection.create_index(spec)], the k-th such call; an index that
    exists is left as it is *)
Definition create_index (db : sink_env) (k : nat) (spec : index_spec) : SM unit :=
  fun s =>
    if index_fault db k then (Raise SinkError, s)
    else if existsb (index_eqb spec) (indexes s) then (Ok tt, s)
    else (Ok tt, mkSink (connected s) (indexes s ++ [spec]) (collection s)
                   (submitted s)).

(** [collection.insert_many(batch)]: a plain ordered insert.  It is
    recorded in [submitted] whether it succeeds or not. *)
Definition insert_many (db : sink_env) (batch : list document) : SM unit :=
  fun s =>
    match insert_fault db (length (submitted s)) with
    | None =>
        (Ok tt, mkSink (connected s) (indexes s) (collection s ++ batch)
                  (submitted s ++ [batch]))
    | Some landed =>
        (Raise SinkError,
         mkSink (connected s) (indexes s) (collection s ++ firstn landed batch)
           (submitted s ++ [batch]))
    end.

(** [client.close()] *)
Definition close (s : sink) : sink :=
  mkSink false (indexes s) (collection s) (submitted s).

(** ** The Ingestion Orchestrator *)

Definition batch_size : nat := 100.

Definition INDEXES : list index_spec :=
  [ [("content", 1%Z)];
    [("language", 1%Z)];
    [("repo_name", 1%Z)];
    [("file_name", 1%Z)];
    [("language", 1%Z); ("repo_name", 1%Z); ("file_name", 1%Z)];
    [("topics", 1%Z)];
    [("frameworks", 1%Z)] ].

Fixpoint create_indexes (db : sink_env) (k : nat) (specs : list index_spec)
  : SM unit :=
  match specs with
  | [] => sret tt
  | spec :: rest => create_index db k spec >> create_indexes db (S k) rest
  end.

(** [for language, repos in catalog.items(): all_repos.extend(repos)] *)
Definition all_repos (catalog : list (string * list repo)) : list repo :=
  concat (map snd catalog).

(** [await asyncio.gather] over the tasks: the results in task order once every
    task has returned; an exception of a task is raised; with a task that
    never returns and none that raises, the join never returns. *)
Fixpoint gather {A} (tasks : list (outcome A)) : outcome (list A) :=
  match tasks with
  | [] => Ok []
  | t :: rest =>
      match t, gather rest with
      | Raise e, _ => Raise e
      | _, Raise e => Raise e
      | Unfinished, _ => Unfinished
      | _, Unfinished => Unfinished
      | Ok a, Ok l => Ok (a :: l)
      end
  end.

(** The walks of the catalog, the i-th against its own view [net i] of the
    remote API. *)
Definition walks (dec : string -> option string) (net : nat -> remote)
  (fuel : nat) (repos : list repo) : list (outcome (list document)) :=
  map (fun ir => walk_result dec (net (fst ir)) fuel (snd ir))
      (combine (seq 0 (length repos)) repos).

Definition nonempty {A} (l : list A) : bool :=
  match l with
  | [] => false
  | _ => true
  end.

(** [for i in range(0, len(repo_contents), batch_size): ...] *)
Fixpoint insert_batches (db : sink_env) (repo_contents : list document)
  (starts : list nat) : SM unit :=
  match starts with
  | [] => sret tt
  | i :: rest =>
      let batch := Py.slice repo_contents i (i + batch_size) in
      (if nonempty batch then insert_many db batch else sret tt) >>
      insert_batches db repo_contents rest
  end.

Definition insert_repo (db : sink_env) (repo_contents : list document)
  : SM unit :=
  if nonempty repo_contents
  then insert_batches db repo_contents
         (Py.range 0 (length repo_contents) batch_size)
  else sret tt.

(** [for repo_contents in results: ...] *)
Fixpoint insert_results (db : sink_env) (results : list (list document))
  : SM unit :=
  match results with
  | [] => sret tt
  | repo_contents :: rest =>
      insert_repo db repo_contents >> insert_results db rest
  end.

(** The [try] block of [main] once [client] is bound. *)
Definition main_body (dec : string -> option string) (net : nat -> remote)
  (db : sink_env) (fuel : nat) (catalog : list (string * list repo))
  : SM unit :=
  create_indexes db 0 INDEXES >>
  sbind (lift (gather (walks dec net fuel (all_repos catalog))))
        (fun results => insert_results db results).

(** [main()].  The [except] clause re-raises; the [finally] clause closes
    the client, and raises [NameError] when [client] was never bound. *)
Definition main (dec : string -> option string) (net : nat -> remote)
  (db : sink_env) (fuel : nat) (catalog : list (string * list repo))
  : SM unit :=
  fun s =>
    match MongoClient db s with
    | (Ok _, s1) =>
        match main_body dec net db fuel catalog s1 with
        | (Unfinished, s2) => (Unfinished, s2)
        | (o, s2) => (o, close s2)
        end
    | (Raise _, s1) => (Raise NameError, s1)
    | (Unfinished, s1) => (Unfinished, s1)
    end.

(** [asyncio.run(main())] as the process sees it: the exit status, when the
    process ends. *)
Definition exit_status {A} (o : outcome A) : option Z :=
  match o with
  | Ok _ => Some 0%Z
  | Raise _ => Some 1%Z
  | Unfinished => None
  end.

(** ** The scheduler

    [asyncio.gather] runs the walks as tasks of one event loop.  A task is
    the list of events it has still to perform; the loop lets any task
    perform its next event, except that [EvAcquire] waits for a free
    permit. *)

Record task : Type := mkTask {
  pending : list event;
  holding : bool;      (* the task is inside [async with semaphore] *)
  inflight : nat       (* requests of the task awaiting their answer *)
}.

Record pool : Type := mkPool {
  permits : nat;       (* the value of the semaphore *)
  tasks : list task
}.

Definition fire (p : nat) (t : task) : option (nat * task) :=
  match pending t with
  | [] => None
  | EvAcquire :: rest =>
      match p with
      | O => None
      | S p' => Some (p', mkTask rest true (inflight t))
      end
  | EvRelease :: rest => Some (S p, mkTask rest false (inflight t))
  | EvRequest _ :: rest => Some (p, mkTask rest (holding t) (S (inflight t)))
  | EvResponse _ :: rest => Some (p, mkTask rest (holding t) (pred (inflight t)))
  | EvSleep _ :: rest => Some (p, mkTask rest (holding t) (inflight t))
  end.

Inductive step : pool -> pool -> Prop :=
| step_fire : forall p p' before t t' after,
    fire p t = Some (p', t') ->
    step (mkPool p (before ++ t :: after)) (mkPool p' (before ++ t' :: after)).

Inductive reachable (s0 : pool) : pool -> Prop :=
| reach_init : reachable s0 s0
| reach_step : forall s s', reachable s0 s -> step s s' -> reachable s0 s'.

Definition spawn (tr : list event) : task := mkTask tr false 0.

(** The pool as [main] sets it up: [Semaphore(MAX_CONCURRENT_REQUESTS)] and
    one task per repository of the catalog. *)
Definition launch (dec : string -> option string) (net : nat -> remote)
  (fuel : nat) (catalog : list (string * list repo)) : pool :=
  mkPool MAX_CONCURRENT_REQUESTS
    (map (fun ir => spawn (walk_trace dec (net (fst ir)) fuel (snd ir)))
         (combine (seq 0 (length (all_repos catalog))) (all_repos catalog))).

(** Requests in flight in the whole pool, and walks inside the semaphore. *)
Definition total_inflight (s : pool) : nat :=
  list_sum (map inflight (tasks s)).

Definition holders (s : pool) : nat :=
  length (filter holding (tasks s)).

(** ** Trace disciplines *)

(** What may happen inside [async with semaphore]: requests answered one at
    a time, sleeps between them, and no semaphore operation.  [busy] tells
    whether a request awaits its answer; the result is the final [busy]. *)
Fixpoint sequential (busy : bool) (tr : list event) : option bool :=
  match tr with
  | [] => Some busy
  | EvRequest _ :: rest => if busy then None else sequential true rest
  | EvResponse _ :: rest => if busy then sequential false rest else None
  | EvSleep _ :: rest => if busy then None else sequential false rest
  | EvAcquire :: _ => None
  | EvRelease :: _ => None
  end.

(** A coroutine that keeps to [sequential] from any world. *)
Definition calm {A} (m : M A) : Prop :=
  forall w, sequential false (snd (m w)) = Some false.

(** What a task may still do, given whether it holds a permit ([h]) and how
    many of its requests are in flight ([f]). *)
Fixpoint well_bracketed (h : bool) (f : nat) (tr : list event) : bool :=
  match tr with
  | [] => true
  | EvAcquire :: rest => negb h && Nat.eqb f 0 && well_bracketed true 0 rest
  | EvRelease :: rest => h && Nat.eqb f 0 && well_bracketed false 0 rest
  | EvRequest _ :: rest => h && Nat.eqb f 0 && well_bracketed true 1 rest
  | EvResponse _ :: rest => h && Nat.eqb f 1 && well_bracketed true 0 rest
  | EvSleep _ :: rest => h && Nat.eqb f 0 && well_bracketed true 0 rest
  end.

(** The permits a task holds. *)
Definition held (t : task) : nat := if holding t then 1 else 0.

Definition task_ok (t : task) : Prop :=
  well_bracketed (holding t) (inflight t) (pending t) = true /\
  inflight t <= (if holding t then 1 else 0).

(** The invariant of the pool for a semaphore created with [n] permits. *)
Definition pool_ok (n : nat) (s : pool) : Prop :=
  permits s + holders s = n /\ Forall task_ok (tasks s).

(** The permit discipline in the words of the specification: a permit is
    taken for one remote call (with its retries) and given back before the
    next call.  The state is [None] outside a permit, [Some None] under a
    permit that has served no call yet, and [Some (Some u)] under a permit
    that serves the calls to [u]. *)
Fixpoint one_permit_per_call (held : option (option string))
  (tr : list event) : bool :=
  match tr with
  | [] => true
  | EvAcquire :: rest =>
      match held with
      | None => one_permit_per_call (Some None) rest
      | Some _ => false
      end
  | EvRelease :: rest =>
      match held with
      | Some _ => one_permit_per_call None rest
      | None => false
      end
  | EvRequest u :: rest =>
      match held with
      | Some None => one_permit_per_call (Some (Some u)) rest
      | Some (Some u') => String.eqb u u' && one_permit_per_call held rest
      | None => false
      end
  | EvResponse _ :: rest => one_permit_per_call held rest
  | EvSleep _ :: rest => one_permit_per_call held rest
  end.

Definition is_acquire (e : event) : bool :=
  match e with EvAcquire => true | _ => false end.

Definition is_release (e : event) : bool :=
  match e with EvRelease => true | _ => false end.

Definition is_request (e : event) : bool :=
  match e with EvRequest _ => true | _ => false end.

Definition count (p : event -> bool) (tr : list event) : nat :=
  length (filter p tr).

(** Seconds spent in [asyncio.sleep] along a trace. *)
Fixpoint cooldown_total (tr : list event) : nat :=
  match tr with
  | [] => 0
  | EvSleep n :: rest => n + cooldown_total rest
  | _ :: rest => cooldown_total rest
  end.

(** The events of a fetch answered by [n] times 403 and then [last]. *)
Fixpoint retries (n : nat) (api_url : string) (last : option Z) : list event :=
  match n with
  | O => [EvRequest api_url; EvResponse last]
  | S k =>
      EvRequest api_url :: EvResponse (Some 403%Z) :: EvSleep 60 ::
      retries k api_url last
  end.

Fixpoint mem_char (c : ascii) (s : string) : bool :=
  match s with
  | EmptyString => false
  | String c' s' => Ascii.eqb c' c || mem_char c s'
  end.

(** ** Inputs the properties speak about *)

(** The world after [n] more requests. *)
Definition advance (w : world) (n : nat) : world :=
  mkWorld (next_request w + n) (next_tick w).

(** The address [get_file_content] asks for. *)
Definition file_url (base path : string) : string :=
  ((Py.replace "github.com" "api.github.com/repos" base ++ "/contents/")
   ++ path)%string.

(** A listed entry of kind file, named [nm] at [path], that passes the
    extension filter. *)
Definition source_file (item : json) (nm path : string) : Prop :=
  exists members,
    item = JObj members /\
    assoc "type" members = Some (JStr "file") /\
    assoc "name" members = Some (JStr nm) /\
    assoc "path" members = Some (JStr path) /\
    Py.endswith_any nm EXTENSIONS = true.

(** Answers to a file fetch that end it without content: not found, a
    status other than 200, 403 and 404, a transport failure, and a body or
    content that does not decode. *)
Inductive terminal_failure (dec : string -> option string)
  : response -> Prop :=
| tf_not_found : forall body, terminal_failure dec (Reply 404 body)
| tf_other_status : forall st body,
    st <> 200%Z -> st <> 403%Z -> st <> 404%Z ->
    terminal_failure dec (Reply st body)
| tf_transport : terminal_failure dec TransportError
| tf_malformed_body : terminal_failure dec (Reply 200 None)
| tf_undecodable : forall members b,
    assoc "content" members = Some (JStr b) -> dec b = None ->
    terminal_failure dec (Reply 200 (Some (JObj members))).

(** A listing call that fails: it raises, or answers with a status other
    than 200, or its body does not parse. *)
Inductive listing_failure : response -> Prop :=
| lf_transport : listing_failure TransportError
| lf_status : forall st body, st <> 200%Z -> listing_failure (Reply st body)
| lf_malformed_body : listing_failure (Reply 200 None).

(** What every record must satisfy, given the entries [items] that were
    listed: non-empty content, the size of that content, an extension
    without a dot that ends the file name after a dot, and a listed source
    file it was built for. *)
Definition record_ok (items : list json) (d : document) : Prop :=
  content d <> "" /\
  size (doc_metadata d) = String.length (content d) /\
  mem_char "." (extension (doc_metadata d)) = false /\
  (exists stem,
     file_name d = (stem ++ "." ++ extension (doc_metadata d))%string) /\
  exists item p,
    In item items /\ source_file item (file_name d) p /\ file_path d = JStr p.

(** Tasks none of which raises. *)
Definition quiet {A} (ts : list (outcome A)) : Prop :=
  Forall (fun o => forall e, o <> Raise e) ts.

(** The batches the insertion loop cuts out of the records of one
    repository. *)
Definition batches (repo_contents : list document) : list (list document) :=
  map (fun i => Py.slice repo_contents i (i + batch_size))
      (Py.range 0 (length repo_contents) batch_size).

(** The batches of all repositories, in the order of the results. *)
Definition all_batches (results : list (list document))
  : list (list document) :=
  concat (map batches results).

(** [insert_many] on each batch of a list, up to the first that raises. *)
Fixpoint submit (db : sink_env) (bs : list (list document)) : SM unit :=
  match bs with
  | [] => sret tt
  | b :: rest => insert_many db b >> submit db rest
  end.

(** A store without faults. *)
Definition fault_free (db : sink_env) : Prop :=
  connect_fault db = false /\
  (forall k, index_fault db k = false) /\
  (forall k, insert_fault db k = None).

(** A record without its creation time. *)
Definition unstamped (d : document) : document :=
  mkDoc (repo_name d) (repo_url d) (file_name d) (file_path d)
    (doc_language d) (content d) (doc_topics d) (doc_frameworks d)
    (doc_stars d) 0%Z (doc_metadata d).

(** Two views of the remote API that answer every request alike (their
    clocks may differ). *)
Definition same_responses (env env' : remote) : Prop :=
  forall k, respond env' k = respond env k.

(** Two runs of a walk that differ at most in the creation times of their
    records. *)
Definition similar (a b : outcome (list document) * world * list event)
  : Prop :=
  snd a = snd b /\ snd (fst a) = snd (fst b) /\
  match fst (fst a), fst (fst b) with
  | Ok x, Ok y => map unstamped x = map unstamped y
  | Raise e, Raise e' => e = e'
  | Unfinished, Unfinished => True
  | _, _ => False
  end.

(** ** Sample inputs *)

Module Sample.

(** A decoder for payloads that are already text. *)
Definition plain (s : string) : option string := Some s.

Definition fastapi : repo :=
  mkRepo "https://github.com/tiangolo/fastapi" "fastapi"
    "FastAPI framework, high performance, web APIs"
    "python" 65000
    ["api"; "async"; "python3"; "web-framework"]
    ["FastAPI"; "Pydantic"].

Definition entry (kind nm : string) : json :=
  JObj [("name", JStr nm); ("path", JStr nm); ("type", JStr kind)].

Definition file (text : string) : option json :=
  Some (JObj [("content", JStr text)]).

(** A repository with three entries.  [setup.py] is not found;
    [app.ts] is rate limited once and then served. *)
Definition api : remote :=
  mkRemote
    (fun k =>
       match k with
       | 0 => Reply 200 (Some (JArr [entry "file" "setup.py";
                                     entry "file" "README.md";
                                     entry "file" "app.ts"]))
       | 1 => Reply 404 None
       | 2 => Reply 403 None
       | 3 => Reply 200 (file "export {}")
       | _ => TransportError
       end)
    (fun k => Z.of_nat k).

(** A remote side whose listing is refused. *)
Definition down : remote :=
  mkRemote (fun _ => Reply 500 None) (fun k => Z.of_nat k).

Definition catalog : list (string * list repo) := [("python", [fastapi])].

Definition django : repo :=
  mkRepo "https://github.com/django/django" "django"
    "Web framework for perfectionists"
    "python" 73000
    ["web-framework"; "python3"; "orm"; "mvc"]
    ["Django"].

(** Two repositories; the first one's listing is refused. *)
Definition two : list (string * list repo) := [("python", [django; fastapi])].

Definition net (i : nat) : remote :=
  match i with
  | 0 => down
  | _ => api
  end.

Definition healthy : sink_env :=
  mkSinkEnv false (fun _ => false) (fun _ => None).

Definition fresh : sink := mkSink false [] [] [].

(** A store whose second [insert_many] raises before any document of the
    batch is written. *)
Definition failing : sink_env :=
  mkSinkEnv false (fun _ => false)
    (fun k => match k with 1 => Some 0 | _ => None end).

(** Three repositories, each served as [api] serves. *)
Definition three : list (string * list repo) :=
  [("python", [fastapi; django; fastapi])].

(** What the walks of [three] return. *)
Definition harvest : list (list document) :=
  match gather (walks plain (fun _ => api) 3 (all_repos three)) with
  | Ok results => results
  | _ => []
  end.

(** The pool of [catalog] once its only walk has acquired the semaphore
    and issued the listing request. *)
Definition listing_in_flight : pool :=
  mkPool 2 [mkTask (skipn 2 (walk_trace plain api 3 fastapi)) true 1].

End Sample.

(** The events of [k] requests of [api_url] each answered by a 403 and
    followed by its cooldown. *)
Fixpoint stalls (k : nat) (api_url : string) : list event :=
  match k with
  | O => []
  | S k' =>
      EvRequest api_url :: EvResponse (Some 403%Z) :: EvSleep 60 ::
      stalls k' api_url
  end.

(** ** Further disciplines and inputs *)

(** The text a 200 answer carries: the decoded [content] member of a JSON
    object, and the empty text for any other payload and for what does not
    decode. *)
Definition payload_text (dec : string -> option string) (body : option json)
  : string :=
  match body with
  | Some (JObj members) =>
      match assoc "content" members with
      | Some (JStr b) => match dec b with
                         | Some text => text
                         | None => ""
                         end
      | _ => ""
      end
  | _ => ""
  end.

Definition is_403 (e : event) : bool :=
  match e with
  | EvResponse (Some st) => (st =? 403)%Z
  | _ => false
  end.

Definition is_sleep (e : event) : bool :=
  match e with EvSleep _ => true | _ => false end.

(** What a fetch of [api_url] may do: ask for [api_url], receive an answer,
    sleep 60 seconds. *)
Definition fetch_event (api_url : string) (e : event) : Prop :=
  match e with
  | EvRequest u => u = api_url
  | EvResponse _ => True
  | EvSleep n => n = 60
  | EvAcquire => False
  | EvRelease => False
  end.

(** An entry on which the body of the loop raises before it fetches
    anything: not an object, an object without ["type"], a file without a
    ["name"] that is a string, or a file that passes the filter and has no
    ["path"]. *)
Definition malformed (item : json) : Prop :=
  match item with
  | JObj members =>
      match assoc "type" members with
      | None => True
      | Some ty =>
          eq_str ty "file" = true /\
          match assoc "name" members with
          | None => True
          | Some (JStr nm) =>
              Py.endswith_any nm EXTENSIONS = true /\
              assoc "path" members = None
          | Some _ => True
          end
      end
  | _ => True
  end.

(** An entry the loop passes over: an object that is not of kind file, or
    whose name does not end in one of the extensions. *)
Definition skipped (item : json) : Prop :=
  exists members ty,
    item = JObj members /\
    assoc "type" members = Some ty /\
    (eq_str ty "file" = false \/
     exists nm, assoc "name" members = Some (JStr nm) /\
                Py.endswith_any nm EXTENSIONS = false).

(** The records are built for entries of the listing, in the order of the
    listing, at most one for an entry. *)
Inductive embeds : list document -> list json -> Prop :=
| embeds_done : embeds [] []
| embeds_skip : forall ds item items,
    embeds ds items -> embeds ds (item :: items)
| embeds_take : forall d ds item items p,
    source_file item (file_name d) p -> file_path d = JStr p ->
    embeds ds items -> embeds (d :: ds) (item :: items).

(** The entries of the listing a walk works on: those of the array that
    answers its listing call with a 200, and none otherwise. *)
Definition listing_entries (resp : response) : list json :=
  match resp with
  | Reply st (Some (JArr items)) => if (st =? 200)%Z then items else []
  | _ => []
  end.

(** The addresses a walk of [r] with the entries [items] asks for: the
    contents of [r], and the contents of [r] followed by a slash and the
    path, as it is written in the listing, of an entry that is a source
    file. *)
Definition listed_address (r : repo) (items : list json) (e : event) : Prop :=
  match e with
  | EvRequest u =>
      u = contents_url (url r) \/
      exists item nm p,
        In item items /\ source_file item nm p /\ u = file_url (url r) p
  | _ => True
  end.

(** The events of a walk of a listing: the semaphore around the listing
    call and what the loop does. *)
Definition listed (r : repo) (o : outcome (list document))
  (loop : list event) : list event :=
  match o with
  | Unfinished =>
      EvAcquire :: EvRequest (contents_url (url r)) ::
      EvResponse (Some 200%Z) :: loop
  | _ =>
      EvAcquire :: (EvRequest (contents_url (url r)) ::
                    EvResponse (Some 200%Z) :: loop) ++ [EvRelease]
  end.

(** A coroutine all of whose events satisfy [P], from any world. *)
Definition emits {A} (P : event -> Prop) (m : M A) : Prop :=
  forall w, Forall P (snd (m w)).

(** [old in s]: [old] occurs somewhere in [s]. *)
Fixpoint occurs (old s : string) : bool :=
  prefix old s ||
  match s with
  | EmptyString => false
  | String _ s' => occurs old s'
  end.

(** Whether a task holds no permit once it has performed [tr], holding
    one or not ([h]) before. *)
Fixpoint settles (h : bool) (tr : list event) : bool :=
  match tr with
  | [] => negb h
  | EvAcquire :: rest => settles true rest
  | EvRelease :: rest => settles false rest
  | _ :: rest => settles h rest
  end.

(** A task that will have given its permit back when it is over. *)
Definition settled (t : task) : Prop :=
  settles (holding t) (pending t) = true.

(** A pool all of whose tasks are over. *)
Definition all_done (s : pool) : Prop :=
  Forall (fun t => pending t = []) (tasks s).

Module Cases.

(** Every request is answered by a 200 with an empty directory listing. *)
Definition directories : remote :=
  mkRemote (fun _ => Reply 200 (Some (JArr []))) (fun k => Z.of_nat k).

(** A listing of one good file and one entry that is no object; the file is
    served. *)
Definition broken : remote :=
  mkRemote
    (fun k =>
       match k with
       | 0 => Reply 200 (Some (JArr [Sample.entry "file" "app.ts"; JNull]))
       | 1 => Reply 200 (Sample.file "export {}")
       | _ => TransportError
       end)
    (fun k => Z.of_nat k).

(** A listing without source files: a directory and a text file. *)
Definition docs_only : remote :=
  mkRemote
    (fun k =>
       match k with
       | 0 => Reply 200 (Some (JArr [Sample.entry "dir" "src";
                                     Sample.entry "file" "README.md"]))
       | _ => TransportError
       end)
    (fun k => Z.of_nat k).

(** A listing of one source file, whose fetch is rate limited for ever. *)
Definition limited : remote :=
  mkRemote
    (fun k =>
       match k with
       | 0 => Reply 200 (Some (JArr [Sample.entry "file" "app.ts"]))
       | _ => Reply 403 None
       end)
    (fun k => Z.of_nat k).

(** The first repository is served, the second is rate limited for ever. *)
Definition uneven (i : nat) : remote :=
  match i with
  | 0 => Sample.api
  | _ => limited
  end.

(** A store whose fourth [create_index] raises. *)
Definition no_index : sink_env :=
  mkSinkEnv false (fun k => Nat.eqb k 3) (fun _ => None).

(** The listing of every repository is refused. *)
Definition outage (i : nat) : remote := Sample.down.

(** The pool of [Sample.three], each walk served as [Sample.api] serves. *)
Definition busy : pool :=
  launch Sample.plain (fun _ => Sample.api) 3 Sample.three.

(** A listing call answered by a 200 whose payload is an error object, not
    an array. *)
Definition apology : remote :=
  mkRemote
    (fun _ => Reply 200 (Some (JObj [("message", JStr "Moved Permanently")])))
    (fun k => Z.of_nat k).

(** A listing call that is rate limited. *)
Definition throttled : remote :=
  mkRemote (fun _ => Reply 403 None) (fun k => Z.of_nat k).

(** A repository with one source file whose fetch is rate limited [k]
    times and served from then on. *)
Definition relief (k : nat) : remote :=
  mkRemote
    (fun i =>
       match i with
       | 0 => Reply 200 (Some (JArr [Sample.entry "file" "app.ts"]))
       | S j => if Nat.ltb j k then Reply 403 None
                else Reply 200 (Sample.file "export {}")
       end)
    (fun i => Z.of_nat i).

(** A repository with 250 source files, each served at once. *)
Definition bulk : remote :=
  mkRemote
    (fun i =>
       match i with
       | 0 => Reply 200 (Some (JArr (repeat (Sample.entry "file" "app.ts") 250)))
       | _ => Reply 200 (Sample.file "export {}")
       end)
    (fun i => Z.of_nat i).

(** What the walk of [Sample.catalog] returns when served by [bulk]. *)
Definition bulk_harvest : list (list document) :=
  match gather (walks Sample.plain (fun _ => bulk) 1
                  (all_repos Sample.catalog)) with
  | Ok results => results
  | _ => []
  end.

End Cases.

(* ================================================================= *)
(** * Properties *)

(** ** The coroutine monad keeps to the discipline *)

Lemma bind_same {A B} (m m' : M A) (f f' : A -> M B) w :
  (forall w0, m' w0 = m w0) ->
  (forall a w0, f' a w0 = f a w0) ->
  bind m' f' w = bind m f w.
Proof.
  intros Hm Hf. unfold bind. rewrite Hm.
  destruct (m w) as [[[a|e|] w1] t1]; try reflexivity.
  rewrite Hf. reflexivity.
Qed.

Lemma try_except_same {A} (m m' : M A) (h : exn -> M A) w :
  (forall w0, m' w0 = m w0) -> try_except m' h w = try_except m h w.
Proof. intros Hm. unfold try_except. rewrite Hm. reflexivity. Qed.

Lemma sequential_app b t1 t2 :
  sequential b (t1 ++ t2) =
  match sequential b t1 with
  | Some b' => sequential b' t2
  | None => None
  end.
Proof.
  revert b; induction t1 as [|e t1 IH]; intros b; simpl; [reflexivity|].
  destruct e, b; simpl; auto.
Qed.

Lemma calm_ret {A} (a : A) : calm (ret a).
Proof. intros w; reflexivity. Qed.

Lemma calm_raise {A} (e : exn) : calm (@raise A e).
Proof. intros w; reflexivity. Qed.

Lemma calm_diverge {A} : calm (@diverge A).
Proof. intros w; reflexivity. Qed.

Lemma calm_bind {A B} (m : M A) (f : A -> M B) :
  calm m -> (forall a, calm (f a)) -> calm (bind m f).
Proof.
  intros Hm Hf w. unfold bind.
  specialize (Hm w). destruct (m w) as [[o w1] t1]. simpl in Hm.
  destruct o as [a| |]; simpl; auto.
  specialize (Hf a w1). destruct (f a w1) as [[o2 w2] t2]. simpl in *.
  rewrite sequential_app, Hm. exact Hf.
Qed.

Lemma calm_try_except {A} (m : M A) (h : exn -> M A) :
  calm m -> (forall e, calm (h e)) -> calm (try_except m h).
Proof.
  intros Hm Hh w. unfold try_except.
  specialize (Hm w). destruct (m w) as [[o w1] t1]. simpl in Hm.
  destruct o as [a|e|]; simpl; auto.
  specialize (Hh e w1). destruct (h e w1) as [[o2 w2] t2]. simpl in *.
  rewrite sequential_app, Hm. exact Hh.
Qed.

Lemma calm_session_get env u : calm (session_get env u).
Proof.
  intros w. unfold session_get. destruct (respond env (next_request w)); reflexivity.
Qed.

Lemma calm_sleep n : calm (sleep n).
Proof. intros w; reflexivity. Qed.

Lemma calm_now env : calm (now env).
Proof. intros w; reflexivity. Qed.

Lemma calm_response_json body : calm (response_json body).
Proof. destruct body; [apply calm_ret | apply calm_raise]. Qed.

Lemma calm_getitem obj key : calm (getitem obj key).
Proof.
  destruct obj; simpl; try apply calm_raise.
  destruct (assoc key members); [apply calm_ret | apply calm_raise].
Qed.

Lemma calm_iterate c : calm (iterate c).
Proof. destruct c; simpl; first [apply calm_ret | apply calm_raise]. Qed.

Lemma calm_json_endswith x sufs : calm (json_endswith x sufs).
Proof. destruct x; simpl; first [apply calm_ret | apply calm_raise]. Qed.

Lemma calm_str_add p x : calm (str_add p x).
Proof. destruct x; simpl; first [apply calm_ret | apply calm_raise]. Qed.

Lemma calm_decode dec x : calm (decode dec x).
Proof.
  destruct x; simpl; try apply calm_raise.
  destruct (dec s); [apply calm_ret | apply calm_raise].
Qed.

Create HintDb calm.
#[export] Hint Resolve calm_ret calm_raise calm_diverge calm_session_get
  calm_sleep calm_now calm_response_json calm_getitem calm_iterate
  calm_json_endswith calm_str_add calm_decode : calm.

Ltac calm_step :=
  match goal with
  | |- calm (bind _ _) => apply calm_bind; [|intros ?]
  | |- calm (try_except _ _) => apply calm_try_except; [|intros ?]
  | |- calm (if ?c then _ else _) => destruct c
  | |- calm (let '(_, _) := ?p in _) => destruct p
  | |- calm _ => solve [auto with calm]
  end.

Lemma calm_get_file_content dec env fuel repo_url path :
  calm (get_file_content dec env fuel repo_url path).
Proof.
  induction fuel as [|fuel IH]; simpl; [apply calm_diverge|].
  repeat calm_step.
Qed.

Lemma calm_process_item dec env fuel r item acc :
  calm (process_item dec env fuel r item acc).
Proof.
  unfold process_item.
  repeat first [apply calm_get_file_content | calm_step].
Qed.

Lemma calm_process_items dec env fuel r items :
  forall acc, calm (process_items dec env fuel r items acc).
Proof.
  induction items as [|item rest IH]; intros acc; simpl.
  - apply calm_ret.
  - apply calm_bind; [apply calm_process_item | intros a; apply IH].
Qed.

Lemma calm_listing dec env fuel r :
  calm (resp <- session_get env (contents_url (url r)) ;;
        let '(status, body) := resp in
        if negb (status =? 200)%Z then ret []
        else
          contents <- response_json body ;;
          items <- iterate contents ;;
          process_items dec env fuel r items []).
Proof.
  repeat first [apply calm_process_items | calm_step].
Qed.

(** ** The shape of a walk *)

(** A walk never raises: it returns, or it is still running; and its events
    are one acquire, a sequential body, and the release once it is over. *)
Lemma process_repo_shape dec env fuel r w :
  exists body,
    sequential false body = Some false /\
    ((exists docs w',
        process_repo dec env fuel r w =
        (Ok docs, w', EvAcquire :: body ++ [EvRelease])) \/
     (exists w',
        process_repo dec env fuel r w = (Unfinished, w', EvAcquire :: body))).
Proof.
  unfold process_repo, try_except, with_semaphore.
  pose proof (calm_listing dec env fuel r w) as Hc.
  destruct (bind _ _ w) as [[o w1] body]. simpl in Hc.
  exists body. split; [exact Hc|].
  destruct o as [docs|e|].
  - left. exists docs, w1. reflexivity.
  - left. exists [], w1. simpl. rewrite app_nil_r. reflexivity.
  - right. exists w1. reflexivity.
Qed.

Lemma sequential_well_bracketed body :
  forall b b' rest,
    sequential b body = Some b' ->
    well_bracketed true (if b' then 1 else 0) rest = true ->
    well_bracketed true (if b then 1 else 0) (body ++ rest) = true.
Proof.
  induction body as [|e body IH]; intros b b' rest Hs Hr; simpl in *.
  - injection Hs as <-. exact Hr.
  - destruct e, b; simpl in *; try discriminate;
      apply (IH _ _ _ Hs Hr).
Qed.

Lemma walk_trace_well_bracketed dec env fuel r :
  well_bracketed false 0 (walk_trace dec env fuel r) = true.
Proof.
  unfold walk_trace.
  destruct (process_repo_shape dec env fuel r start)
    as (body & Hb & [(docs & w' & E) | (w' & E)]); rewrite E; simpl.
  - apply (sequential_well_bracketed body false false); [exact Hb | reflexivity].
  - rewrite <- (app_nil_r body).
    apply (sequential_well_bracketed body false false); [exact Hb | reflexivity].
Qed.

(** ** The scheduler keeps the pool invariant *)

Lemma holders_split before t after p :
  holders (mkPool p (before ++ t :: after)) =
  length (filter holding before) + held t + length (filter holding after).
Proof.
  unfold holders, held. simpl. rewrite filter_app, length_app. simpl.
  destruct (holding t); simpl; lia.
Qed.

Lemma fire_keeps_task_ok p t p' t' :
  task_ok t -> fire p t = Some (p', t') ->
  task_ok t' /\ p' + held t' = p + held t.
Proof.
  unfold task_ok, fire, held. intros [Hwb Hin] Hf.
  destruct t as [pend h f]. simpl in *.
  destruct pend as [|e rest]; [discriminate|].
  destruct e, h; simpl in Hwb; try discriminate;
    destruct f as [|[|f]]; simpl in Hwb; try discriminate;
    try (destruct p as [|p0]; [discriminate|]);
    injection Hf as <- <-; simpl; repeat split; auto; lia.
Qed.

Lemma step_keeps_pool_ok n s s' : pool_ok n s -> step s s' -> pool_ok n s'.
Proof.
  intros [Hp Hall] Hstep. destruct Hstep as [p p' before t t' after Hf].
  simpl in *.
  apply Forall_app in Hall. destruct Hall as [Hb Hta].
  inversion Hta as [|? ? Ht Ha]; subst.
  destruct (fire_keeps_task_ok _ _ _ _ Ht Hf) as [Ht' Hbal].
  split.
  - simpl. rewrite !holders_split. lia.
  - simpl. apply Forall_app. split; [exact Hb|]. constructor; assumption.
Qed.

Lemma reachable_pool_ok n s0 s : pool_ok n s0 -> reachable s0 s -> pool_ok n s.
Proof.
  intros H0 Hr. induction Hr as [|s s' _ IH Hs]; [exact H0|].
  exact (step_keeps_pool_ok n s s' IH Hs).
Qed.

Lemma launch_pool_ok dec net fuel catalog :
  pool_ok MAX_CONCURRENT_REQUESTS (launch dec net fuel catalog).
Proof.
  unfold launch, pool_ok, holders. simpl.
  generalize (combine (seq 0 (length (all_repos catalog))) (all_repos catalog)).
  intros l. split.
  - induction l as [|x l IH]; simpl; [reflexivity | exact IH].
  - induction l as [|x l IH]; simpl; constructor; [|exact IH].
    split; simpl; [apply walk_trace_well_bracketed | lia].
Qed.

Lemma inflight_le_holders ts :
  Forall task_ok ts ->
  list_sum (map inflight ts) <= length (filter holding ts).
Proof.
  induction 1 as [|t ts [_ Ht] _ IH]; simpl; [lia|].
  destruct (holding t); simpl; lia.
Qed.

Lemma task_ok_idle t :
  task_ok t -> holding t = false ->
  inflight t = 0 /\ (pending t = [] \/ exists rest, pending t = EvAcquire :: rest).
Proof.
  intros [Hwb Hin] Hh. rewrite Hh in *. split; [lia|].
  destruct (pending t) as [|e rest]; [left; reflexivity|].
  destruct e; simpl in Hwb; try discriminate. right. eauto.
Qed.

(** ** C1: the concurrency ceiling *)

(** C1.  In every state the event loop can reach, for every catalog, every
    behaviour of the remote API and every length of the run, the number of
    remote calls in flight (listing calls and file fetches of all walks
    together) is at most [MAX_CONCURRENT_REQUESTS], which is 3. *)
Theorem C1_calls_in_flight_bounded dec net fuel catalog s :
  reachable (launch dec net fuel catalog) s ->
  total_inflight s <= MAX_CONCURRENT_REQUESTS /\ MAX_CONCURRENT_REQUESTS = 3.
Proof.
  intros Hr. split; [|reflexivity].
  destruct (reachable_pool_ok _ _ _ (launch_pool_ok dec net fuel catalog) Hr)
    as [Hp Hall].
  unfold total_inflight. pose proof (inflight_le_holders _ Hall) as Hle.
  unfold holders in Hp. lia.
Qed.

Lemma C1_calls_in_flight_bounded_witness :
  reachable (launch Sample.plain (fun _ => Sample.api) 3 Sample.catalog)
    Sample.listing_in_flight /\
  total_inflight Sample.listing_in_flight = 1 /\
  total_inflight Sample.listing_in_flight <= MAX_CONCURRENT_REQUESTS.
Proof.
  assert (Hr : reachable
                 (launch Sample.plain (fun _ => Sample.api) 3 Sample.catalog)
                 Sample.listing_in_flight).
  { eapply reach_step; [eapply reach_step; [apply reach_init|]|].
    - apply (step_fire 3 2 []
               (spawn (walk_trace Sample.plain Sample.api 3 Sample.fastapi))
               (mkTask (skipn 1 (walk_trace Sample.plain Sample.api 3
                                   Sample.fastapi)) true 0) []).
      reflexivity.
    - apply (step_fire 2 2 []
               (mkTask (skipn 1 (walk_trace Sample.plain Sample.api 3
                                   Sample.fastapi)) true 0)
               (mkTask (skipn 2 (walk_trace Sample.plain Sample.api 3
                                   Sample.fastapi)) true 1) []).
      reflexivity. }
  split; [exact Hr|]. split; [reflexivity|].
  exact (proj1 (C1_calls_in_flight_bounded _ _ _ _ _ Hr)).
Defined.

Lemma sample_listing_in_flight_reachable :
  reachable (launch Sample.plain (fun _ => Sample.api) 3 Sample.catalog)
    Sample.listing_in_flight.
Proof.
  eapply reach_step; [eapply reach_step; [apply reach_init|]|].
  - apply (step_fire 3 2 []
             (spawn (walk_trace Sample.plain Sample.api 3 Sample.fastapi))
             (mkTask (skipn 1 (walk_trace Sample.plain Sample.api 3
                                 Sample.fastapi)) true 0) []).
    reflexivity.
  - apply (step_fire 2 2 []
             (mkTask (skipn 1 (walk_trace Sample.plain Sample.api 3
                                 Sample.fastapi)) true 0)
             (mkTask (skipn 2 (walk_trace Sample.plain Sample.api 3
                                 Sample.fastapi)) true 1) []).
    reflexivity.
Qed.

(** ** C2 and C10: who holds the permit *)

Lemma sequential_no_semaphore tr :
  forall b b', sequential b tr = Some b' ->
               count is_acquire tr = 0 /\ count is_release tr = 0.
Proof.
  unfold count.
  induction tr as [|e tr IH]; intros b b' H; simpl in *; [auto|].
  destruct e, b; simpl in *; try discriminate; eauto.
Qed.

Lemma count_app p t1 t2 : count p (t1 ++ t2) = count p t1 + count p t2.
Proof. unfold count. rewrite filter_app, length_app. reflexivity. Qed.

(** The trace the specification describes is accepted by its discipline. *)
Example one_permit_per_call_accepts :
  one_permit_per_call None
    [EvAcquire; EvRequest "l"; EvResponse (Some 200%Z); EvRelease;
     EvAcquire; EvRequest "f"; EvResponse (Some 403%Z); EvSleep 60;
     EvRequest "f"; EvResponse (Some 200%Z); EvRelease] = true.
Proof. reflexivity. Qed.

(** C2, as stated, fails: on the sample repository the listing call and the
    file fetches run under the same permit, so the walk does not keep to
    the discipline of one permit per remote call. *)
Lemma C2_counterexample :
  walk_trace Sample.plain Sample.api 3 Sample.fastapi =
    [EvAcquire;
     EvRequest "https://api.github.com/repos/tiangolo/fastapi/contents";
     EvResponse (Some 200%Z);
     EvRequest "https://api.github.com/repos/tiangolo/fastapi/contents/setup.py";
     EvResponse (Some 404%Z);
     EvRequest "https://api.github.com/repos/tiangolo/fastapi/contents/app.ts";
     EvResponse (Some 403%Z);
     EvSleep 60;
     EvRequest "https://api.github.com/repos/tiangolo/fastapi/contents/app.ts";
     EvResponse (Some 200%Z);
     EvRelease] /\
  one_permit_per_call None
    (walk_trace Sample.plain Sample.api 3 Sample.fastapi) = false.
Proof. split; reflexivity. Qed.

(** C2, amended.  Every walk that ends acquires the semaphore exactly once,
    before its listing call, and releases it exactly once, as its last
    action, after the listing and all of its file fetches (with their
    cooldowns), however the walk ends; the Content Fetcher performs no
    semaphore operation of its own. *)
Theorem C2_one_permit_spans_the_walk dec env fuel r w :
  fst (fst (process_repo dec env fuel r w)) <> Unfinished ->
  (exists body,
     snd (process_repo dec env fuel r w) = EvAcquire :: body ++ [EvRelease] /\
     count is_acquire body = 0 /\ count is_release body = 0 /\
     count is_request body =
       count is_request (snd (process_repo dec env fuel r w))) /\
  count is_acquire (snd (process_repo dec env fuel r w)) = 1 /\
  count is_release (snd (process_repo dec env fuel r w)) = 1 /\
  (forall n u path w0,
     count is_acquire (snd (get_file_content dec env n u path w0)) = 0 /\
     count is_release (snd (get_file_content dec env n u path w0)) = 0).
Proof.
  intros Hend.
  destruct (process_repo_shape dec env fuel r w)
    as (body & Hb & [(docs & w' & E) | (w' & E)]); rewrite E in *; simpl in *;
    [|congruence].
  destruct (sequential_no_semaphore _ _ _ Hb) as [Ha Hr].
  split; [|split; [|split]].
  - exists body. repeat split; auto.
    change (EvAcquire :: body ++ [EvRelease])
      with ([EvAcquire] ++ body ++ [EvRelease]).
    rewrite !count_app. unfold count at 2 4. simpl. lia.
  - change (EvAcquire :: body ++ [EvRelease])
      with ([EvAcquire] ++ body ++ [EvRelease]).
    rewrite !count_app, Ha. reflexivity.
  - change (EvAcquire :: body ++ [EvRelease])
      with ([EvAcquire] ++ body ++ [EvRelease]).
    rewrite !count_app, Hr. reflexivity.
  - intros n u path w0.
    exact (sequential_no_semaphore _ _ _
             (calm_get_file_content dec env n u path w0)).
Qed.

Lemma C2_one_permit_spans_the_walk_witness :
  count is_request
    (snd (process_repo Sample.plain Sample.api 3 Sample.fastapi start)) = 4 /\
  count is_acquire
    (snd (process_repo Sample.plain Sample.api 3 Sample.fastapi start)) = 1.
Proof.
  split; [reflexivity|].
  refine (proj1 (proj2 (C2_one_permit_spans_the_walk
                          Sample.plain Sample.api 3 Sample.fastapi start _))).
  simpl. discriminate.
Defined.

(** C10.  In every walk one permit covers the whole walk: the events of a
    walk are the acquire, then a body in which every request is answered
    before the next is issued and no semaphore operation occurs, then the
    release; the fetcher never touches the semaphore.  Hence, in every
    reachable state of the event loop, each walk has at most one call in
    flight, a walk that holds no permit has none and can only wait for the
    semaphore or be over, and at most 3 walks hold a permit. *)
Theorem C10_walk_sequential_under_one_permit dec net fuel catalog s :
  reachable (launch dec net fuel catalog) s ->
  (forall env r w,
     exists body,
       sequential false body = Some false /\
       (snd (process_repo dec env fuel r w) = EvAcquire :: body ++ [EvRelease]
        \/ (snd (process_repo dec env fuel r w) = EvAcquire :: body /\
            fst (fst (process_repo dec env fuel r w)) = Unfinished))) /\
  (forall env u path w,
     sequential false (snd (get_file_content dec env fuel u path w))
       = Some false /\
     count is_acquire (snd (get_file_content dec env fuel u path w)) = 0) /\
  Forall (fun t =>
            inflight t <= 1 /\
            (holding t = false ->
             inflight t = 0 /\
             (pending t = [] \/ exists rest, pending t = EvAcquire :: rest)))
         (tasks s) /\
  holders s <= 3.
Proof.
  intros Hr. split; [|split; [|split]].
  - intros env r w.
    destruct (process_repo_shape dec env fuel r w)
      as (body & Hb & [(docs & w' & E) | (w' & E)]); exists body; rewrite E;
      simpl; auto.
  - intros env u path w. split; [apply calm_get_file_content|].
    exact (proj1 (sequential_no_semaphore _ _ _
                    (calm_get_file_content dec env fuel u path w))).
  - destruct (reachable_pool_ok _ _ _ (launch_pool_ok dec net fuel catalog) Hr)
      as [_ Hall].
    eapply Forall_impl; [|exact Hall]. intros t Ht. split.
    + destruct Ht as [_ Hin]. destruct (holding t); lia.
    + apply task_ok_idle. exact Ht.
  - destruct (reachable_pool_ok _ _ _ (launch_pool_ok dec net fuel catalog) Hr)
      as [Hp _].
    unfold MAX_CONCURRENT_REQUESTS in Hp. lia.
Qed.

Lemma C10_walk_sequential_under_one_permit_witness :
  holders Sample.listing_in_flight = 1 /\
  holders Sample.listing_in_flight <= 3.
Proof.
  split; [reflexivity|].
  exact (proj2 (proj2 (proj2
           (C10_walk_sequential_under_one_permit _ _ _ _ _
              sample_listing_in_flight_reachable)))).
Defined.

(** ** The Content Fetcher *)

Lemma get_file_content_never_raises dec env fuel u path w e :
  fst (fst (get_file_content dec env fuel u path w)) <> Raise e.
Proof.
  destruct fuel as [|fuel]; simpl; [discriminate|].
  unfold try_except.
  destruct (bind _ _ w) as [[o w1] t1]. destruct o; simpl; discriminate.
Qed.

(** A 403: the cooldown, then the same request again. *)
Lemma get_file_content_403 dec env fuel u p w body o w2 t :
  respond env (next_request w) = Reply 403 body ->
  get_file_content dec env fuel u (JStr p) (advance w 1) = (o, w2, t) ->
  get_file_content dec env (S fuel) u (JStr p) w =
    (o, w2,
     EvRequest (file_url u p) :: EvResponse (Some 403%Z) :: EvSleep 60 :: t).
Proof.
  intros Hresp Hrec.
  pose proof (get_file_content_never_raises dec env fuel u (JStr p)
                (advance w 1)) as Hnr.
  rewrite Hrec in Hnr. simpl in Hnr.
  cbn [get_file_content]. unfold try_except, bind at 1, str_add, ret.
  unfold bind at 1, session_get. rewrite Hresp.
  cbn [Z.eqb Pos.eqb]. unfold bind, sleep, emit.
  replace (mkWorld (S (next_request w)) (next_tick w)) with (advance w 1)
    by (unfold advance; f_equal; lia).
  rewrite Hrec.
  destruct o; simpl; try reflexivity. exfalso. eapply Hnr. reflexivity.
Qed.

Ltac fetch_once Hresp :=
  cbn [get_file_content]; unfold try_except, bind at 1, str_add, ret;
  unfold bind at 1, session_get; rewrite Hresp.

(** A 200 with content that decodes: the text is returned. *)
Lemma get_file_content_200 dec env fuel u p w members b text :
  respond env (next_request w) = Reply 200 (Some (JObj members)) ->
  assoc "content" members = Some (JStr b) ->
  dec b = Some text ->
  get_file_content dec env (S fuel) u (JStr p) w =
    (Ok text, advance w 1,
     [EvRequest (file_url u p); EvResponse (Some 200%Z)]).
Proof.
  intros Hresp Hc Hd. fetch_once Hresp.
  cbn [Z.eqb Pos.eqb]. unfold bind, response_json, ret, is_dict_with, getitem.
  rewrite Hc. unfold ret, decode. rewrite Hd. unfold ret, advance. simpl.
  repeat f_equal; lia.
Qed.

(** A terminal failure: empty content after exactly one request. *)
Lemma get_file_content_terminal dec env fuel u p w :
  terminal_failure dec (respond env (next_request w)) ->
  get_file_content dec env (S fuel) u (JStr p) w =
    (Ok "", advance w 1,
     [EvRequest (file_url u p);
      EvResponse (status_of (respond env (next_request w)))]).
Proof.
  intros Hf.
  assert (Hw : mkWorld (S (next_request w)) (next_tick w) = advance w 1)
    by (unfold advance; f_equal; lia).
  inversion Hf as [body E | st body H200 H403 H404 E | E | E
                  | members b Hc Hd E]; symmetry in E; fetch_once E.
  - simpl. rewrite Hw. reflexivity.
  - apply Z.eqb_neq in H200, H403, H404.
    rewrite H404, H403, H200. simpl. rewrite Hw. reflexivity.
  - simpl. rewrite Hw. reflexivity.
  - simpl. rewrite Hw. reflexivity.
  - cbn [Z.eqb Pos.eqb].
    unfold bind, response_json, ret, is_dict_with, getitem.
    rewrite Hc. unfold ret, decode. rewrite Hd. simpl. rewrite Hw.
    reflexivity.
Qed.

(** [n] times 403 and then a 200 that decodes. *)
Lemma get_file_content_retries dec env u p members b text n :
  forall fuel w,
    (forall i, i < n ->
               exists body, respond env (next_request w + i) = Reply 403 body) ->
    respond env (next_request w + n) = Reply 200 (Some (JObj members)) ->
    assoc "content" members = Some (JStr b) ->
    dec b = Some text ->
    n < fuel ->
    get_file_content dec env fuel u (JStr p) w =
      (Ok text, advance w (n + 1), retries n (file_url u p) (Some 200%Z)).
Proof.
  induction n as [|n IH]; intros fuel w H403 H200 Hc Hd Hfuel;
    (destruct fuel as [|fuel]; [lia|]).
  - rewrite Nat.add_0_r in H200.
    exact (get_file_content_200 dec env fuel u p w members b text H200 Hc Hd).
  - destruct (H403 0 ltac:(lia)) as [body Hb]. rewrite Nat.add_0_r in Hb.
    replace (advance w (S n + 1)) with (advance (advance w 1) (n + 1))
      by (unfold advance; simpl; f_equal; lia).
    apply (get_file_content_403 dec env fuel u p w body _ _ _ Hb).
    apply IH; auto; try lia.
    + intros i Hi. destruct (H403 (S i) ltac:(lia)) as [body' Hb'].
      exists body'. simpl. rewrite <- Hb'. f_equal. lia.
    + simpl. rewrite <- H200. f_equal. lia.
Qed.

(** ** One listed entry *)

Lemma process_item_source_file dec env fuel r item nm p acc w text w1 t :
  source_file item nm p ->
  get_file_content dec env fuel (url r) (JStr p) w = (Ok text, w1, t) ->
  process_item dec env fuel r item acc w =
    if String.eqb text ""
    then (Ok acc, w1, t)
    else (Ok (acc ++ [build_doc r nm (JStr p) text (clock env (next_tick w1))]),
          mkWorld (next_request w1) (S (next_tick w1)), t).
Proof.
  intros (members & -> & Hty & Hnm & Hp & Hext) Hfetch.
  unfold process_item, bind at 1, getitem. rewrite Hty. unfold ret at 1.
  cbn [eq_str String.eqb Ascii.eqb Bool.eqb].
  unfold bind at 1. rewrite Hnm. unfold ret at 1.
  unfold bind at 1, json_endswith, ret at 1. rewrite Hext.
  unfold bind at 1. rewrite Hp. unfold ret at 1.
  unfold bind at 1. rewrite Hfetch.
  destruct (String.eqb text ""); simpl; rewrite app_nil_r; reflexivity.
Qed.

Lemma retries_counts n u last :
  count is_request (retries n u last) = n + 1 /\
  cooldown_total (retries n u last) = 60 * n.
Proof.
  unfold count. induction n as [|n [IH1 IH2]]; simpl; [split; reflexivity|].
  unfold retries in IH1, IH2; fold retries in IH1, IH2.
  rewrite IH1, IH2. split; lia.
Qed.

(** ** C3: rate limiting *)

(** On a stack that is deep enough, a fetch answered by [n] times 403 and
    then by a 200 whose content decodes to a non-empty text issues the same
    request [n + 1] times, sleeps 60 seconds after each 403, returns the
    text, and the loop appends one record for the file. *)
Lemma served_after_cooldowns dec env fuel r item nm p acc w n members b text :
  source_file item nm p ->
  (forall i, i < n ->
             exists body, respond env (next_request w + i) = Reply 403 body) ->
  respond env (next_request w + n) = Reply 200 (Some (JObj members)) ->
  assoc "content" members = Some (JStr b) ->
  dec b = Some text ->
  text <> "" ->
  n < fuel ->
  get_file_content dec env fuel (url r) (JStr p) w =
    (Ok text, advance w (n + 1),
     retries n (file_url (url r) p) (Some 200%Z)) /\
  count is_request (retries n (file_url (url r) p) (Some 200%Z)) = n + 1 /\
  cooldown_total (retries n (file_url (url r) p) (Some 200%Z)) = 60 * n /\
  process_item dec env fuel r item acc w =
    (Ok (acc ++ [build_doc r nm (JStr p) text (clock env (next_tick w))]),
     mkWorld (next_request w + (n + 1)) (S (next_tick w)),
     retries n (file_url (url r) p) (Some 200%Z)).
Proof.
  intros Hitem H403 H200 Hc Hd Hne Hfuel.
  pose proof (get_file_content_retries dec env (url r) p members b text n
                fuel w H403 H200 Hc Hd Hfuel) as Hfetch.
  destruct (retries_counts n (file_url (url r) p) (Some 200%Z)) as [Hreq Hcool].
  repeat split; auto.
  rewrite (process_item_source_file dec env fuel r item nm p acc w text _ _
             Hitem Hfetch).
  apply String.eqb_neq in Hne. rewrite Hne. reflexivity.
Qed.

(** The code outside [Stack] is the code on a stack with room for the whole
    run. *)
Lemma stack_deep_enough_fetch dec env u path :
  forall fuel room w,
    fuel <= room ->
    Stack.get_file_content dec env room fuel u path w =
    get_file_content dec env fuel u path w.
Proof.
  induction fuel as [|fuel IH]; intros room w Hroom; [reflexivity|].
  destruct room as [|room]; [lia|].
  cbn [Stack.get_file_content get_file_content].
  apply try_except_same. intros w0.
  apply bind_same; [reflexivity|]. intros api_url w1.
  apply bind_same; [reflexivity|]. intros [status body] w2.
  destruct (status =? 404)%Z; [reflexivity|].
  destruct (status =? 403)%Z; [|reflexivity].
  apply bind_same; [reflexivity|]. intros _ w3. apply IH. lia.
Qed.

Lemma stack_deep_enough dec env room fuel r w :
  fuel <= room ->
  Stack.process_repo dec env room fuel r w = process_repo dec env fuel r w.
Proof.
  intros Hroom.
  assert (Hitem : forall item acc w0,
             Stack.process_item dec env room fuel r item acc w0 =
             process_item dec env fuel r item acc w0).
  { intros item acc w0. unfold Stack.process_item, process_item.
    apply bind_same; [reflexivity|]. intros ty w1.
    destruct (eq_str ty "file"); [|reflexivity].
    apply bind_same; [reflexivity|]. intros nm w2.
    apply bind_same; [reflexivity|]. intros matches w3.
    destruct matches; [|reflexivity].
    apply bind_same; [reflexivity|]. intros path w4.
    apply bind_same; [|reflexivity].
    intros w5. apply stack_deep_enough_fetch. exact Hroom. }
  assert (Hitems : forall items acc w0,
             Stack.process_items dec env room fuel r items acc w0 =
             process_items dec env fuel r items acc w0).
  { induction items as [|item rest IH]; intros acc w0; [reflexivity|].
    cbn [Stack.process_items process_items].
    apply bind_same; [intros w1; apply Hitem | intros a w1; apply IH]. }
  unfold Stack.process_repo, process_repo, try_except, with_semaphore.
  match goal with
  | |- match match ?m' w with _ => _ end with _ => _ end =
       match match ?m w with _ => _ end with _ => _ end =>
      assert (Hbody : m' w = m w)
  end.
  { apply bind_same; [reflexivity|]. intros [status body] w1.
    destruct (negb (status =? 200)%Z); [reflexivity|].
    apply bind_same; [reflexivity|]. intros contents w2.
    apply bind_same; [reflexivity|]. intros items w3. apply Hitems. }
  rewrite Hbody. reflexivity.
Qed.

(** A fetch that is answered by a 403 more often than the stack has room
    for: after [room + 1] requests and cooldowns the nested call cannot be
    entered, and the fetch returns the empty text. *)
Lemma stack_fetch_gives_up dec env u p :
  forall room fuel w,
    room < fuel ->
    (forall i, i <= room ->
               exists body, respond env (next_request w + i) = Reply 403 body) ->
    Stack.get_file_content dec env room fuel u (JStr p) w =
      (Ok "", advance w (room + 1), stalls (room + 1) (file_url u p)).
Proof.
  induction room as [|room IH]; intros fuel w Hfuel H403;
    (destruct fuel as [|fuel]; [lia|]);
    destruct (H403 0 ltac:(lia)) as [body Hresp];
    rewrite Nat.add_0_r in Hresp;
    cbn [Stack.get_file_content]; unfold try_except, bind at 1, str_add, ret;
    unfold bind at 1, session_get; rewrite Hresp;
    cbn [Z.eqb Pos.eqb]; unfold bind, sleep, emit.
  - simpl. f_equal. f_equal. unfold advance. f_equal. lia.
  - replace (mkWorld (S (next_request w)) (next_tick w)) with (advance w 1)
      by (unfold advance; f_equal; lia).
    rewrite (IH fuel (advance w 1)); [| lia |].
    + replace (S room + 1) with (S (room + 1)) by lia.
      f_equal. f_equal. unfold advance. simpl. f_equal. lia.
    + intros i Hi. destruct (H403 (S i) ltac:(lia)) as [body' Hb'].
      exists body'. simpl. rewrite <- Hb'. f_equal. lia.
Qed.

Lemma stack_process_item_source_file
  dec env room fuel r item nm p acc w text w1 t :
  source_file item nm p ->
  Stack.get_file_content dec env room fuel (url r) (JStr p) w
    = (Ok text, w1, t) ->
  Stack.process_item dec env room fuel r item acc w =
    if String.eqb text ""
    then (Ok acc, w1, t)
    else (Ok (acc ++ [build_doc r nm (JStr p) text (clock env (next_tick w1))]),
          mkWorld (next_request w1) (S (next_tick w1)), t).
Proof.
  intros (members & -> & Hty & Hnm & Hp & Hext) Hfetch.
  unfold Stack.process_item, bind at 1, getitem. rewrite Hty. unfold ret at 1.
  cbn [eq_str String.eqb Ascii.eqb Bool.eqb].
  unfold bind at 1. rewrite Hnm. unfold ret at 1.
  unfold bind at 1, json_endswith, ret at 1. rewrite Hext.
  unfold bind at 1. rewrite Hp. unfold ret at 1.
  unfold bind at 1. rewrite Hfetch.
  destruct (String.eqb text ""); simpl; rewrite app_nil_r; reflexivity.
Qed.

(** With room enough for its retries, the fetch on the stack is served as
    on a deep stack. *)
Lemma stack_fetch_served dec env u p members b text n :
  forall room fuel w,
    n <= room ->
    n < fuel ->
    (forall i, i < n ->
               exists body, respond env (next_request w + i) = Reply 403 body) ->
    respond env (next_request w + n) = Reply 200 (Some (JObj members)) ->
    assoc "content" members = Some (JStr b) ->
    dec b = Some text ->
    Stack.get_file_content dec env room fuel u (JStr p) w =
      (Ok text, advance w (n + 1), retries n (file_url u p) (Some 200%Z)).
Proof.
  induction n as [|n IH]; intros room fuel w Hroom Hfuel H403 H200 Hc Hd;
    (destruct fuel as [|fuel]; [lia|]).
  - rewrite Nat.add_0_r in H200.
    cbn [Stack.get_file_content]. unfold try_except, bind at 1, str_add, ret.
    unfold bind at 1, session_get. rewrite H200.
    cbn [Z.eqb Pos.eqb]. unfold bind, response_json, ret, is_dict_with, getitem.
    rewrite Hc. unfold ret, decode. rewrite Hd. unfold ret, advance. simpl.
    repeat f_equal; lia.
  - destruct room as [|room]; [lia|].
    destruct (H403 0 ltac:(lia)) as [body Hresp].
    rewrite Nat.add_0_r in Hresp.
    cbn [Stack.get_file_content]. unfold try_except, bind at 1, str_add, ret.
    unfold bind at 1, session_get. rewrite Hresp.
    cbn [Z.eqb Pos.eqb]. unfold bind, sleep, emit.
    replace (mkWorld (S (next_request w)) (next_tick w)) with (advance w 1)
      by (unfold advance; f_equal; lia).
    rewrite (IH room fuel (advance w 1)); try assumption; try lia.
    + f_equal. f_equal. unfold advance. simpl. f_equal. lia.
    + intros i Hi. destruct (H403 (S i) ltac:(lia)) as [body' Hb'].
      exists body'. simpl. rewrite <- Hb'. f_equal. lia.
    + simpl. rewrite <- H200. f_equal. lia.
Qed.

(** The walk, on the stack, of a listing with one source file. *)
Lemma stack_walk_of_one_file dec env room fuel r item nm p text w1 t :
  source_file item nm p ->
  respond env 0 = Reply 200 (Some (JArr [item])) ->
  Stack.get_file_content dec env room fuel (url r) (JStr p) (advance start 1)
    = (Ok text, w1, t) ->
  Stack.process_repo dec env room fuel r start =
    if String.eqb text ""
    then (Ok [], w1,
          EvAcquire ::
          (EvRequest (contents_url (url r)) :: EvResponse (Some 200%Z) :: t)
          ++ [EvRelease])
    else (Ok [build_doc r nm (JStr p) text (clock env (next_tick w1))],
          mkWorld (next_request w1) (S (next_tick w1)),
          EvAcquire ::
          (EvRequest (contents_url (url r)) :: EvResponse (Some 200%Z) :: t)
          ++ [EvRelease]).
Proof.
  intros Hitem Hlist Hfetch.
  unfold Stack.process_repo, try_except, with_semaphore.
  unfold bind at 1, session_get. simpl next_request. rewrite Hlist.
  cbn [Z.eqb Pos.eqb negb].
  unfold bind at 1, response_json, ret at 1.
  unfold bind at 1, iterate, ret at 1.
  cbn [Stack.process_items]. unfold bind at 1.
  change (mkWorld 1 (next_tick start)) with (advance start 1).
  rewrite (stack_process_item_source_file dec env room fuel r item nm p []
             (advance start 1) text _ _ Hitem Hfetch).
  destruct (String.eqb text ""); unfold ret; simpl; rewrite !app_nil_r;
    reflexivity.
Qed.

(** C3.  The retry is bounded by the stack.  Take a repository whose
    listing holds one source file, the fetch of which is answered by [n]
    times 403 and then by a 200 with content that decodes to a non-empty
    text.  On a stack with room for [n] nested calls the fetch issues the
    same request [n + 1] times, sleeps 60 seconds after each 403, and the
    walk returns exactly one record, holding that text.  On a stack with
    room for fewer, the fetch sleeps [room + 1] times and then gives up: the
    answer with the content is never asked for, and the walk returns
    without a record for the file. *)
Theorem C3_retries_end_with_the_stack
  dec env room fuel r item nm p n members b text :
  source_file item nm p ->
  respond env 0 = Reply 200 (Some (JArr [item])) ->
  (forall i, i < n -> exists body, respond env (1 + i) = Reply 403 body) ->
  respond env (1 + n) = Reply 200 (Some (JObj members)) ->
  assoc "content" members = Some (JStr b) ->
  dec b = Some text ->
  text <> "" ->
  n < fuel ->
  room < fuel ->
  (n <= room ->
   Stack.process_repo dec env room fuel r start =
     (Ok [build_doc r nm (JStr p) text (clock env 0)],
      mkWorld (n + 2) 1,
      EvAcquire ::
      (EvRequest (contents_url (url r)) :: EvResponse (Some 200%Z) ::
       retries n (file_url (url r) p) (Some 200%Z)) ++ [EvRelease]) /\
   content (build_doc r nm (JStr p) text (clock env 0)) = text /\
   file_name (build_doc r nm (JStr p) text (clock env 0)) = nm /\
   cooldown_total (retries n (file_url (url r) p) (Some 200%Z)) = 60 * n) /\
  (room < n ->
   Stack.get_file_content dec env room fuel (url r) (JStr p)
     (advance start 1) =
     (Ok "", advance start (room + 2),
      stalls (room + 1) (file_url (url r) p)) /\
   Stack.process_repo dec env room fuel r start =
     (Ok [], advance start (room + 2),
      EvAcquire ::
      (EvRequest (contents_url (url r)) :: EvResponse (Some 200%Z) ::
       stalls (room + 1) (file_url (url r) p)) ++ [EvRelease]) /\
   cooldown_total (stalls (room + 1) (file_url (url r) p)) = 60 * (room + 1)).
Proof.
  intros Hitem Hlist H403 H200 Hc Hd Hne Hn Hfuel. split.
  - intros Hroom.
    assert (Hfetch :
              Stack.get_file_content dec env room fuel (url r) (JStr p)
                (advance start 1) =
              (Ok text, advance (advance start 1) (n + 1),
               retries n (file_url (url r) p) (Some 200%Z))).
    { apply (stack_fetch_served dec env (url r) p members b text n);
        auto. }
    split; [|split; [reflexivity|split;
                      [reflexivity | exact (proj2 (retries_counts n _ _))]]].
    rewrite (stack_walk_of_one_file dec env room fuel r item nm p text _ _
               Hitem Hlist Hfetch).
    apply String.eqb_neq in Hne. rewrite Hne. simpl.
    replace (n + 1 + 1) with (n + 2) by lia.
    replace (S (n + 1)) with (n + 2) by lia. reflexivity.
  - intros Hroom.
    assert (Hfetch :
              Stack.get_file_content dec env room fuel (url r) (JStr p)
                (advance start 1) =
              (Ok "", advance start (room + 2),
               stalls (room + 1) (file_url (url r) p))).
    { rewrite (stack_fetch_gives_up dec env (url r) p room fuel
                 (advance start 1) Hfuel).
      - unfold advance. simpl. repeat f_equal; lia.
      - intros i Hi. apply (H403 i). lia. }
    split; [exact Hfetch|]. split.
    + rewrite (stack_walk_of_one_file dec env room fuel r item nm p "" _ _
                 Hitem Hlist Hfetch).
      reflexivity.
    + generalize (room + 1). intros k.
      induction k as [|k IH]; simpl; [reflexivity | rewrite IH; lia].
Qed.

Lemma C3_retries_end_with_the_stack_witness :
  respond (Cases.relief 981) 982 = Reply 200 (Sample.file "export {}") /\
  Stack.process_repo Sample.plain (Cases.relief 981) 980 982 Sample.fastapi
    start =
    (Ok [], advance start 982,
     EvAcquire ::
     (EvRequest (contents_url (url Sample.fastapi)) ::
      EvResponse (Some 200%Z) ::
      stalls 981 (file_url (url Sample.fastapi) "app.ts")) ++ [EvRelease]).
Proof.
  split; [reflexivity|].
  refine (proj1 (proj2 (proj2
    (C3_retries_end_with_the_stack Sample.plain (Cases.relief 981) 980 982
       Sample.fastapi (Sample.entry "file" "app.ts") "app.ts" "app.ts" 981
       [("content", JStr "export {}")] "export {}" "export {}"
       _ _ _ _ _ _ _ _ _) _))).
  - eexists. repeat split; reflexivity.
  - reflexivity.
  - intros i Hi. exists None. unfold Cases.relief. simpl respond.
    destruct (Nat.ltb_spec i 981) as [_ | Hge]; [reflexivity | lia].
  - reflexivity.
  - reflexivity.
  - reflexivity.
  - discriminate.
  - lia.
  - lia.
  - lia.
Defined.

(** ** C7: terminal failures of a fetch *)

(** C7.  A file fetch answered by a 404, by a status other than 200, 403
    and 404, by a transport failure, or by a body or content that does not
    decode, returns the empty text after that single request, without a
    cooldown and without raising; the walk appends no record for the file
    and goes on with the remaining entries. *)
Theorem C7_terminal_failure_is_skipped dec env fuel r item nm p acc rest w :
  source_file item nm p ->
  terminal_failure dec (respond env (next_request w)) ->
  get_file_content dec env (S fuel) (url r) (JStr p) w =
    (Ok "", advance w 1,
     [EvRequest (file_url (url r) p);
      EvResponse (status_of (respond env (next_request w)))]) /\
  process_item dec env (S fuel) r item acc w =
    (Ok acc, advance w 1,
     [EvRequest (file_url (url r) p);
      EvResponse (status_of (respond env (next_request w)))]) /\
  process_items dec env (S fuel) r (item :: rest) acc w =
    (let '(o, w', t) :=
       process_items dec env (S fuel) r rest acc (advance w 1) in
     (o, w',
      [EvRequest (file_url (url r) p);
       EvResponse (status_of (respond env (next_request w)))] ++ t)).
Proof.
  intros Hitem Hfail.
  pose proof (get_file_content_terminal dec env fuel (url r) p w Hfail)
    as Hfetch.
  pose proof (process_item_source_file dec env (S fuel) r item nm p acc w
                "" _ _ Hitem Hfetch) as Hitem'.
  cbn [String.eqb] in Hitem'.
  split; [exact Hfetch|]. split; [exact Hitem'|].
  cbn [process_items]. unfold bind at 1. rewrite Hitem'.
  destruct (process_items dec env (S fuel) r rest acc (advance w 1))
    as [[o w'] t].
  reflexivity.
Qed.

Lemma C7_terminal_failure_is_skipped_witness :
  process_items Sample.plain Sample.api 2 Sample.fastapi
    [Sample.entry "file" "setup.py"] [] (mkWorld 1 0) =
    (Ok [], mkWorld 2 0,
     [EvRequest (file_url (url Sample.fastapi) "setup.py");
      EvResponse (Some 404%Z)]).
Proof.
  refine (proj2 (proj2
    (C7_terminal_failure_is_skipped Sample.plain Sample.api 1 Sample.fastapi
       (Sample.entry "file" "setup.py") "setup.py" "setup.py" [] []
       (mkWorld 1 0) _ _))).
  - eexists. repeat split; reflexivity.
  - simpl. apply tf_not_found.
Defined.

(** ** Strings: suffixes and the last dot-separated part *)

Lemma endswith_mem_char c suf s :
  Py.endswith s suf = true -> mem_char c suf = true -> mem_char c s = true.
Proof.
  intros He Hm. induction s as [|a s IH]; cbn [Py.endswith] in He.
  - rewrite orb_false_r in He. apply String.eqb_eq in He. rewrite He.
    exact Hm.
  - apply orb_prop in He. destruct He as [He | He].
    + apply String.eqb_eq in He. rewrite He. exact Hm.
    + simpl. rewrite (IH He). apply orb_true_r.
Qed.

Lemma endswith_any_mem_char c sufs s :
  Forall (fun suf => mem_char c suf = true) sufs ->
  Py.endswith_any s sufs = true -> mem_char c s = true.
Proof.
  unfold Py.endswith_any. intros Hall He.
  apply existsb_exists in He. destruct He as (suf & Hin & He).
  rewrite Forall_forall in Hall.
  exact (endswith_mem_char c suf s He (Hall suf Hin)).
Qed.

Lemma split_not_nil sep s : Py.split sep s <> [].
Proof.
  destruct s as [|c s]; simpl; [discriminate|].
  destruct (Ascii.eqb c sep); [discriminate|].
  destruct (Py.split sep s); discriminate.
Qed.

Lemma split_parts_no_sep sep s :
  Forall (fun part => mem_char sep part = false) (Py.split sep s).
Proof.
  induction s as [|c s IH]; simpl.
  - constructor; [reflexivity | constructor].
  - destruct (Ascii.eqb c sep) eqn:Hc.
    + constructor; [reflexivity | exact IH].
    + destruct (Py.split sep s) as [|h t]; [repeat constructor; simpl; rewrite Hc; reflexivity|].
      inversion IH as [|? ? Hh Ht]; subst.
      constructor; [simpl; rewrite Hc, Hh; reflexivity | exact Ht].
Qed.

(** Every name is its parts put together again with the separator. *)
Lemma split_last_decomposes sep s :
  exists init,
    Py.split sep s = init ++ [Py.last_item (Py.split sep s)] /\
    (init = [] -> s = Py.last_item (Py.split sep s)) /\
    (init <> [] ->
     exists stem,
       s = (stem ++ String sep (Py.last_item (Py.split sep s)))%string).
Proof.
  unfold Py.last_item.
  induction s as [|c s (init & Hsplit & Hnil & Hcons)]; simpl.
  - exists []. repeat split; auto. intros H; contradiction.
  - destruct (Ascii.eqb c sep) eqn:Hc.
    + apply Ascii.eqb_eq in Hc. subst c.
      exists ("" :: init).
      assert (Hlast : last ("" :: Py.split sep s) "" = last (Py.split sep s) "").
      { pose proof (split_not_nil sep s).
        simpl. destruct (Py.split sep s); [contradiction | reflexivity]. }
      rewrite Hlast. split; [simpl; f_equal; exact Hsplit|].
      split; [discriminate|]. intros _.
      destruct init as [|i0 init'].
      * exists "". simpl. f_equal. apply Hnil. reflexivity.
      * destruct Hcons as [stem Hstem]; [discriminate|].
        exists (String sep stem). simpl. f_equal. exact Hstem.
    + destruct (Py.split sep s) as [|h t] eqn:Hs;
        [exfalso; exact (split_not_nil sep s Hs)|].
      destruct init as [|i0 init'].
      * simpl in Hsplit. injection Hsplit as Hh Ht. subst t.
        exists []. simpl. split; [reflexivity|].
        split; [|intros H; contradiction].
        intros _. f_equal. exact (Hnil eq_refl).
      * simpl in Hsplit. injection Hsplit as Hh Ht. subst i0.
        destruct Hcons as [stem Hstem]; [discriminate|].
        assert (Hlast : last (String c h :: t) "" = last (h :: t) "").
        { rewrite Ht. destruct init'; reflexivity. }
        rewrite Hlast.
        exists (String c h :: init'). split; [simpl; f_equal; exact Ht|].
        split; [discriminate|]. intros _.
        exists (String c stem). simpl. f_equal. exact Hstem.
Qed.

Lemma mem_char_app c a b :
  mem_char c (a ++ b)%string = mem_char c a || mem_char c b.
Proof.
  induction a as [|x a IH]; simpl; [reflexivity|].
  rewrite IH. apply orb_assoc.
Qed.

(** The extension of a name with a dot: what follows its last dot. *)
Lemma extension_spec nm :
  mem_char "." nm = true ->
  mem_char "." (Py.last_item (Py.split "." nm)) = false /\
  exists stem,
    nm = (stem ++ "." ++ Py.last_item (Py.split "." nm))%string.
Proof.
  intros Hdot.
  destruct (split_last_decomposes "."%char nm) as (init & Hsplit & Hnil & Hcons).
  pose proof (split_parts_no_sep "."%char nm) as Hparts.
  rewrite Hsplit in Hparts at 1.
  apply Forall_app in Hparts. destruct Hparts as [_ Hlast].
  inversion Hlast as [|? ? He _]; subst.
  split; [exact He|].
  destruct init as [|i0 init'].
  - rewrite <- (Hnil eq_refl) in He. congruence.
  - destruct Hcons as [stem Hstem]; [discriminate|].
    exists stem. exact Hstem.
Qed.

(** ** What a walk records *)

Lemma get_file_content_needs_str dec env fuel u path w text w' t :
  get_file_content dec env fuel u path w = (Ok text, w', t) ->
  text <> "" -> exists p, path = JStr p.
Proof.
  intros H Hne. destruct path; eauto;
    (destruct fuel as [|fuel]; simpl in H; [discriminate|]);
    unfold try_except, bind, str_add, raise in H; simpl in H;
    injection H as <- _ _; contradiction.
Qed.

Lemma process_item_inv dec env fuel r item acc w acc' w' t :
  process_item dec env fuel r item acc w = (Ok acc', w', t) ->
  acc' = acc \/
  exists nm p text stamp,
    source_file item nm p /\ text <> "" /\
    acc' = acc ++ [build_doc r nm (JStr p) text stamp].
Proof.
  unfold process_item. intros H.
  destruct item as [| | | |items|members];
    try (unfold bind, getitem, raise in H; simpl in H; discriminate).
  unfold bind at 1, getitem at 1 in H.
  destruct (assoc "type" members) as [ty|] eqn:Hty;
    [|simpl in H; discriminate].
  unfold ret at 1 in H.
  destruct (eq_str ty "file") eqn:Hfile;
    [|unfold ret in H; injection H as <- _ _; left; reflexivity].
  destruct ty; try discriminate. simpl in Hfile.
  apply String.eqb_eq in Hfile. subst s.
  unfold bind at 1, getitem at 1 in H.
  destruct (assoc "name" members) as [nmj|] eqn:Hnm;
    [|simpl in H; discriminate].
  unfold ret at 1 in H.
  destruct nmj as [| | |nm| |];
    try (unfold bind, json_endswith, raise in H; simpl in H; discriminate).
  unfold bind at 1, json_endswith, ret at 1 in H.
  destruct (Py.endswith_any nm EXTENSIONS) eqn:Hext;
    [|unfold ret in H; injection H as <- _ _; left; reflexivity].
  unfold bind at 1, getitem at 1 in H.
  destruct (assoc "path" members) as [path|] eqn:Hpath;
    [|simpl in H; discriminate].
  unfold ret at 1 in H. unfold bind at 1 in H.
  destruct (get_file_content dec env fuel (url r) path w)
    as [[o w1] t1] eqn:Hfetch.
  destruct o as [text| |]; try discriminate.
  destruct (String.eqb text "") eqn:Htext; simpl in H.
  - unfold ret in H. injection H as <- _ _. left. reflexivity.
  - apply String.eqb_neq in Htext.
    destruct (get_file_content_needs_str _ _ _ _ _ _ _ _ _ Hfetch Htext)
      as [p ->].
    unfold bind, getitem, now, ret in H. rewrite Hpath in H. simpl in H.
    injection H as <- _ _. right.
    exists nm, p, text, (clock env (next_tick w1)).
    split; [|split; [exact Htext | reflexivity]].
    exists members. repeat split; assumption.
Qed.

Lemma build_doc_ok r nm p text stamp items item :
  In item items -> source_file item nm p -> text <> "" ->
  record_ok items (build_doc r nm (JStr p) text stamp).
Proof.
  intros Hin Hsrc Hne.
  assert (Hdot : mem_char "." nm = true).
  { destruct Hsrc as (members & _ & _ & _ & _ & Hext).
    apply (endswith_any_mem_char "."%char EXTENSIONS nm); [|exact Hext].
    repeat constructor. }
  destruct (extension_spec nm Hdot) as [Hnodot Hstem].
  unfold record_ok. simpl.
  repeat split; auto.
  exists item, p. repeat split; auto.
Qed.

Lemma process_items_records dec env fuel r items :
  forall seen acc w acc' w' t,
    process_items dec env fuel r items acc w = (Ok acc', w', t) ->
    Forall (record_ok (seen ++ items)) acc ->
    Forall (record_ok (seen ++ items)) acc'.
Proof.
  induction items as [|item rest IH]; intros seen acc w acc' w' t H Hacc.
  - simpl in H. injection H as <- _ _. exact Hacc.
  - cbn [process_items] in H. unfold bind at 1 in H.
    destruct (process_item dec env fuel r item acc w) as [[o w1] t1] eqn:Hit.
    destruct o as [acc1| |]; try discriminate.
    destruct (process_items dec env fuel r rest acc1 w1) as [[o2 w2] t2] eqn:Hr.
    injection H as -> _ _.
    replace (seen ++ item :: rest) with ((seen ++ [item]) ++ rest) in *
      by (rewrite <- app_assoc; reflexivity).
    apply (IH (seen ++ [item]) acc1 w1 acc' w2 t2 Hr).
    destruct (process_item_inv _ _ _ _ _ _ _ _ _ _ Hit)
      as [-> | (nm & p & text & stamp & Hsrc & Hne & ->)]; [exact Hacc|].
    apply Forall_app. split; [exact Hacc|].
    constructor; [|constructor].
    apply (build_doc_ok r nm p text stamp _ item); auto.
    apply in_or_app. left. apply in_or_app. right. left. reflexivity.
Qed.

Lemma record_ok_needs_object items d :
  record_ok items d -> exists item members, In item items /\ item = JObj members.
Proof.
  intros (_ & _ & _ & _ & item & p & Hin & (members & -> & _) & _).
  eauto.
Qed.

(** ** C6: the records of a walk *)

(** C6.  Every record a walk returns has non-empty content, a size equal to
    the length of that content, and as extension the part of the file name
    after its last dot; it was built for an entry of the listing of kind
    file whose name ends in one of .js, .ts, .py, .java, .rs, .go, .cpp,
    and it carries the name and path of that entry. *)
Theorem C6_records_are_well_formed dec env fuel r w docs w' t d :
  process_repo dec env fuel r w = (Ok docs, w', t) ->
  In d docs ->
  exists items,
    respond env (next_request w) = Reply 200 (Some (JArr items)) /\
    record_ok items d /\
    EXTENSIONS = [".js"; ".ts"; ".py"; ".java"; ".rs"; ".go"; ".cpp"].
Proof.
  unfold process_repo, try_except, with_semaphore. intros H Hd.
  unfold bind at 1, session_get in H.
  destruct (respond env (next_request w)) as [|status body] eqn:Hresp.
  - simpl in H. injection H as <- _ _. contradiction.
  - destruct (negb (status =? 200)%Z) eqn:Hst.
    + simpl in H. injection H as <- _ _. contradiction.
    + apply negb_false_iff, Z.eqb_eq in Hst. subst status.
      destruct body as [contents|];
        [|simpl in H; injection H as <- _ _; contradiction].
      unfold response_json, bind at 1, ret at 1 in H.
      unfold bind at 1 in H.
      assert (Hloop : forall items,
                 iterate contents = ret items ->
                 Forall (record_ok items) docs).
      { intros items Hi. rewrite Hi in H. unfold ret at 1 in H.
        destruct (process_items dec env fuel r items []
                    (mkWorld (S (next_request w)) (next_tick w)))
          as [[o w1] t1] eqn:Hp.
        destruct o as [acc| |]; simpl in H.
        - injection H as <- _ _.
          apply (process_items_records dec env fuel r items [] [] _ _ _ _ Hp).
          constructor.
        - injection H as <- _ _. constructor.
        - discriminate. }
      destruct contents as [| | |s|items|members];
        try (simpl in H; injection H as <- _ _; contradiction).
      * specialize (Hloop _ eq_refl). rewrite Forall_forall in Hloop.
        destruct (record_ok_needs_object _ _ (Hloop d Hd))
          as (item & members & Hin & ->).
        unfold chars in Hin. apply in_map_iff in Hin.
        destruct Hin as (c & Hc & _). discriminate.
      * specialize (Hloop _ eq_refl). rewrite Forall_forall in Hloop.
        exists items. split; [reflexivity|]. split; [|reflexivity].
        exact (Hloop d Hd).
      * specialize (Hloop _ eq_refl). rewrite Forall_forall in Hloop.
        destruct (record_ok_needs_object _ _ (Hloop d Hd))
          as (item & members' & Hin & ->).
        apply in_map_iff in Hin. destruct Hin as (c & Hc & _). discriminate.
Qed.

Lemma C6_records_are_well_formed_witness :
  exists items,
    respond Sample.api 0 = Reply 200 (Some (JArr items)) /\
    record_ok items
      (build_doc Sample.fastapi "app.ts" (JStr "app.ts") "export {}" 0%Z) /\
    EXTENSIONS = [".js"; ".ts"; ".py"; ".java"; ".rs"; ".go"; ".cpp"].
Proof.
  refine (C6_records_are_well_formed Sample.plain Sample.api 3 Sample.fastapi
            start _ _ _ _ _ _).
  - reflexivity.
  - left. reflexivity.
Defined.

(** ** The join of the walks *)

Lemma walk_result_never_raises dec env fuel r e :
  walk_result dec env fuel r <> Raise e.
Proof.
  unfold walk_result.
  destruct (process_repo_shape dec env fuel r start)
    as (body & _ & [(docs & w' & E) | (w' & E)]); rewrite E; discriminate.
Qed.

Lemma walk_result_failed_listing dec env fuel r :
  listing_failure (respond env 0) -> walk_result dec env fuel r = Ok [].
Proof.
  unfold walk_result, process_repo, try_except, with_semaphore.
  unfold bind at 1, session_get. simpl next_request.
  intros Hf. inversion Hf as [E | st body Hst E | E]; simpl.
  - reflexivity.
  - apply Z.eqb_neq in Hst. rewrite Hst. reflexivity.
  - reflexivity.
Qed.

Lemma nth_error_indexed {A B} (f : nat * A -> B) (l : list A) :
  forall k j,
    nth_error (map f (combine (seq k (length l)) l)) j =
    option_map (fun a => f (k + j, a)) (nth_error l j).
Proof.
  induction l as [|a l IH]; intros k j; simpl.
  - destruct j; reflexivity.
  - destruct j as [|j]; simpl.
    + rewrite Nat.add_0_r. reflexivity.
    + rewrite IH. replace (S k + j) with (k + S j) by lia. reflexivity.
Qed.

Lemma walks_nth dec net fuel repos j :
  nth_error (walks dec net fuel repos) j =
  option_map (walk_result dec (net j) fuel) (nth_error repos j).
Proof.
  unfold walks. rewrite nth_error_indexed. reflexivity.
Qed.

Lemma walks_never_raise dec net fuel repos :
  Forall (fun o : outcome (list document) => forall e, o <> Raise e)
    (walks dec net fuel repos).
Proof.
  unfold walks. apply Forall_map. apply Forall_forall.
  intros ir _ e. apply walk_result_never_raises.
Qed.

Section Gather.

Context {A : Type}.

Lemma gather_never_raises (ts : list (outcome A)) e :
  quiet ts -> gather ts <> Raise e.
Proof.
  intros Hq. revert e.
  induction Hq as [|o l Ho _ IH]; intros e; simpl; [discriminate|].
  destruct o as [a|e'|]; [| exfalso; exact (Ho e' eq_refl) |];
    destruct (gather l) as [rs|e'|]; try discriminate;
    exfalso; exact (IH e' eq_refl).
Qed.

Lemma gather_returns (ts : list (outcome A)) results :
  quiet ts -> gather ts = Ok results <-> ts = map Ok results.
Proof.
  intros Hq. revert results.
  induction Hq as [|o l Ho Hl IH]; intros results; simpl.
  - split; intros H.
    + injection H as <-. reflexivity.
    + destruct results; [reflexivity | discriminate].
  - pose proof (fun e => gather_never_raises l e Hl) as Hnr.
    destruct o as [a|e'|]; [| exfalso; exact (Ho e' eq_refl) |];
      destruct (gather l) as [rs|e'|] eqn:Hg;
      try (exfalso; exact (Hnr e' eq_refl)).
    + split; intros H.
      * injection H as <-. simpl. f_equal. apply IH. reflexivity.
      * destruct results as [|b results]; [discriminate|].
        injection H as -> H. apply IH in H. congruence.
    + split; [discriminate|]. intros H.
      destruct results as [|b results]; [discriminate|].
      injection H as _ H. apply IH in H. discriminate.
    + split; [discriminate|]. intros H. destruct results; discriminate.
    + split; [discriminate|]. intros H. destruct results; discriminate.
Qed.

Lemma gather_waits (ts : list (outcome A)) :
  quiet ts -> gather ts = Unfinished <-> In Unfinished ts.
Proof.
  intros Hq.
  induction Hq as [|o l Ho Hl IH]; simpl.
  - split; [discriminate | contradiction].
  - pose proof (fun e => gather_never_raises l e Hl) as Hnr.
    destruct o as [a|e'|]; [| exfalso; exact (Ho e' eq_refl) |];
      destruct (gather l) as [rs|e'|] eqn:Hg;
      try (exfalso; exact (Hnr e' eq_refl)).
    + split; [discriminate|]. intros [H|H]; [discriminate|].
      apply IH in H. discriminate.
    + split; [|reflexivity]. intros _. right. apply IH. reflexivity.
    + split; auto.
    + split; auto.
Qed.

End Gather.

(** ** Batching *)

Lemma range_from_above fuel i n step : n <= i -> Py.range_from fuel i n step = [].
Proof.
  intros H. destruct fuel; simpl; [reflexivity|].
  destruct (Nat.ltb_spec i n); [lia | reflexivity].
Qed.

Lemma ceil_step m : 1 <= m -> S ((m - 100 + 99) / 100) = (m + 99) / 100.
Proof.
  intros Hm. destruct (Nat.le_gt_cases 100 m) as [Hge | Hlt].
  - replace (m + 99) with ((m - 100 + 99) + 1 * 100) by lia.
    rewrite Nat.div_add by lia. lia.
  - replace (m - 100 + 99) with 99 by lia.
    replace (m + 99) with ((m - 1) + 1 * 100) by lia.
    rewrite Nat.div_add by lia.
    rewrite (Nat.div_small 99 100), (Nat.div_small (m - 1) 100) by lia.
    reflexivity.
Qed.

Section Slices.

Context {A : Type}.
Variable l : list A.

Lemma slices_cover fuel :
  forall i,
    length l - i <= fuel ->
    concat (map (fun k => Py.slice l k (k + 100))
              (Py.range_from fuel i (length l) 100)) = skipn i l /\
    Forall (fun b => 1 <= length b <= 100)
           (map (fun k => Py.slice l k (k + 100))
              (Py.range_from fuel i (length l) 100)) /\
    length (map (fun k => Py.slice l k (k + 100))
              (Py.range_from fuel i (length l) 100)) =
      (length l - i + 99) / 100.
Proof.
  induction fuel as [|fuel IH]; intros i Hfuel.
  - simpl. rewrite skipn_all2 by lia.
    replace (length l - i) with 0 by lia. repeat split; constructor.
  - simpl. destruct (Nat.ltb_spec i (length l)) as [Hlt | Hge].
    + destruct (IH (i + 100) ltac:(lia)) as (Hcat & Hall & Hlen).
      assert (Hcut : Py.slice l i (i + 100) = firstn 100 (skipn i l)).
      { unfold Py.slice. f_equal. lia. }
      simpl. rewrite Hcat, Hlen, Hcut.
      split; [|split].
      * replace (i + 100) with (100 + i) by lia.
        rewrite <- skipn_skipn. apply firstn_skipn.
      * constructor; [|exact Hall].
        rewrite length_firstn, length_skipn. lia.
      * replace (length l - (i + 100)) with (length l - i - 100) by lia.
        apply ceil_step. lia.
    + simpl. rewrite skipn_all2 by lia.
      replace (length l - i) with 0 by lia. repeat split; constructor.
Qed.

Lemma slice_sizes starts :
  map (@length A) (map (fun k => Py.slice l k (k + 100)) starts) =
  map (fun i => Nat.min 100 (length l - i)) starts.
Proof.
  rewrite map_map. apply map_ext. intros i. unfold Py.slice.
  rewrite length_firstn, length_skipn. f_equal. lia.
Qed.

End Slices.

Lemma batches_spec (l : list document) :
  concat (batches l) = l /\
  Forall (fun b => 1 <= length b <= 100) (batches l) /\
  length (batches l) = (length l + 99) / 100.
Proof.
  unfold batches, Py.range, batch_size.
  destruct (slices_cover l (length l - 0) 0 ltac:(lia)) as (Hcat & Hall & Hlen).
  rewrite Nat.sub_0_r in *. simpl skipn in Hcat.
  repeat split; assumption.
Qed.

(** The insertion loops submit the batches one after the other. *)
Lemma insert_batches_submit db (l : list document) starts s :
  Forall (fun i => i < length l) starts ->
  insert_batches db l starts s =
  submit db (map (fun i => Py.slice l i (i + batch_size)) starts) s.
Proof.
  intros Hall. revert s. induction Hall as [|i rest Hi _ IH]; intros s; simpl.
  - reflexivity.
  - assert (Hne : nonempty (Py.slice l i (i + batch_size)) = true).
    { unfold Py.slice, batch_size. replace (i + 100 - i) with 100 by lia.
      destruct (skipn i l) eqn:Hs; [|reflexivity].
      pose proof (length_skipn i l) as Hlen. rewrite Hs in Hlen. simpl in Hlen.
      lia. }
    rewrite Hne. unfold sbind.
    destruct (insert_many db _ s) as [[| |] s1]; auto.
Qed.

Lemma range_from_below fuel i n step :
  Forall (fun k => k < n) (Py.range_from fuel i n step).
Proof.
  revert i. induction fuel as [|fuel IH]; intros i; simpl; [constructor|].
  destruct (Nat.ltb_spec i n); constructor; auto.
Qed.

Lemma insert_repo_submit db (l : list document) s :
  insert_repo db l s = submit db (batches l) s.
Proof.
  unfold insert_repo, batches. destruct l as [|d l]; [reflexivity|].
  cbn [nonempty]. apply insert_batches_submit. apply range_from_below.
Qed.

Lemma submit_app db bs1 bs2 s :
  submit db (bs1 ++ bs2) s = (submit db bs1 >> submit db bs2) s.
Proof.
  revert s. induction bs1 as [|b bs1 IH]; intros s; simpl.
  - reflexivity.
  - unfold sbind. destruct (insert_many db b s) as [[| |] s1]; auto.
Qed.

Lemma insert_results_submit db results s :
  insert_results db results s = submit db (all_batches results) s.
Proof.
  unfold all_batches. revert s.
  induction results as [|l results IH]; intros s; simpl; [reflexivity|].
  rewrite submit_app. unfold sbind. rewrite insert_repo_submit.
  destruct (submit db (batches l) s) as [[| |] s1]; auto.
Qed.

Lemma submit_healthy db bs :
  (forall k, insert_fault db k = None) ->
  forall s,
    submit db bs s =
    (Ok tt, mkSink (connected s) (indexes s) (collection s ++ concat bs)
              (submitted s ++ bs)).
Proof.
  intros Hok. induction bs as [|b bs IH]; intros s; simpl.
  - rewrite !app_nil_r. destruct s; reflexivity.
  - unfold sbind, insert_many. rewrite Hok. rewrite IH. simpl.
    rewrite <- !app_assoc. reflexivity.
Qed.

(** The first fault ends the submission; the faulty batch is the last one
    submitted. *)
Lemma submit_fault db landed :
  forall j bs s,
    j < length bs ->
    (forall i, i < j -> insert_fault db (length (submitted s) + i) = None) ->
    insert_fault db (length (submitted s) + j) = Some landed ->
    submit db bs s =
    (Raise SinkError,
     mkSink (connected s) (indexes s)
       (collection s ++ concat (firstn j bs) ++ firstn landed (nth j bs []))
       (submitted s ++ firstn (S j) bs)).
Proof.
  induction j as [|j IH]; intros bs s Hj Hbefore Hfault;
    (destruct bs as [|b bs]; [simpl in Hj; lia|]).
  - rewrite Nat.add_0_r in Hfault. simpl. unfold sbind, insert_many.
    rewrite Hfault. reflexivity.
  - cbn [submit]. unfold sbind. unfold insert_many at 1.
    pose proof (Hbefore 0 ltac:(lia)) as H0. rewrite Nat.add_0_r in H0.
    rewrite H0.
    rewrite (IH bs); simpl in *.
    + rewrite <- !app_assoc. reflexivity.
    + lia.
    + intros i Hi. rewrite length_app. simpl.
      replace (length (submitted s) + 1 + i)
        with (length (submitted s) + S i) by lia.
      apply Hbefore. lia.
    + rewrite length_app. simpl.
      replace (length (submitted s) + 1 + j)
        with (length (submitted s) + S j) by lia.
      exact Hfault.
Qed.

(** With a store that accepts every insert, the records of one repository
    are submitted as the batches cut by the loop: [ceil(n / 100)] of them,
    each with between 1 and 100 records, which taken together are the
    records in their order. *)
Lemma insert_repo_batches db (repo_contents : list document) s :
  (forall k, insert_fault db k = None) ->
  insert_repo db repo_contents s =
    (Ok tt, mkSink (connected s) (indexes s) (collection s ++ repo_contents)
              (submitted s ++ batches repo_contents)) /\
  length (batches repo_contents) = (length repo_contents + 99) / 100 /\
  Forall (fun b => 1 <= length b <= 100) (batches repo_contents) /\
  concat (batches repo_contents) = repo_contents /\
  (length repo_contents = 250 ->
   map (@length document) (batches repo_contents) = [100; 100; 50]).
Proof.
  intros Hok.
  destruct (batches_spec repo_contents) as (Hcat & Hall & Hlen).
  split; [|split; [|split; [|split]]]; auto.
  - rewrite insert_repo_submit, (submit_healthy db _ Hok), Hcat. reflexivity.
  - intros H250. unfold batches, batch_size.
    rewrite (slice_sizes repo_contents), H250. reflexivity.
Qed.

(** ** The run as a whole *)

Lemma create_indexes_frame db specs :
  forall k s,
    let '(o, s') := create_indexes db k specs s in
    connected s' = connected s /\ collection s' = collection s /\
    submitted s' = submitted s /\ o <> Unfinished /\
    ((forall i, index_fault db i = false) -> o = Ok tt).
Proof.
  induction specs as [|spec specs IH]; intros k s; simpl.
  - repeat split; auto. discriminate.
  - unfold sbind, create_index.
    destruct (index_fault db k) eqn:Hk.
    + repeat split; auto; try discriminate.
      intros Hok. rewrite Hok in Hk. discriminate.
    + destruct (existsb (index_eqb spec) (indexes s)).
      * apply IH.
      * specialize (IH (S k) (mkSink (connected s) (indexes s ++ [spec])
                                (collection s) (submitted s))).
        destruct (create_indexes db (S k) specs _) as [o s'].
        exact IH.
Qed.

Lemma main_closes dec net db fuel catalog s o s' :
  connected s = false ->
  main dec net db fuel catalog s = (o, s') ->
  o <> Unfinished ->
  connected s' = false.
Proof.
  unfold main, MongoClient. intros Hs Hm Ho.
  destruct (connect_fault db).
  - injection Hm as <- <-. exact Hs.
  - destruct (main_body dec net db fuel catalog _) as [[u|e|] s2];
      injection Hm as <- <-; [reflexivity | reflexivity | congruence].
Qed.

(** ** C8: a failed insert *)

(** C8.  When an [insert_many] call raises, [main] raises the same error:
    the batches before the failed one and the failed one have been
    submitted, each once, and no batch after it; the process ends with a
    non-zero status and the client is closed.  Indeed the client is closed
    however [main] ends, for every store and every catalog. *)
Theorem C8_failed_insert_aborts dec net db fuel catalog s results j landed :
  connect_fault db = false ->
  (forall k, index_fault db k = false) ->
  gather (walks dec net fuel (all_repos catalog)) = Ok results ->
  j < length (all_batches results) ->
  (forall i, i < j -> insert_fault db (length (submitted s) + i) = None) ->
  insert_fault db (length (submitted s) + j) = Some landed ->
  (exists s',
     main dec net db fuel catalog s = (Raise SinkError, s') /\
     submitted s' = submitted s ++ firstn (S j) (all_batches results) /\
     collection s' =
       collection s ++ concat (firstn j (all_batches results)) ++
       firstn landed (nth j (all_batches results) []) /\
     connected s' = false) /\
  exit_status (@Raise unit SinkError) = Some 1%Z /\
  (forall db' s0 o s1,
     connected s0 = false ->
     main dec net db' fuel catalog s0 = (o, s1) ->
     o <> Unfinished ->
     connected s1 = false).
Proof.
  intros Hconn Hidx Hgather Hj Hbefore Hfault.
  split; [|split; [reflexivity|]].
  - unfold main, MongoClient. rewrite Hconn.
    unfold main_body, sbind at 1.
    pose proof (create_indexes_frame db INDEXES 0
                  (mkSink true (indexes s) (collection s) (submitted s)))
      as Hframe.
    destruct (create_indexes db 0 INDEXES _) as [o s2].
    destruct Hframe as (Hc & Hcol & Hsub & _ & Hok). simpl in Hc, Hcol, Hsub.
    rewrite (Hok Hidx). unfold sbind, lift. rewrite Hgather.
    rewrite insert_results_submit.
    rewrite (submit_fault db landed j (all_batches results) s2 Hj);
      [| rewrite Hsub; exact Hbefore | rewrite Hsub; exact Hfault].
    eexists. split; [reflexivity|]. simpl.
    rewrite Hcol, Hsub. repeat split; reflexivity.
  - intros db' s0 o s1. apply main_closes.
Qed.

Lemma C8_failed_insert_aborts_witness :
  exists s',
    main Sample.plain (fun _ => Sample.api) Sample.failing 3 Sample.three
      Sample.fresh = (Raise SinkError, s') /\
    length (submitted s') = 2 /\
    length (all_batches Sample.harvest) = 3 /\
    connected s' = false.
Proof.
  destruct (proj1 (C8_failed_insert_aborts Sample.plain (fun _ => Sample.api)
              Sample.failing 3 Sample.three Sample.fresh Sample.harvest 1 0
              eq_refl (fun _ => eq_refl) eq_refl
              ltac:(vm_compute; lia)
              ltac:(intros i Hi; destruct i; [reflexivity | lia])
              eq_refl))
    as (s' & Hmain & Hsub & _ & Hclosed).
  exists s'. split; [exact Hmain|]. split; [|split; [reflexivity | exact Hclosed]].
  rewrite Hsub. reflexivity.
Defined.

(** ** Unchanged responses give the same records *)

Lemma similar_refl a : similar a a.
Proof. destruct a as [[[x|e|] w] t]; repeat split; reflexivity. Qed.

Lemma similar_bind {A} (m m' : M A) (f f' : A -> M (list document)) w :
  (forall w0, m' w0 = m w0) ->
  (forall a w0, similar (f' a w0) (f a w0)) ->
  similar (bind m' f' w) (bind m f w).
Proof.
  intros Hm Hf. unfold bind. rewrite Hm.
  destruct (m w) as [[[a|e|] w1] t1]; try apply similar_refl.
  specialize (Hf a w1).
  destruct (f' a w1) as [[o' w2'] t2'], (f a w1) as [[o w2] t2].
  destruct Hf as (Ht & Hw & Ho). simpl in Ht, Hw, Ho. subst t2' w2'.
  repeat split; auto.
Qed.

Lemma similar_bind_records (m m' : M (list document))
  (f f' : list document -> M (list document)) w :
  similar (m' w) (m w) ->
  (forall a a' w0,
     map unstamped a' = map unstamped a -> similar (f' a' w0) (f a w0)) ->
  similar (bind m' f' w) (bind m f w).
Proof.
  intros Hm Hf. unfold bind.
  destruct (m' w) as [[o' w1'] t1'], (m w) as [[o w1] t1].
  destruct Hm as (Ht & Hw & Ho). simpl in Ht, Hw, Ho. subst t1' w1'.
  destruct o' as [a'|e'|], o as [a|e|]; try contradiction;
    try (repeat split; auto; fail).
  specialize (Hf a a' w1 Ho).
  destruct (f' a' w1) as [[o2' w2'] t2'], (f a w1) as [[o2 w2] t2].
  destruct Hf as (Ht & Hw & Ho2). simpl in Ht, Hw, Ho2. subst t2' w2'.
  repeat split; auto.
Qed.

Lemma similar_ret acc acc' w :
  map unstamped acc' = map unstamped acc -> similar (ret acc' w) (ret acc w).
Proof. intros H. repeat split; auto. Qed.

Section SameResponses.

Variable dec : string -> option string.
Variables env env' : remote.
Hypothesis same : same_responses env env'.

Lemma session_get_same u w : session_get env' u w = session_get env u w.
Proof. unfold session_get. rewrite same. reflexivity. Qed.

Lemma get_file_content_same fuel u path :
  forall w,
    get_file_content dec env' fuel u path w =
    get_file_content dec env fuel u path w.
Proof.
  induction fuel as [|fuel IH]; intros w; [reflexivity|].
  cbn [get_file_content].
  apply try_except_same. intros w0.
  apply bind_same; [reflexivity|]. intros api_url w1.
  apply bind_same; [apply session_get_same|]. intros [status body] w2.
  destruct (status =? 404)%Z; [reflexivity|].
  destruct (status =? 403)%Z; [|reflexivity].
  apply bind_same; [reflexivity|]. intros _ w3. apply IH.
Qed.

Lemma process_item_same fuel r item acc acc' w :
  map unstamped acc' = map unstamped acc ->
  similar (process_item dec env' fuel r item acc' w)
          (process_item dec env fuel r item acc w).
Proof.
  intros Hacc. unfold process_item.
  apply similar_bind; [reflexivity|]. intros ty w1.
  destruct (eq_str ty "file"); [|apply similar_ret; exact Hacc].
  apply similar_bind; [reflexivity|]. intros nm w2.
  apply similar_bind; [reflexivity|]. intros matches w3.
  destruct matches; [|apply similar_ret; exact Hacc].
  apply similar_bind; [reflexivity|]. intros path w4.
  apply similar_bind; [intros w0; apply get_file_content_same|].
  intros text w5.
  destruct (negb (String.eqb text "")); [|apply similar_ret; exact Hacc].
  apply similar_bind; [reflexivity|]. intros path' w6.
  unfold similar, bind, now, ret. simpl.
  split; [reflexivity|]. split; [reflexivity|].
  rewrite !map_app, Hacc. reflexivity.
Qed.

Lemma process_items_same fuel r items :
  forall acc acc' w,
    map unstamped acc' = map unstamped acc ->
    similar (process_items dec env' fuel r items acc' w)
            (process_items dec env fuel r items acc w).
Proof.
  induction items as [|item rest IH]; intros acc acc' w Hacc.
  - apply similar_ret. exact Hacc.
  - cbn [process_items].
    apply similar_bind_records; [apply process_item_same; exact Hacc|].
    intros a a' w0 Ha. apply IH. exact Ha.
Qed.

Lemma process_repo_same fuel r w :
  similar (process_repo dec env' fuel r w) (process_repo dec env fuel r w).
Proof.
  unfold process_repo, try_except, with_semaphore.
  match goal with
  | |- similar ?L ?R =>
      match L with
      | context [bind ?m' ?f' w] =>
          match R with
          | context [bind ?m ?f w] =>
              assert (Hbody : similar (bind m' f' w) (bind m f w))
          end
      end
  end.
  { apply similar_bind; [intros w0; apply session_get_same|].
    intros [status body] w1.
    destruct (negb (status =? 200)%Z); [apply similar_refl|].
    apply similar_bind; [reflexivity|]. intros contents w2.
    apply similar_bind; [reflexivity|]. intros items w3.
    apply process_items_same. reflexivity. }
  destruct (bind _ _ w) as [[o' w1'] t1'].
  destruct (bind _ _ w) as [[o w1] t1].
  destruct Hbody as (Ht & Hw & Ho). simpl in Ht, Hw, Ho. subst t1' w1'.
  destruct o' as [a'|e'|], o as [a|e|]; try contradiction;
    repeat split; auto.
Qed.

End SameResponses.

Lemma walk_result_same dec env env' fuel r :
  same_responses env env' ->
  match walk_result dec env' fuel r, walk_result dec env fuel r with
  | Ok x, Ok y => map unstamped x = map unstamped y
  | Raise e, Raise e' => e = e'
  | Unfinished, Unfinished => True
  | _, _ => False
  end.
Proof.
  intros Hsame. unfold walk_result.
  exact (proj2 (proj2 (process_repo_same dec env env' Hsame fuel r start))).
Qed.

Lemma gather_same dec net net' fuel (l : list (nat * repo)) :
  (forall i, same_responses (net i) (net' i)) ->
  forall results,
    gather (map (fun ir => walk_result dec (net (fst ir)) fuel (snd ir)) l)
      = Ok results ->
    exists results',
      gather (map (fun ir => walk_result dec (net' (fst ir)) fuel (snd ir)) l)
        = Ok results' /\
      map (map unstamped) results' = map (map unstamped) results.
Proof.
  intros Hsame. induction l as [|[i r] l IH]; intros results Hg; simpl in *.
  - injection Hg as <-. exists []. split; reflexivity.
  - pose proof (walk_result_same dec (net i) (net' i) fuel r (Hsame i)) as Hw.
    destruct (walk_result dec (net i) fuel r) as [a|e|];
      destruct (gather (map _ l)) as [rs|e'|] eqn:Hrest; try discriminate.
    injection Hg as <-.
    destruct (IH rs eq_refl) as (rs' & Hg' & Hrs').
    destruct (walk_result dec (net' i) fuel r) as [a'|e'|]; try contradiction.
    rewrite Hg'. exists (a' :: rs'). split; [reflexivity|].
    simpl. rewrite Hw, Hrs'. reflexivity.
Qed.

Lemma concat_all_batches results : concat (all_batches results) = concat results.
Proof.
  unfold all_batches. induction results as [|l results IH]; simpl.
  - reflexivity.
  - rewrite concat_app, IH. rewrite (proj1 (batches_spec l)). reflexivity.
Qed.

(** A run against a store without faults, all of whose walks return. *)
Lemma main_fault_free dec net db fuel catalog results s :
  fault_free db ->
  gather (walks dec net fuel (all_repos catalog)) = Ok results ->
  exists s',
    main dec net db fuel catalog s = (Ok tt, s') /\
    collection s' = collection s ++ concat results /\
    submitted s' = submitted s ++ all_batches results /\
    connected s' = false.
Proof.
  intros (Hconn & Hidx & Hins) Hgather.
  unfold main, MongoClient. rewrite Hconn.
  unfold main_body, sbind at 1.
  pose proof (create_indexes_frame db INDEXES 0
                (mkSink true (indexes s) (collection s) (submitted s)))
    as Hframe.
  destruct (create_indexes db 0 INDEXES _) as [o s2].
  destruct Hframe as (Hc & Hcol & Hsub & _ & Hok). simpl in Hc, Hcol, Hsub.
  rewrite (Hok Hidx). unfold sbind, lift. rewrite Hgather.
  rewrite insert_results_submit, (submit_healthy db _ Hins).
  eexists. split; [reflexivity|]. simpl.
  rewrite Hcol, Hsub, concat_all_batches. repeat split; reflexivity.
Qed.

(** ** C9: running twice *)

(** C9.  Two complete runs over the same catalog, the remote API answering
    every request of the second run as it answered the first, against a
    store without faults: the second run inserts, after the records of the
    first, a second copy of each of them, equal to the first but for its
    creation time (and equal to it when the clock reads the same), so the
    collection grows by twice the number of records and nothing is
    replaced. *)
Theorem C9_second_run_duplicates dec net net' db fuel catalog results s0 :
  fault_free db ->
  (forall i, same_responses (net i) (net' i)) ->
  gather (walks dec net fuel (all_repos catalog)) = Ok results ->
  exists results' s1 s2,
    main dec net db fuel catalog s0 = (Ok tt, s1) /\
    main dec net' db fuel catalog s1 = (Ok tt, s2) /\
    collection s1 = collection s0 ++ concat results /\
    collection s2 = collection s0 ++ concat results ++ concat results' /\
    map unstamped (concat results') = map unstamped (concat results) /\
    length (collection s2) =
      length (collection s0) + 2 * length (concat results) /\
    ((forall i, net' i = net i) -> results' = results).
Proof.
  intros Hdb Hsame Hgather.
  destruct (gather_same dec net net' fuel _ Hsame results Hgather)
    as (results' & Hgather' & Hres).
  destruct (main_fault_free dec net db fuel catalog results s0 Hdb Hgather)
    as (s1 & Hm1 & Hc1 & _ & _).
  destruct (main_fault_free dec net' db fuel catalog results' s1 Hdb Hgather')
    as (s2 & Hm2 & Hc2 & _ & _).
  assert (Hflat : map unstamped (concat results') =
                  map unstamped (concat results)).
  { rewrite !concat_map. rewrite Hres. reflexivity. }
  exists results', s1, s2.
  split; [exact Hm1|]. split; [exact Hm2|]. split; [exact Hc1|].
  split; [|split; [exact Hflat|split]].
  - rewrite Hc2, Hc1, <- app_assoc. reflexivity.
  - rewrite Hc2, Hc1, !length_app.
    rewrite <- (length_map unstamped (concat results')), Hflat, length_map.
    lia.
  - intros Heq.
    assert (Hw : walks dec net' fuel (all_repos catalog) =
                 walks dec net fuel (all_repos catalog)).
    { unfold walks. apply map_ext. intros [i r]. simpl. rewrite Heq.
      reflexivity. }
    unfold walks in Hw, Hgather. rewrite Hw, Hgather in Hgather'.
    injection Hgather' as <-. reflexivity.
Qed.

Lemma C9_second_run_duplicates_witness :
  exists s1 s2,
    main Sample.plain (fun _ => Sample.api) Sample.healthy 3 Sample.three
      Sample.fresh = (Ok tt, s1) /\
    main Sample.plain (fun _ => Sample.api) Sample.healthy 3 Sample.three
      s1 = (Ok tt, s2) /\
    length (collection s1) = 3 /\
    collection s2 = concat Sample.harvest ++ concat Sample.harvest.
Proof.
  destruct (C9_second_run_duplicates Sample.plain (fun _ => Sample.api)
              (fun _ => Sample.api) Sample.healthy 3 Sample.three
              Sample.harvest Sample.fresh
              (conj eq_refl (conj (fun _ => eq_refl) (fun _ => eq_refl)))
              (fun _ _ => eq_refl) eq_refl)
    as (results' & s1 & s2 & Hm1 & Hm2 & Hc1 & Hc2 & _ & _ & Hsame).
  exists s1, s2. split; [exact Hm1|]. split; [exact Hm2|].
  split; [rewrite Hc1; reflexivity|].
  rewrite Hc2, (Hsame (fun _ => eq_refl)). reflexivity.
Defined.

(** ** A complete run *)

(** One repository with three entries, two of which pass the filter and one
    of those is not found: one call of [insert_many], with one record. *)
Example run_of_sample_catalog :
  main Sample.plain (fun _ => Sample.api) Sample.healthy 3 Sample.catalog
    Sample.fresh =
  (Ok tt,
   mkSink false INDEXES
     [build_doc Sample.fastapi "app.ts" (JStr "app.ts") "export {}" 0%Z]
     [[build_doc Sample.fastapi "app.ts" (JStr "app.ts") "export {}" 0%Z]]).
Proof. reflexivity. Qed.

(* ================================================================= *)
(** * Further properties of the code *)

(** ** The Content Fetcher, answer by answer *)

(** One call of [get_file_content] on a path that is a [str]. *)
Lemma get_file_content_step dec env fuel u p w :
  get_file_content dec env (S fuel) u (JStr p) w =
  match respond env (next_request w) with
  | TransportError =>
      (Ok "", advance w 1, [EvRequest (file_url u p); EvResponse None])
  | Reply st body =>
      if (st =? 404)%Z then
        (Ok "", advance w 1, [EvRequest (file_url u p); EvResponse (Some st)])
      else if (st =? 403)%Z then
        let '(o, w2, t) :=
          get_file_content dec env fuel u (JStr p) (advance w 1) in
        (o, w2,
         EvRequest (file_url u p) :: EvResponse (Some st) :: EvSleep 60 :: t)
      else if (st =? 200)%Z then
        (Ok (payload_text dec body), advance w 1,
         [EvRequest (file_url u p); EvResponse (Some st)])
      else
        (Ok "", advance w 1, [EvRequest (file_url u p); EvResponse (Some st)])
  end.
Proof.
  assert (Hw : mkWorld (S (next_request w)) (next_tick w) = advance w 1)
    by (unfold advance; f_equal; lia).
  destruct (respond env (next_request w)) as [|st body] eqn:Hresp.
  - fetch_once Hresp. simpl. rewrite Hw. reflexivity.
  - destruct (st =? 404)%Z eqn:H404.
    + fetch_once Hresp. rewrite H404. simpl. rewrite Hw. reflexivity.
    + destruct (st =? 403)%Z eqn:H403.
      * apply Z.eqb_eq in H403. subst st.
        destruct (get_file_content dec env fuel u (JStr p) (advance w 1))
          as [[o w2] t] eqn:Hrec.
        exact (get_file_content_403 dec env fuel u p w body o w2 t Hresp Hrec).
      * destruct (st =? 200)%Z eqn:H200.
        -- fetch_once Hresp. rewrite H404, H403, H200.
           unfold payload_text.
           destruct body as [data|]; [|simpl; rewrite Hw; reflexivity].
           unfold bind at 1, response_json, ret at 1.
           destruct data as [| | | | |members];
             try (simpl; rewrite Hw; reflexivity).
           unfold is_dict_with, bind, getitem.
           destruct (assoc "content" members) as [c|];
             [|simpl; rewrite Hw; reflexivity].
           unfold ret at 1.
           destruct c as [| | |b| |]; try (simpl; rewrite Hw; reflexivity).
           unfold decode. destruct (dec b); simpl; rewrite Hw; reflexivity.
        -- fetch_once Hresp. rewrite H404, H403, H200. simpl. rewrite Hw.
           reflexivity.
Qed.

(** X1.  Content is never made up: when a fetch returns a non-empty text,
    its path is a string, its answers were some number [n] of 403s followed
    by a 200 whose payload is an object with a [content] member that
    decodes to exactly that text, and it performed the [n + 1] requests and
    [n] cooldowns of such a fetch and nothing else. *)
Theorem X1_content_comes_from_a_200 dec env fuel u path w text w' t :
  get_file_content dec env fuel u path w = (Ok text, w', t) ->
  text <> "" ->
  exists p n members b,
    path = JStr p /\
    (forall i, i < n ->
               exists body, respond env (next_request w + i) = Reply 403 body) /\
    respond env (next_request w + n) = Reply 200 (Some (JObj members)) /\
    assoc "content" members = Some (JStr b) /\
    dec b = Some text /\
    n < fuel /\
    w' = advance w (n + 1) /\
    t = retries n (file_url u p) (Some 200%Z).
Proof.
  intros Hfetch Hne.
  destruct (get_file_content_needs_str _ _ _ _ _ _ _ _ _ Hfetch Hne) as [p ->].
  exists p. revert w w' t Hfetch.
  induction fuel as [|fuel IH]; intros w w' t Hfetch; [discriminate|].
  rewrite get_file_content_step in Hfetch.
  destruct (respond env (next_request w)) as [|st body] eqn:Hresp.
  - injection Hfetch as <- _ _. contradiction.
  - destruct (st =? 404)%Z; [injection Hfetch as <- _ _; contradiction|].
    destruct (st =? 403)%Z eqn:H403.
    + apply Z.eqb_eq in H403. subst st.
      destruct (get_file_content dec env fuel u (JStr p) (advance w 1))
        as [[o w2] t2] eqn:Hrec.
      injection Hfetch as -> -> <-.
      destruct (IH _ _ _ Hrec)
        as (n & members & b & _ & Hbefore & Hlast & Hc & Hd & Hn & -> & ->).
      exists (S n), members, b. simpl in *.
      split; [reflexivity|]. split; [|split; [|repeat split; auto; try lia]].
      * intros i Hi. destruct i as [|i].
        -- exists body. rewrite Nat.add_0_r. exact Hresp.
        -- destruct (Hbefore i ltac:(lia)) as [body' Hb'].
           exists body'. rewrite <- Hb'. f_equal. lia.
      * rewrite <- Hlast. f_equal. lia.
      * unfold advance. simpl. f_equal. lia.
    + destruct (st =? 200)%Z eqn:H200;
        [|injection Hfetch as <- _ _; contradiction].
      apply Z.eqb_eq in H200. subst st.
      injection Hfetch as Htext <- <-.
      unfold payload_text in Htext.
      destruct body as [[| | | | |members]|]; try (subst text; contradiction).
      destruct (assoc "content" members) as [[| | |b| |]|] eqn:Hc;
        try (subst text; contradiction).
      destruct (dec b) as [text'|] eqn:Hd; [|subst text; contradiction].
      subst text'.
      exists 0, members, b. rewrite Nat.add_0_r.
      repeat split; auto; try lia.
Qed.

Lemma X1_content_comes_from_a_200_witness :
  exists n members b,
    n < 2 /\
    respond Sample.api (2 + n) = Reply 200 (Some (JObj members)) /\
    assoc "content" members = Some (JStr b) /\
    Sample.plain b = Some "export {}".
Proof.
  assert (Hfetch :
            get_file_content Sample.plain Sample.api 2 (url Sample.fastapi)
              (JStr "app.ts") (mkWorld 2 0) =
            (Ok "export {}", mkWorld 4 0,
             retries 1 (file_url (url Sample.fastapi) "app.ts")
               (Some 200%Z)))
    by (vm_compute; reflexivity).
  assert (Hne : "export {}" <> "") by discriminate.
  destruct (X1_content_comes_from_a_200 _ _ _ _ _ _ _ _ _ Hfetch Hne)
    as (p & n & members & b & _ & _ & Hlast & Hc & Hd & Hn & _ & _).
  exists n, members, b. repeat split; assumption.
Defined.

(** X2.  A 200 answer whose payload is not an object with a [content]
    member (a directory listing, say) ends the fetch with the empty text
    after that one request, and the walk records nothing for the entry. *)
Theorem X2_payload_without_content dec env fuel r item nm p acc w data :
  source_file item nm p ->
  respond env (next_request w) = Reply 200 (Some data) ->
  is_dict_with "content" data = false ->
  get_file_content dec env (S fuel) (url r) (JStr p) w =
    (Ok "", advance w 1,
     [EvRequest (file_url (url r) p); EvResponse (Some 200%Z)]) /\
  process_item dec env (S fuel) r item acc w =
    (Ok acc, advance w 1,
     [EvRequest (file_url (url r) p); EvResponse (Some 200%Z)]).
Proof.
  intros Hitem Hresp Hdict.
  assert (Hfetch : get_file_content dec env (S fuel) (url r) (JStr p) w =
                   (Ok "", advance w 1,
                    [EvRequest (file_url (url r) p);
                     EvResponse (Some 200%Z)])).
  { rewrite get_file_content_step, Hresp. cbn [Z.eqb Pos.eqb].
    replace (payload_text dec (Some data)) with "" ; [reflexivity|].
    unfold payload_text. unfold is_dict_with in Hdict.
    destruct data as [| | | | |members]; try reflexivity.
    destruct (assoc "content" members); [discriminate | reflexivity]. }
  split; [exact Hfetch|].
  rewrite (process_item_source_file dec env (S fuel) r item nm p acc w ""
             _ _ Hitem Hfetch).
  reflexivity.
Qed.

(** X4.  Whatever the remote side answers and however long the fetch runs,
    a fetch only asks for the address of its own file, sleeps exactly 60
    seconds exactly once per 403 it has received, performs no other event,
    and never raises. *)
Theorem X4_fetch_discipline dec env u p :
  forall fuel w,
    Forall (fetch_event (file_url u p))
      (snd (get_file_content dec env fuel u (JStr p) w)) /\
    count is_sleep (snd (get_file_content dec env fuel u (JStr p) w)) =
      count is_403 (snd (get_file_content dec env fuel u (JStr p) w)) /\
    cooldown_total (snd (get_file_content dec env fuel u (JStr p) w)) =
      60 * count is_403 (snd (get_file_content dec env fuel u (JStr p) w)) /\
    (forall e,
       fst (fst (get_file_content dec env fuel u (JStr p) w)) <> Raise e).
Proof.
  induction fuel as [|fuel IH]; intros w.
  - simpl. repeat split; try constructor. discriminate.
  - split; [|split; [|split]];
      [| | |intros e; apply get_file_content_never_raises];
      rewrite get_file_content_step;
      destruct (respond env (next_request w)) as [|st body];
      try (simpl; repeat constructor; fail);
      destruct (st =? 404)%Z eqn:H404;
      try (apply Z.eqb_eq in H404; subst st; simpl; repeat constructor; fail);
      (destruct (st =? 403)%Z eqn:H403;
       [ destruct (IH (advance w 1)) as (Hall & Hcnt & Hcool & _);
         destruct (get_file_content dec env fuel u (JStr p) (advance w 1))
           as [[o w2] t]; simpl in Hall, Hcnt, Hcool |-
       | destruct (st =? 200)%Z ]).
    + simpl. repeat constructor. exact Hall.
    + simpl. repeat constructor.
    + simpl. repeat constructor.
    + unfold count in *. simpl. rewrite H403. simpl. rewrite Hcnt. reflexivity.
    + unfold count. simpl. rewrite H403. reflexivity.
    + unfold count. simpl. rewrite H403. reflexivity.
    + unfold count in *. simpl. rewrite H403. simpl. rewrite Hcool. lia.
    + unfold count. simpl. rewrite H403. reflexivity.
    + unfold count. simpl. rewrite H403. reflexivity.
Qed.

Lemma X2_payload_without_content_witness :
  process_item Sample.plain Cases.directories 1 Sample.fastapi
    (Sample.entry "file" "app.ts") [] start =
  (Ok [], advance start 1,
   [EvRequest (file_url (url Sample.fastapi) "app.ts");
    EvResponse (Some 200%Z)]).
Proof.
  refine (proj2 (X2_payload_without_content Sample.plain Cases.directories 0
                   Sample.fastapi (Sample.entry "file" "app.ts") "app.ts"
                   "app.ts" [] start (JArr []) _ _ _)).
  - eexists. repeat split; reflexivity.
  - reflexivity.
  - reflexivity.
Defined.

(** ** The Repository Walker, entry by entry *)

(** The walk of a repository whose listing call is answered by a 200 with
    an array: the loop over the entries, inside the semaphore; what the
    loop raises is turned into the empty list. *)
Lemma process_repo_listing dec env fuel r w items :
  respond env (next_request w) = Reply 200 (Some (JArr items)) ->
  process_repo dec env fuel r w =
  let '(o, w1, t1) := process_items dec env fuel r items [] (advance w 1) in
  (match o with Raise _ => Ok [] | _ => o end, w1, listed r o t1).
Proof.
  intros Hresp.
  assert (Hw : mkWorld (S (next_request w)) (next_tick w) = advance w 1)
    by (unfold advance; f_equal; lia).
  unfold process_repo, try_except, with_semaphore.
  unfold bind at 1, session_get. rewrite Hresp. cbn [Z.eqb Pos.eqb negb].
  unfold bind at 1, response_json, ret at 1.
  unfold bind at 1, iterate, ret at 1. rewrite Hw.
  destruct (process_items dec env fuel r items [] (advance w 1))
    as [[[docs|e|] w1] t1]; simpl; try rewrite app_nil_r; reflexivity.
Qed.

Lemma process_item_malformed dec env fuel r item acc w :
  malformed item ->
  exists e, process_item dec env fuel r item acc w = (Raise e, w, []).
Proof.
  unfold malformed, process_item. intros Hbad.
  destruct item as [| | | | |members];
    try (exists TypeError; reflexivity).
  unfold bind at 1, getitem at 1.
  destruct (assoc "type" members) as [ty|];
    [|exists KeyError; reflexivity].
  destruct Hbad as [Hfile Hname]. unfold ret at 1. rewrite Hfile.
  unfold bind at 1, getitem at 1.
  destruct (assoc "name" members) as [nmj|];
    [|exists KeyError; reflexivity].
  unfold ret at 1.
  destruct nmj as [| | |nm| |];
    try (exists AttributeError; reflexivity).
  destruct Hname as [Hext Hpath].
  unfold bind at 1, json_endswith, ret at 1. rewrite Hext.
  unfold bind at 1, getitem at 1. rewrite Hpath.
  exists KeyError. reflexivity.
Qed.

Lemma process_items_malformed dec env fuel r item items :
  In item items -> malformed item ->
  forall acc w docs w' t,
    process_items dec env fuel r items acc w <> (Ok docs, w', t).
Proof.
  intros Hin Hbad. induction items as [|x rest IH]; [contradiction|].
  intros acc w docs w' t. cbn [process_items]. unfold bind.
  destruct Hin as [-> | Hin].
  - destruct (process_item_malformed dec env fuel r item acc w Hbad)
      as [e He].
    rewrite He. discriminate.
  - destruct (process_item dec env fuel r x acc w) as [[[acc1|e|] w1] t1];
      try discriminate.
    specialize (IH Hin acc1 w1).
    destruct (process_items dec env fuel r rest acc1 w1)
      as [[[docs2|e|] w2] t2]; try discriminate.
    exfalso. eapply IH. reflexivity.
Qed.

(** X5.  One entry of the listing on which the loop raises (an entry that
    is no object or lacks ["type"], a file without a usable ["name"], a
    matching file without ["path"]) costs the repository all of its
    records: the walk returns the empty list, whatever the other entries
    are and whatever was fetched for them. *)
Theorem X5_malformed_entry_discards_all dec env fuel r w items item docs w' t :
  respond env (next_request w) = Reply 200 (Some (JArr items)) ->
  In item items ->
  malformed item ->
  process_repo dec env fuel r w = (Ok docs, w', t) ->
  docs = [].
Proof.
  intros Hresp Hin Hbad Hwalk.
  rewrite (process_repo_listing dec env fuel r w items Hresp) in Hwalk.
  pose proof (process_items_malformed dec env fuel r item items Hin Hbad
                [] (advance w 1)) as Hno.
  destruct (process_items dec env fuel r items [] (advance w 1))
    as [[[docs1|e|] w1] t1].
  - exfalso. eapply Hno. reflexivity.
  - injection Hwalk as <- _ _. reflexivity.
  - discriminate.
Qed.

Lemma X5_malformed_entry_discards_all_witness :
  process_repo Sample.plain Cases.broken 1 Sample.fastapi start =
    (Ok [], mkWorld 2 1,
     [EvAcquire;
      EvRequest (contents_url (url Sample.fastapi));
      EvResponse (Some 200%Z);
      EvRequest (file_url (url Sample.fastapi) "app.ts");
      EvResponse (Some 200%Z);
      EvRelease]) /\
  @nil document = [].
Proof.
  split; [vm_compute; reflexivity|].
  refine (X5_malformed_entry_discards_all Sample.plain Cases.broken 1
            Sample.fastapi start
            [Sample.entry "file" "app.ts"; JNull] JNull [] (mkWorld 2 1) _
            _ _ _ _).
  - reflexivity.
  - right. left. reflexivity.
  - exact I.
  - vm_compute. reflexivity.
Defined.

Lemma process_item_skipped dec env fuel r item acc w :
  skipped item -> process_item dec env fuel r item acc w = (Ok acc, w, []).
Proof.
  intros (members & ty & -> & Hty & Hskip).
  unfold process_item, bind at 1, getitem at 1. rewrite Hty. unfold ret at 1.
  destruct (eq_str ty "file") eqn:Hfile; [|reflexivity].
  destruct Hskip as [H | (nm & Hnm & Hext)]; [discriminate|].
  unfold bind at 1, getitem at 1. rewrite Hnm. unfold ret at 1.
  unfold bind at 1, json_endswith, ret at 1. rewrite Hext. reflexivity.
Qed.

Lemma process_items_skipped dec env fuel r items :
  Forall skipped items ->
  forall acc w, process_items dec env fuel r items acc w = (Ok acc, w, []).
Proof.
  induction 1 as [|item rest Hitem _ IH]; intros acc w; [reflexivity|].
  cbn [process_items]. unfold bind.
  rewrite (process_item_skipped dec env fuel r item acc w Hitem), IH.
  reflexivity.
Qed.

(** X6.  Directories and files that do not pass the extension filter are
    never fetched: a repository whose listing holds only such entries is
    walked with the listing request alone, and yields no record, even with
    no fuel for fetches at all. *)
Theorem X6_nothing_to_fetch dec env fuel r w items :
  respond env (next_request w) = Reply 200 (Some (JArr items)) ->
  Forall skipped items ->
  process_repo dec env fuel r w =
    (Ok [], advance w 1,
     [EvAcquire; EvRequest (contents_url (url r)); EvResponse (Some 200%Z);
      EvRelease]).
Proof.
  intros Hresp Hall.
  rewrite (process_repo_listing dec env fuel r w items Hresp).
  rewrite (process_items_skipped dec env fuel r items Hall). reflexivity.
Qed.

Lemma X6_nothing_to_fetch_witness :
  process_repo Sample.plain Cases.docs_only 0 Sample.fastapi start =
    (Ok [], advance start 1,
     [EvAcquire; EvRequest (contents_url (url Sample.fastapi));
      EvResponse (Some 200%Z); EvRelease]).
Proof.
  refine (X6_nothing_to_fetch Sample.plain Cases.docs_only 0 Sample.fastapi
            start [Sample.entry "dir" "src"; Sample.entry "file" "README.md"]
            _ _).
  - reflexivity.
  - constructor; [|constructor; [|constructor]].
    + eexists. eexists. split; [reflexivity|]. split; [reflexivity|].
      left. reflexivity.
    + eexists. eexists. split; [reflexivity|]. split; [reflexivity|].
      right. eexists. split; reflexivity.
Defined.

Lemma embeds_none items : embeds [] items.
Proof. induction items; constructor; assumption. Qed.

Lemma embeds_length ds items : embeds ds items -> length ds <= length items.
Proof. induction 1; simpl; lia. Qed.

Lemma process_items_embeds dec env fuel r items :
  forall acc w acc' w' t,
    process_items dec env fuel r items acc w = (Ok acc', w', t) ->
    exists new, acc' = acc ++ new /\ embeds new items.
Proof.
  induction items as [|item rest IH]; intros acc w acc' w' t H.
  - simpl in H. injection H as <- _ _. exists []. rewrite app_nil_r.
    split; [reflexivity | constructor].
  - cbn [process_items] in H. unfold bind at 1 in H.
    destruct (process_item dec env fuel r item acc w) as [[o w1] t1] eqn:Hit.
    destruct o as [acc1| |]; try discriminate.
    destruct (process_items dec env fuel r rest acc1 w1) as [[o2 w2] t2] eqn:Hr.
    injection H as -> _ _.
    destruct (IH _ _ _ _ _ Hr) as (new & -> & Hnew).
    destruct (process_item_inv _ _ _ _ _ _ _ _ _ _ Hit)
      as [-> | (nm & p & text & stamp & Hsrc & Hne & ->)].
    + exists new. split; [reflexivity | constructor; exact Hnew].
    + exists (build_doc r nm (JStr p) text stamp :: new).
      split; [rewrite <- app_assoc; reflexivity|].
      apply (embeds_take _ _ _ _ p); auto.
Qed.

(** X7.  The records of a walk follow the listing: they are built for
    entries of the listing taken in the order of the listing, at most one
    record for an entry, each with the name and the path of its entry; so a
    walk returns no more records than the listing has entries. *)
Theorem X7_records_follow_the_listing dec env fuel r w items docs w' t :
  respond env (next_request w) = Reply 200 (Some (JArr items)) ->
  process_repo dec env fuel r w = (Ok docs, w', t) ->
  embeds docs items /\ length docs <= length items.
Proof.
  intros Hresp Hwalk.
  rewrite (process_repo_listing dec env fuel r w items Hresp) in Hwalk.
  assert (Hemb : embeds docs items).
  { destruct (process_items dec env fuel r items [] (advance w 1))
      as [[[docs1|e|] w1] t1] eqn:Hloop.
    - injection Hwalk as <- _ _.
      destruct (process_items_embeds _ _ _ _ _ _ _ _ _ _ Hloop)
        as (new & -> & Hnew).
      exact Hnew.
    - injection Hwalk as <- _ _. apply embeds_none.
    - discriminate. }
  split; [exact Hemb | exact (embeds_length _ _ Hemb)].
Qed.

Lemma X7_records_follow_the_listing_witness :
  embeds
    [build_doc Sample.fastapi "app.ts" (JStr "app.ts") "export {}" 0%Z]
    [Sample.entry "file" "setup.py"; Sample.entry "file" "README.md";
     Sample.entry "file" "app.ts"] /\
  1 <= 3.
Proof.
  refine (X7_records_follow_the_listing Sample.plain Sample.api 3
            Sample.fastapi start _ _ (mkWorld 4 1) _ _ _).
  - reflexivity.
  - vm_compute. reflexivity.
Defined.

(** ** Extensions *)

Lemma endswith_exists s suf :
  Py.endswith s suf = true -> exists pre, s = (pre ++ suf)%string.
Proof.
  induction s as [|c s IH]; cbn [Py.endswith]; intros H.
  - rewrite orb_false_r in H. apply String.eqb_eq in H. exists "". exact H.
  - apply orb_prop in H. destruct H as [H | H].
    + apply String.eqb_eq in H. exists "". exact H.
    + destruct (IH H) as [pre ->]. exists (String c pre). reflexivity.
Qed.

Lemma last_part_unique a :
  forall b x y,
    (a ++ String "." x)%string = (b ++ String "." y)%string ->
    mem_char "." x = false -> mem_char "." y = false -> x = y.
Proof.
  induction a as [|c a IH]; intros b x y Heq Hx Hy.
  - destruct b as [|c' b]; simpl in Heq.
    + injection Heq as ->. reflexivity.
    + injection Heq as <- ->.
      rewrite mem_char_app in Hx. simpl in Hx.
      rewrite orb_true_r in Hx. discriminate.
  - destruct b as [|c' b]; simpl in Heq.
    + injection Heq as -> <-.
      rewrite mem_char_app in Hy. simpl in Hy.
      rewrite orb_true_r in Hy. discriminate.
    + injection Heq as _ Heq. exact (IH b x y Heq Hx Hy).
Qed.

Lemma walk_records_ok dec env fuel r w docs w' t d :
  process_repo dec env fuel r w = (Ok docs, w', t) ->
  In d docs ->
  exists items,
    respond env (next_request w) = Reply 200 (Some (JArr items)) /\
    record_ok items d.
Proof.
  intros Hwalk Hd.
  destruct (respond env (next_request w)) as [|status body] eqn:Hresp.
  - unfold process_repo, try_except, with_semaphore, bind, session_get in Hwalk.
    rewrite Hresp in Hwalk. simpl in Hwalk.
    injection Hwalk as <- _ _. contradiction.
  - destruct (status =? 200)%Z eqn:Hst.
    + apply Z.eqb_eq in Hst. subst status.
      destruct body as [[| | |s|items|members]|];
        try (unfold process_repo, try_except, with_semaphore, bind at 1,
               session_get in Hwalk;
             rewrite Hresp in Hwalk; simpl in Hwalk;
             injection Hwalk as <- _ _; contradiction).
      * exfalso.
        unfold process_repo, try_except, with_semaphore in Hwalk.
        unfold bind at 1, session_get in Hwalk. rewrite Hresp in Hwalk.
        cbn [Z.eqb Pos.eqb negb] in Hwalk.
        unfold bind at 1, response_json, ret at 1 in Hwalk.
        unfold bind at 1, iterate, ret at 1 in Hwalk.
        destruct (process_items dec env fuel r (chars s) [] _)
          as [[[docs1|e|] w1] t1] eqn:Hloop; simpl in Hwalk;
          try discriminate; injection Hwalk as <- _ _; try contradiction.
        pose proof (process_items_records dec env fuel r (chars s) [] []
                      _ _ _ _ Hloop (Forall_nil _)) as Hall.
        rewrite Forall_forall in Hall.
        destruct (record_ok_needs_object _ _ (Hall d Hd))
          as (item & members & Hin & ->).
        unfold chars in Hin. apply in_map_iff in Hin.
        destruct Hin as (c & Hc & _). discriminate.
      * exists items. split; [reflexivity|].
        rewrite (process_repo_listing dec env fuel r w items Hresp) in Hwalk.
        destruct (process_items dec env fuel r items [] (advance w 1))
          as [[[docs1|e|] w1] t1] eqn:Hloop;
          try discriminate; injection Hwalk as <- _ _; try contradiction.
        pose proof (process_items_records dec env fuel r items [] []
                      _ _ _ _ Hloop (Forall_nil _)) as Hall.
        rewrite Forall_forall in Hall. exact (Hall d Hd).
      * exfalso.
        unfold process_repo, try_except, with_semaphore in Hwalk.
        unfold bind at 1, session_get in Hwalk. rewrite Hresp in Hwalk.
        cbn [Z.eqb Pos.eqb negb] in Hwalk.
        unfold bind at 1, response_json, ret at 1 in Hwalk.
        unfold bind at 1, iterate, ret at 1 in Hwalk.
        destruct (process_items dec env fuel r _ [] _)
          as [[[docs1|e|] w1] t1] eqn:Hloop; simpl in Hwalk;
          try discriminate; injection Hwalk as <- _ _; try contradiction.
        pose proof (process_items_records dec env fuel r _ [] []
                      _ _ _ _ Hloop (Forall_nil _)) as Hall.
        rewrite Forall_forall in Hall.
        destruct (record_ok_needs_object _ _ (Hall d Hd))
          as (item & members' & Hin & ->).
        apply in_map_iff in Hin. destruct Hin as (c & Hc & _). discriminate.
    + unfold process_repo, try_except, with_semaphore, bind, session_get in Hwalk.
      rewrite Hresp, Hst in Hwalk. simpl in Hwalk.
      injection Hwalk as <- _ _. contradiction.
Qed.

(** X8.  The extension of every record is one of js, ts, py, java, rs, go
    and cpp: a name that passes the filter ends in a dot followed by one of
    them, and what follows the last dot of such a name is that extension. *)
Theorem X8_extension_is_one_of_seven dec env fuel r w docs w' t d :
  process_repo dec env fuel r w = (Ok docs, w', t) ->
  In d docs ->
  In (extension (doc_metadata d))
     ["js"; "ts"; "py"; "java"; "rs"; "go"; "cpp"] /\
  Py.endswith (file_name d)
    (String "." (extension (doc_metadata d))) = true.
Proof.
  intros Hwalk Hd.
  destruct (walk_records_ok _ _ _ _ _ _ _ _ _ Hwalk Hd)
    as (items & _ & _ & _ & Hnodot & (stem & Hstem)
        & item & p & _ & (members & _ & _ & _ & _ & Hext) & _).
  assert (Hsuf : exists e,
             In e ["js"; "ts"; "py"; "java"; "rs"; "go"; "cpp"] /\
             mem_char "." e = false /\
             Py.endswith (file_name d) (String "." e) = true).
  { unfold Py.endswith_any, EXTENSIONS in Hext.
    apply existsb_exists in Hext. destruct Hext as (suf & Hin & Hends).
    simpl in Hin.
    repeat (destruct Hin as [<- | Hin];
            [eexists; split; [|split; [|exact Hends]];
             [simpl; tauto | reflexivity]|]).
    contradiction. }
  destruct Hsuf as (e & Hin & He & Hends).
  destruct (endswith_exists _ _ Hends) as [pre Hpre].
  assert (Heq : extension (doc_metadata d) = e).
  { apply (last_part_unique stem pre); auto.
    rewrite <- Hpre. symmetry. exact Hstem. }
  rewrite Heq. split; assumption.
Qed.

Lemma X8_extension_is_one_of_seven_witness :
  In "ts" ["js"; "ts"; "py"; "java"; "rs"; "go"; "cpp"] /\
  Py.endswith "app.ts" ".ts" = true.
Proof.
  refine (X8_extension_is_one_of_seven Sample.plain Sample.api 3
            Sample.fastapi start
            [build_doc Sample.fastapi "app.ts" (JStr "app.ts") "export {}" 0%Z]
            (mkWorld 4 1) _
            (build_doc Sample.fastapi "app.ts" (JStr "app.ts") "export {}" 0%Z)
            _ _).
  - vm_compute. reflexivity.
  - left. reflexivity.
Defined.

(** ** Whom a walk talks to *)

Lemma string_app_assoc (a b c : string) :
  ((a ++ b) ++ c)%string = (a ++ (b ++ c))%string.
Proof. induction a as [|x a IH]; simpl; [reflexivity | rewrite IH; reflexivity]. Qed.

Section Emits.

Variable P : event -> Prop.

Lemma emits_silent {A} (m : M A) : (forall w, snd (m w) = []) -> emits P m.
Proof. intros H w. rewrite H. constructor. Qed.

Lemma emits_bind {A B} (m : M A) (f : A -> M B) :
  emits P m -> (forall a, emits P (f a)) -> emits P (bind m f).
Proof.
  intros Hm Hf w. unfold bind. specialize (Hm w).
  destruct (m w) as [[[a|e|] w1] t1]; simpl in *; auto.
  specialize (Hf a w1). destruct (f a w1) as [[o2 w2] t2]. simpl in *.
  apply Forall_app. split; assumption.
Qed.

Lemma emits_try_except {A} (m : M A) (h : exn -> M A) :
  emits P m -> (forall e, emits P (h e)) -> emits P (try_except m h).
Proof.
  intros Hm Hh w. unfold try_except. specialize (Hm w).
  destruct (m w) as [[[a|e|] w1] t1]; simpl in *; auto.
  specialize (Hh e w1). destruct (h e w1) as [[o2 w2] t2]. simpl in *.
  apply Forall_app. split; assumption.
Qed.

Lemma emits_ret {A} (a : A) : emits P (ret a).
Proof. apply emits_silent. reflexivity. Qed.

Lemma emits_getitem obj key : emits P (getitem obj key).
Proof.
  apply emits_silent. intros w. destruct obj; try reflexivity.
  simpl. destruct (assoc key members); reflexivity.
Qed.

Lemma emits_json_endswith x sufs : emits P (json_endswith x sufs).
Proof. apply emits_silent. intros w. destruct x; reflexivity. Qed.

Lemma emits_now env : emits P (now env).
Proof. apply emits_silent. reflexivity. Qed.

End Emits.

Lemma get_file_content_events dec env u p :
  forall fuel w,
    Forall (fetch_event (file_url u p))
      (snd (get_file_content dec env fuel u (JStr p) w)).
Proof.
  induction fuel as [|fuel IH]; intros w; [constructor|].
  rewrite get_file_content_step.
  destruct (respond env (next_request w)) as [|st body];
    [simpl; repeat constructor|].
  destruct (st =? 404)%Z; [simpl; repeat constructor|].
  destruct (st =? 403)%Z.
  - specialize (IH (advance w 1)).
    destruct (get_file_content dec env fuel u (JStr p) (advance w 1))
      as [[o w2] t].
    simpl in *. repeat constructor. exact IH.
  - destruct (st =? 200)%Z; simpl; repeat constructor.
Qed.

Lemma emits_bind_ok {A B} (P : event -> Prop) (m : M A) (f : A -> M B) :
  emits P m ->
  (forall w a w1 t1, m w = (Ok a, w1, t1) -> emits P (f a)) ->
  emits P (bind m f).
Proof.
  intros Hm Hf w. unfold bind. specialize (Hm w).
  destruct (m w) as [[[a|e|] w1] t1] eqn:Hmw; simpl in *; auto.
  specialize (Hf w a w1 t1 Hmw w1). destruct (f a w1) as [[o2 w2] t2].
  simpl in *. apply Forall_app. split; assumption.
Qed.

Lemma getitem_ok obj key w v w1 t1 :
  getitem obj key w = (Ok v, w1, t1) ->
  exists members, obj = JObj members /\ assoc key members = Some v.
Proof.
  destruct obj as [| | | | |members]; try discriminate.
  simpl. destruct (assoc key members) as [v'|] eqn:Hk; [|discriminate].
  intros H. injection H as <- _ _. eauto.
Qed.

Lemma json_endswith_ok x sufs w w1 t1 :
  json_endswith x sufs w = (Ok true, w1, t1) ->
  exists nm, x = JStr nm /\ Py.endswith_any nm sufs = true.
Proof.
  destruct x as [| | |nm| |]; try discriminate.
  simpl. intros H. injection H as H _ _. eauto.
Qed.

Lemma process_item_listed dec env fuel r items item acc :
  In item items ->
  emits (listed_address r items) (process_item dec env fuel r item acc).
Proof.
  intros Hin. unfold process_item.
  apply emits_bind_ok; [apply emits_getitem|].
  intros w0 ty w1 t1 Hty.
  destruct (getitem_ok _ _ _ _ _ _ Hty) as (members & -> & Htype).
  destruct (eq_str ty "file") eqn:Hfile; [|apply emits_ret].
  assert (Hkind : ty = JStr "file").
  { destruct ty; try discriminate. simpl in Hfile.
    apply String.eqb_eq in Hfile. subst. reflexivity. }
  subst ty.
  apply emits_bind_ok; [apply emits_getitem|].
  intros w2 nmj w3 t3 Hname.
  destruct (getitem_ok _ _ _ _ _ _ Hname) as (members' & Hsame & Hnm).
  injection Hsame as <-.
  apply emits_bind_ok; [apply emits_json_endswith|].
  intros w4 matches w5 t5 Hends.
  destruct matches; [|apply emits_ret].
  destruct (json_endswith_ok _ _ _ _ _ Hends) as (nm & -> & Hext).
  apply emits_bind_ok; [apply emits_getitem|].
  intros w6 path w7 t7 Hpath.
  destruct (getitem_ok _ _ _ _ _ _ Hpath) as (members' & Hsame & Hp).
  injection Hsame as <-.
  apply emits_bind.
  - intros w8. destruct path as [| | |p| |];
      try (destruct fuel as [|fuel]; constructor).
    eapply Forall_impl; [|apply get_file_content_events].
    intros e He. destruct e; simpl in *; auto.
    right. exists (JObj members), nm, p.
    split; [exact Hin|]. split; [|exact He].
    exists members. repeat split; assumption.
  - intros text.
    destruct (negb (String.eqb text "")); [|apply emits_ret].
    apply emits_bind; [apply emits_getitem|]. intros path'.
    apply emits_bind; [apply emits_now|]. intros stamp. apply emits_ret.
Qed.

Lemma process_item_not_object dec env fuel r item acc w :
  (forall members, item <> JObj members) ->
  process_item dec env fuel r item acc w = (Raise TypeError, w, []).
Proof.
  intros Hnot. destruct item; try reflexivity.
  exfalso. eapply Hnot. reflexivity.
Qed.

Lemma process_items_listed dec env fuel r items rest :
  (forall x, In x rest ->
             In x items \/ forall members, x <> JObj members) ->
  forall acc,
    emits (listed_address r items) (process_items dec env fuel r rest acc).
Proof.
  induction rest as [|x rest IH]; intros Hrest acc; cbn [process_items].
  - apply emits_ret.
  - apply emits_bind.
    + destruct (Hrest x (or_introl eq_refl)) as [Hin | Hnot].
      * apply process_item_listed. exact Hin.
      * intros w. rewrite (process_item_not_object _ _ _ _ _ _ _ Hnot).
        constructor.
    + intros a. apply IH. intros y Hy. apply Hrest. right. exact Hy.
Qed.

Ltac wrap_up Hall :=
  simpl; try rewrite app_nil_r;
  constructor; [exact I|];
  first
    [ exact Hall
    | let Hq := fresh "Hq" in
      let Hrest := fresh "Hrest" in
      let Ht := fresh "Ht" in
      inversion Hall as [|? ? Hq Hrest]; inversion Hrest as [|? ? _ Ht];
      subst;
      constructor; [exact Hq|]; constructor; [exact I|];
      apply Forall_app; split; [exact Ht | repeat constructor] ].

(** X3.  A walk asks for nothing but what its listing names: every request
    it issues, in runs of any length and whatever it is answered, is its
    listing request or a request for the contents address of its
    repository followed by a slash and the path, written as the listing
    gives it, of an entry of its listing that is of kind file and passes
    the extension filter. *)
Theorem X3_walk_asks_for_listed_paths dec env fuel r w :
  Forall (listed_address r (listing_entries (respond env (next_request w))))
    (snd (process_repo dec env fuel r w)).
Proof.
  set (items := listing_entries (respond env (next_request w))).
  assert (Hloop : forall rest w0 acc,
             (forall x, In x rest ->
                        In x items \/ forall members, x <> JObj members) ->
             Forall (listed_address r items)
               (snd (process_items dec env fuel r rest acc w0))).
  { intros rest w0 acc Hrest.
    exact (process_items_listed dec env fuel r items rest Hrest acc w0). }
  assert (Hbody : forall o w1 t1 rest,
             (forall x, In x rest ->
                        In x items \/ forall members, x <> JObj members) ->
             process_items dec env fuel r rest []
               (mkWorld (S (next_request w)) (next_tick w)) = (o, w1, t1) ->
             Forall (listed_address r items)
               (EvRequest (contents_url (url r)) ::
                EvResponse (Some 200%Z) :: t1)).
  { intros o w1 t1 rest Hrest Hp.
    constructor; [left; reflexivity|]. constructor; [exact I|].
    specialize (Hloop rest (mkWorld (S (next_request w)) (next_tick w)) []
                  Hrest).
    rewrite Hp in Hloop. exact Hloop. }
  unfold process_repo, try_except, with_semaphore.
  unfold bind at 1, session_get.
  destruct (respond env (next_request w)) as [|status body] eqn:Hresp.
  - simpl. repeat constructor.
  - destruct (status =? 200)%Z eqn:Hst.
    + apply Z.eqb_eq in Hst. subst status. cbn [negb].
      destruct body as [contents|]; [|simpl; repeat constructor].
      unfold bind at 1, response_json, ret at 1.
      unfold bind at 1, iterate.
      destruct contents as [| | |str|listed_items|members];
        try (simpl; repeat constructor; fail).
      * unfold ret at 1.
        destruct (process_items dec env fuel r (chars str) [] _)
          as [[o w1] t1] eqn:Hp.
        assert (Hall := Hbody o w1 t1 (chars str)
                  ltac:(intros x Hx; right; intros members ->;
                        unfold chars in Hx; apply in_map_iff in Hx;
                        destruct Hx as (c & Hc & _); discriminate) Hp).
        destruct o; wrap_up Hall.
      * unfold ret at 1.
        destruct (process_items dec env fuel r listed_items [] _)
          as [[o w1] t1] eqn:Hp.
        assert (Hall := Hbody o w1 t1 listed_items
                  ltac:(intros x Hx; left; unfold items; simpl; exact Hx) Hp).
        destruct o; wrap_up Hall.
      * unfold ret at 1.
        destruct (process_items dec env fuel r _ [] _)
          as [[o w1] t1] eqn:Hp.
        assert (Hkeys : forall x,
                   In x (map (fun kv : string * json => JStr (fst kv))
                           members) ->
                   In x items \/ forall members', x <> JObj members').
        { intros x Hx. right. intros members' ->.
          apply in_map_iff in Hx. destruct Hx as (c & Hc & _).
          discriminate. }
        assert (Hall := Hbody o w1 t1 _ Hkeys Hp).
        destruct o; wrap_up Hall.
    + simpl. repeat constructor.
Qed.

(** ** Addresses *)

Lemma replace_absent old new s :
  occurs old s = false -> Py.replace old new s = s.
Proof.
  unfold Py.replace. induction s as [|c s IH]; intros H; [reflexivity|].
  cbn [occurs] in H. apply orb_false_elim in H. destruct H as [Hp Ho].
  cbn [Py.replace_from]. rewrite Hp, (IH Ho). reflexivity.
Qed.

(** X9.  For a repository address [https://github.com/<rest>] in which
    [github.com] does not occur again, the listing is asked from
    [https://api.github.com/repos/<rest>/contents] and the file at [p] from
    that address followed by [/] and [p]. *)
Theorem X9_api_addresses rest p :
  occurs "github.com" rest = false ->
  contents_url ("https://github.com/" ++ rest) =
    ("https://api.github.com/repos/" ++ rest ++ "/contents")%string /\
  file_url ("https://github.com/" ++ rest) p =
    ("https://api.github.com/repos/" ++ rest ++ "/contents/" ++ p)%string.
Proof.
  intros Habsent.
  assert (Hrep : Py.replace "github.com" "api.github.com/repos"
                   ("https://github.com/" ++ rest) =
                 ("https://api.github.com/repos/" ++ rest)%string).
  { unfold Py.replace. simpl.
    change (Py.replace_from 0 "github.com" "api.github.com/repos" rest)
      with (Py.replace "github.com" "api.github.com/repos" rest).
    rewrite (replace_absent _ _ _ Habsent). reflexivity. }
  unfold contents_url, file_url. rewrite Hrep. split.
  - simpl. reflexivity.
  - simpl. rewrite string_app_assoc. reflexivity.
Qed.

Lemma X9_api_addresses_witness :
  contents_url "https://github.com/tiangolo/fastapi" =
    "https://api.github.com/repos/tiangolo/fastapi/contents" /\
  file_url "https://github.com/tiangolo/fastapi" "setup.py" =
    "https://api.github.com/repos/tiangolo/fastapi/contents/setup.py".
Proof.
  refine (X9_api_addresses "tiangolo/fastapi" "setup.py" _). reflexivity.
Defined.

(** ** The run, failure by failure *)

Lemma create_indexes_fault db specs :
  forall k0 k s,
    k0 <= k < k0 + length specs ->
    index_fault db k = true ->
    fst (create_indexes db k0 specs s) = Raise SinkError.
Proof.
  induction specs as [|spec specs IH]; intros k0 k s Hk Hfault;
    [simpl in Hk; lia|].
  simpl. unfold sbind, create_index.
  destruct (index_fault db k0) eqn:H0; [reflexivity|].
  assert (Hk' : S k0 <= k < S k0 + length specs).
  { simpl in Hk. destruct (Nat.eq_dec k k0) as [->|]; [congruence | lia]. }
  destruct (existsb (index_eqb spec) (indexes s)); apply (IH _ k); auto.
Qed.

(** X10.  When one of the seven [create_index] calls raises, the run ends
    there: [main] raises the error with the client closed and a non-zero
    status, no walk is awaited and nothing is inserted, whatever the
    catalog and the remote side are. *)
Theorem X10_index_failure_aborts dec net db fuel catalog s k :
  connect_fault db = false ->
  k < length INDEXES ->
  index_fault db k = true ->
  exists s',
    main dec net db fuel catalog s = (Raise SinkError, s') /\
    collection s' = collection s /\
    submitted s' = submitted s /\
    connected s' = false /\
    exit_status (fst (main dec net db fuel catalog s)) = Some 1%Z.
Proof.
  intros Hconn Hk Hfault.
  assert (Hmain : exists s',
             main dec net db fuel catalog s = (Raise SinkError, s') /\
             collection s' = collection s /\
             submitted s' = submitted s /\
             connected s' = false).
  { unfold main, MongoClient. rewrite Hconn. unfold main_body, sbind at 1.
    pose proof (create_indexes_fault db INDEXES 0 k
                  (mkSink true (indexes s) (collection s) (submitted s))
                  ltac:(lia) Hfault) as Hraise.
    pose proof (create_indexes_frame db INDEXES 0
                  (mkSink true (indexes s) (collection s) (submitted s)))
      as Hframe.
    destruct (create_indexes db 0 INDEXES _) as [o s2].
    simpl in Hraise. subst o.
    destruct Hframe as (_ & Hcol & Hsub & _). simpl in Hcol, Hsub.
    eexists. split; [reflexivity|]. simpl. auto. }
  destruct Hmain as (s' & Hm & Hcol & Hsub & Hclosed).
  exists s'. rewrite Hm. repeat split; assumption.
Qed.

Lemma X10_index_failure_aborts_witness :
  exists s',
    main Sample.plain Cases.uneven Cases.no_index 3 Sample.three Sample.fresh
      = (Raise SinkError, s') /\
    collection s' = [] /\
    submitted s' = [] /\
    connected s' = false /\
    exit_status
      (fst (main Sample.plain Cases.uneven Cases.no_index 3 Sample.three
              Sample.fresh)) = Some 1%Z.
Proof.
  refine (X10_index_failure_aborts Sample.plain Cases.uneven Cases.no_index 3
            Sample.three Sample.fresh 3 _ _ _).
  - reflexivity.
  - simpl. lia.
  - reflexivity.
Defined.

(** X12.  Nothing is inserted before every walk has returned: while one
    walk is still running (rate limited, say), [main] has not returned, the
    client is open, and no record of any repository, the finished ones
    included, has reached the store. *)
Theorem X12_no_insert_before_all_walks_return dec net db fuel catalog s :
  connect_fault db = false ->
  (forall k, index_fault db k = false) ->
  In Unfinished (walks dec net fuel (all_repos catalog)) ->
  exists s',
    main dec net db fuel catalog s = (Unfinished, s') /\
    collection s' = collection s /\
    submitted s' = submitted s /\
    connected s' = true.
Proof.
  intros Hconn Hidx Hrun.
  apply (gather_waits _ (walks_never_raise dec net fuel (all_repos catalog)))
    in Hrun.
  unfold main, MongoClient. rewrite Hconn. unfold main_body, sbind at 1.
  pose proof (create_indexes_frame db INDEXES 0
                (mkSink true (indexes s) (collection s) (submitted s)))
    as Hframe.
  destruct (create_indexes db 0 INDEXES _) as [o s2].
  destruct Hframe as (Hc & Hcol & Hsub & _ & Hok). simpl in Hc, Hcol, Hsub.
  rewrite (Hok Hidx). unfold sbind, lift. rewrite Hrun.
  exists s2. repeat split; assumption.
Qed.

Lemma X12_no_insert_before_all_walks_return_witness :
  walks Sample.plain Cases.uneven 5 (all_repos Sample.two) =
    [Ok [build_doc Sample.django "app.ts" (JStr "app.ts") "export {}" 0%Z];
     Unfinished] /\
  exists s',
    main Sample.plain Cases.uneven Sample.healthy 5 Sample.two Sample.fresh
      = (Unfinished, s') /\
    collection s' = [] /\
    submitted s' = [] /\
    connected s' = true.
Proof.
  split; [vm_compute; reflexivity|].
  refine (X12_no_insert_before_all_walks_return Sample.plain Cases.uneven
            Sample.healthy 5 Sample.two Sample.fresh _ _ _).
  - reflexivity.
  - reflexivity.
  - right. left. vm_compute. reflexivity.
Defined.

Lemma submit_prefix db bs :
  forall s o s',
    submit db bs s = (o, s') ->
    exists k, submitted s' = submitted s ++ firstn k bs.
Proof.
  induction bs as [|b bs IH]; intros s o s' H; simpl in H.
  - injection H as _ <-. exists 0. rewrite app_nil_r. reflexivity.
  - unfold sbind, insert_many in H.
    destruct (insert_fault db (length (submitted s))).
    + injection H as _ <-. exists 1. reflexivity.
    + destruct (IH _ _ _ H) as [k Hk]. exists (S k).
      rewrite Hk. simpl. rewrite <- app_assoc. reflexivity.
Qed.

Lemma all_batches_sizes results :
  Forall (fun b : list document => 1 <= length b <= 100) (all_batches results).
Proof.
  unfold all_batches. induction results as [|l results IH]; simpl.
  - constructor.
  - apply Forall_app. split; [|exact IH].
    exact (proj1 (proj2 (batches_spec l))).
Qed.

Lemma Forall_firstn_keeps {A} (P : A -> Prop) k :
  forall l, Forall P l -> Forall P (firstn k l).
Proof.
  induction k as [|k IH]; intros l H; simpl; [constructor|].
  destruct H; constructor; auto.
Qed.

(** X13.  However a run ends and whatever the store does, every batch that
    was handed to [insert_many] during the run holds at least one and at
    most 100 records: the store is never given an empty batch. *)
Theorem X13_batches_are_never_empty dec net db fuel catalog s o s' :
  main dec net db fuel catalog s = (o, s') ->
  exists bs,
    submitted s' = submitted s ++ bs /\
    Forall (fun b => 1 <= length b <= 100) bs.
Proof.
  unfold main, MongoClient. intros Hmain.
  destruct (connect_fault db).
  - injection Hmain as _ <-. exists []. rewrite app_nil_r.
    split; [reflexivity | constructor].
  - unfold main_body, sbind at 1 in Hmain.
    pose proof (create_indexes_frame db INDEXES 0
                  (mkSink true (indexes s) (collection s) (submitted s)))
      as Hframe.
    destruct (create_indexes db 0 INDEXES _) as [oi s2].
    destruct Hframe as (_ & _ & Hsub & _). simpl in Hsub.
    assert (Hnone : submitted s2 = submitted s ++ []) by
      (rewrite app_nil_r; exact Hsub).
    destruct oi as [u|e|].
    + unfold sbind, lift in Hmain.
      destruct (gather (walks dec net fuel (all_repos catalog)))
        as [results|e|].
      * rewrite insert_results_submit in Hmain.
        destruct (submit db (all_batches results) s2) as [o3 s3] eqn:Hsubmit.
        destruct (submit_prefix db _ _ _ _ Hsubmit) as [k Hk].
        exists (firstn k (all_batches results)).
        split; [|apply Forall_firstn_keeps, all_batches_sizes].
        rewrite <- Hsub, <- Hk.
        destruct o3; injection Hmain as _ <-; reflexivity.
      * injection Hmain as _ <-. exists []. split; [exact Hnone | constructor].
      * injection Hmain as _ <-. exists []. split; [exact Hnone | constructor].
    + injection Hmain as _ <-. exists []. split; [exact Hnone | constructor].
    + injection Hmain as _ <-. exists []. split; [exact Hnone | constructor].
Qed.

Lemma X13_batches_are_never_empty_witness :
  exists bs,
    submitted
      (snd (main Sample.plain (fun _ => Sample.api) Sample.failing 3
              Sample.three Sample.fresh)) = submitted Sample.fresh ++ bs /\
    Forall (fun b => 1 <= length b <= 100) bs.
Proof.
  refine (X13_batches_are_never_empty Sample.plain (fun _ => Sample.api)
            Sample.failing 3 Sample.three Sample.fresh
            (fst (main Sample.plain (fun _ => Sample.api) Sample.failing 3
                    Sample.three Sample.fresh)) _ _).
  vm_compute. reflexivity.
Defined.

Lemma insert_results_nothing db results :
  Forall (fun rc => rc = []) results ->
  forall s, insert_results db results s = (Ok tt, s).
Proof.
  induction 1 as [|rc results -> _ IH]; intros s; simpl; [reflexivity|].
  unfold sbind. simpl. apply IH.
Qed.

Lemma gather_all_empty {A B} (l : list A) :
  gather (map (fun _ : A => @Ok (list B) []) l) = Ok (map (fun _ => []) l).
Proof. induction l as [|a l IH]; simpl; [|rewrite IH]; reflexivity. Qed.

(** X14.  A run in which the listing of every repository fails ends like a
    successful one: [main] returns with status 0, having inserted
    nothing. *)
Theorem X14_outage_ends_in_success dec net db fuel catalog s :
  connect_fault db = false ->
  (forall k, index_fault db k = false) ->
  (forall i, listing_failure (respond (net i) 0)) ->
  exists s',
    main dec net db fuel catalog s = (Ok tt, s') /\
    collection s' = collection s /\
    submitted s' = submitted s /\
    connected s' = false /\
    exit_status (fst (main dec net db fuel catalog s)) = Some 0%Z.
Proof.
  intros Hconn Hidx Hfail.
  assert (Hmain : exists s',
             main dec net db fuel catalog s = (Ok tt, s') /\
             collection s' = collection s /\
             submitted s' = submitted s /\
             connected s' = false).
  { unfold main, MongoClient. rewrite Hconn. unfold main_body, sbind at 1.
    pose proof (create_indexes_frame db INDEXES 0
                  (mkSink true (indexes s) (collection s) (submitted s)))
      as Hframe.
    destruct (create_indexes db 0 INDEXES _) as [o s2].
    destruct Hframe as (_ & Hcol & Hsub & _ & Hok). simpl in Hcol, Hsub.
    rewrite (Hok Hidx). unfold sbind, lift.
    assert (Hwalks : walks dec net fuel (all_repos catalog) =
                     map (fun _ => Ok [])
                       (combine (seq 0 (length (all_repos catalog)))
                          (all_repos catalog))).
    { unfold walks. apply map_ext. intros [i r]. simpl.
      apply walk_result_failed_listing. apply Hfail. }
    rewrite Hwalks, gather_all_empty.
    rewrite insert_results_nothing.
    - eexists. split; [reflexivity|]. simpl. auto.
    - apply Forall_map. apply Forall_forall. reflexivity. }
  destruct Hmain as (s' & Hm & Hcol & Hsub & Hclosed).
  exists s'. rewrite Hm. repeat split; assumption.
Qed.

Lemma X14_outage_ends_in_success_witness :
  exists s',
    main Sample.plain Cases.outage Sample.healthy 3 VERIFIED_REPOS
      Sample.fresh = (Ok tt, s') /\
    collection s' = [] /\
    submitted s' = [] /\
    connected s' = false /\
    exit_status
      (fst (main Sample.plain Cases.outage Sample.healthy 3 VERIFIED_REPOS
              Sample.fresh)) = Some 0%Z.
Proof.
  refine (X14_outage_ends_in_success Sample.plain Cases.outage Sample.healthy
            3 VERIFIED_REPOS Sample.fresh _ _ _).
  - reflexivity.
  - reflexivity.
  - intros i. simpl. apply lf_status. discriminate.
Defined.

Lemma all_batches_count results :
  length (all_batches results) =
  list_sum (map (fun rc : list document => (length rc + 99) / 100) results).
Proof.
  unfold all_batches. induction results as [|l results IH]; simpl.
  - reflexivity.
  - rewrite length_app, IH, (proj2 (proj2 (batches_spec l))). reflexivity.
Qed.

(** X17.  A run against a store without faults, all of whose walks return,
    ends with status 0 and the client closed; it appends to the collection
    the records of the repositories in catalog order, each repository's in
    the order of its walk, and it calls [insert_many] once for every
    started hundred of records of each repository, so not at all for a
    repository without records. *)
Theorem X17_successful_run dec net db fuel catalog results s :
  fault_free db ->
  gather (walks dec net fuel (all_repos catalog)) = Ok results ->
  exists s',
    main dec net db fuel catalog s = (Ok tt, s') /\
    collection s' = collection s ++ concat results /\
    length (submitted s') =
      length (submitted s) +
      list_sum (map (fun rc => (length rc + 99) / 100) results) /\
    connected s' = false /\
    exit_status (fst (main dec net db fuel catalog s)) = Some 0%Z.
Proof.
  intros Hdb Hgather.
  destruct (main_fault_free dec net db fuel catalog results s Hdb Hgather)
    as (s' & Hm & Hcol & Hsub & Hclosed).
  exists s'. rewrite Hm. repeat split; auto.
  rewrite Hsub, length_app, all_batches_count. reflexivity.
Qed.

Lemma X17_successful_run_witness :
  exists s',
    main Sample.plain (fun _ => Sample.api) Sample.healthy 3 Sample.three
      Sample.fresh = (Ok tt, s') /\
    collection s' = collection Sample.fresh ++ concat Sample.harvest /\
    length (submitted s') =
      length (submitted Sample.fresh) +
      list_sum (map (fun rc => (length rc + 99) / 100) Sample.harvest) /\
    connected s' = false /\
    exit_status
      (fst (main Sample.plain (fun _ => Sample.api) Sample.healthy 3
              Sample.three Sample.fresh)) = Some 0%Z.
Proof.
  refine (X17_successful_run Sample.plain (fun _ => Sample.api) Sample.healthy
            3 Sample.three Sample.harvest Sample.fresh _ _).
  - repeat split; reflexivity.
  - reflexivity.
Defined.

(** ** The event loop makes progress *)

Lemma settles_sequential body :
  forall b b' h rest,
    sequential b body = Some b' ->
    settles h (body ++ rest) = settles h rest.
Proof.
  induction body as [|e body IH]; intros b b' h rest Hs; [reflexivity|].
  destruct e, b; simpl in *; try discriminate; eapply IH; exact Hs.
Qed.

Lemma walk_trace_settles dec env fuel r :
  walk_result dec env fuel r <> Unfinished ->
  settles false (walk_trace dec env fuel r) = true.
Proof.
  unfold walk_result, walk_trace. intros Hfin.
  destruct (process_repo_shape dec env fuel r start)
    as (body & Hb & [(docs & w' & E) | (w' & E)]); rewrite E in *; simpl in *.
  - rewrite (settles_sequential body false false true [EvRelease] Hb).
    reflexivity.
  - congruence.
Qed.

Lemma fire_keeps_settled p t p' t' :
  settled t -> fire p t = Some (p', t') -> settled t'.
Proof.
  unfold settled, fire. destruct t as [pend h f]. simpl.
  destruct pend as [|e rest]; [discriminate|].
  intros Hs Hf. destruct e; simpl in Hs;
    try (destruct p as [|p0]; [discriminate|]);
    injection Hf as _ <-; exact Hs.
Qed.

Lemma reachable_settled s0 s :
  Forall settled (tasks s0) -> reachable s0 s -> Forall settled (tasks s).
Proof.
  intros H0 Hr. induction Hr as [|s s' _ IH Hstep]; [exact H0|].
  destruct Hstep as [p p' before t t' after Hf]. simpl in *.
  apply Forall_app in IH. destruct IH as [Hb Hta].
  inversion Hta as [|? ? Ht Ha]; subst.
  apply Forall_app. split; [exact Hb|].
  constructor; [exact (fire_keeps_settled _ _ _ _ Ht Hf) | exact Ha].
Qed.

Lemma launch_settled dec net fuel catalog :
  Forall (fun o => o <> Unfinished) (walks dec net fuel (all_repos catalog)) ->
  Forall settled (tasks (launch dec net fuel catalog)).
Proof.
  unfold walks, launch. simpl.
  generalize (combine (seq 0 (length (all_repos catalog))) (all_repos catalog)).
  intros l H. induction l as [|[i r] l IH]; simpl in *; [constructor|].
  inversion H as [|? ? Hfin Hrest]; subst.
  constructor; [|exact (IH Hrest)].
  unfold settled. simpl. apply walk_trace_settles. exact Hfin.
Qed.

Lemma done_or_busy ts :
  Forall (fun t => pending t = []) ts \/
  exists before t after, ts = before ++ t :: after /\ pending t <> [].
Proof.
  induction ts as [|t ts [IH | (before & t' & after & -> & Hne)]].
  - left. constructor.
  - destruct (pending t) as [|e rest] eqn:Hp.
    + left. constructor; assumption.
    + right. exists [], t, ts. split; [reflexivity|]. rewrite Hp. discriminate.
  - right. exists (t :: before), t', after. split; [reflexivity | exact Hne].
Qed.

Lemma holder_exists ts :
  0 < length (filter holding ts) ->
  exists before t after, ts = before ++ t :: after /\ holding t = true.
Proof.
  intros Hpos.
  destruct (filter holding ts) as [|t rest] eqn:Hf; [simpl in Hpos; lia|].
  assert (Hin : In t (filter holding ts)) by (rewrite Hf; left; reflexivity).
  apply filter_In in Hin. destruct Hin as [Hin Hh].
  destruct (in_split _ _ Hin) as (before & after & ->).
  exists before, t, after. split; [reflexivity | exact Hh].
Qed.

Lemma holder_can_fire p t :
  task_ok t -> settled t -> holding t = true ->
  exists p' t', fire p t = Some (p', t').
Proof.
  unfold task_ok, settled, fire. destruct t as [pend h f]. simpl.
  intros [Hwb _] Hs ->. destruct pend as [|e rest]; [discriminate|].
  destruct e; simpl in Hwb; try discriminate; eauto.
Qed.

(** X15.  When every walk of the catalog returns, the event loop cannot get
    stuck: in every state it can reach, either all walks are over or some
    walk can perform its next event.  The value of the semaphore is 3 less
    the number of walks inside it throughout, and once all walks are over
    all 3 permits are back and no call is in flight. *)
Theorem X15_no_deadlock dec net fuel catalog s :
  Forall (fun o => o <> Unfinished) (walks dec net fuel (all_repos catalog)) ->
  reachable (launch dec net fuel catalog) s ->
  (all_done s \/ exists s', step s s') /\
  permits s + holders s = 3 /\
  (all_done s -> permits s = 3 /\ total_inflight s = 0).
Proof.
  intros Hfin Hr.
  destruct (reachable_pool_ok _ _ _ (launch_pool_ok dec net fuel catalog) Hr)
    as [Hp Hok].
  pose proof (reachable_settled _ _ (launch_settled _ _ _ _ Hfin) Hr) as Hset.
  unfold MAX_CONCURRENT_REQUESTS in Hp.
  split; [|split; [exact Hp|]].
  - destruct s as [p ts]. simpl in *.
    destruct (done_or_busy ts) as [Hdone | (before & t & after & -> & Hne)];
      [left; exact Hdone | right].
    destruct (fire p t) as [[p' t']|] eqn:Hfire.
    + eexists. apply step_fire. exact Hfire.
    + assert (Hzero : p = 0).
      { unfold fire in Hfire. destruct (pending t) as [|e rest];
          [contradiction|].
        destruct e; try discriminate. destruct p; [reflexivity | discriminate]. }
      subst p. unfold holders in Hp. simpl in Hp.
      destruct (holder_exists (before ++ t :: after) ltac:(lia))
        as (before2 & t2 & after2 & Heq & Hh).
      rewrite Heq in Hok, Hset.
      apply Forall_app in Hok. destruct Hok as [_ Hok].
      apply Forall_app in Hset. destruct Hset as [_ Hset].
      inversion Hok as [|? ? Hok2 _]; subst.
      inversion Hset as [|? ? Hset2 _]; subst.
      destruct (holder_can_fire 0 t2 Hok2 Hset2 Hh) as (p' & t' & Hfire2).
      rewrite Heq. eexists. apply step_fire. exact Hfire2.
  - intros Hdone. unfold all_done in Hdone.
    assert (Hidle : Forall (fun t => holding t = false /\ inflight t = 0)
                      (tasks s)).
    { rewrite Forall_forall in *. intros t Hin.
      specialize (Hdone t Hin). specialize (Hset t Hin).
      specialize (Hok t Hin). unfold settled in Hset. rewrite Hdone in Hset.
      simpl in Hset. apply negb_true_iff in Hset.
      destruct Hok as [_ Hin']. rewrite Hset in Hin'. split; [exact Hset | lia]. }
    assert (Hzero : holders s = 0 /\ total_inflight s = 0).
    { unfold holders, total_inflight. clear -Hidle.
      induction Hidle as [|t ts [Hh Hf] _ [IH1 IH2]]; simpl; [auto|].
      rewrite Hh, Hf. simpl. auto. }
    destruct Hzero as [Hh Hf]. split; [lia | exact Hf].
Qed.

Lemma X15_no_deadlock_witness :
  (all_done Cases.busy \/ exists s', step Cases.busy s') /\
  permits Cases.busy + holders Cases.busy = 3 /\
  (all_done Cases.busy -> permits Cases.busy = 3 /\
                          total_inflight Cases.busy = 0).
Proof.
  refine (X15_no_deadlock Sample.plain (fun _ => Sample.api) 3 Sample.three
            Cases.busy _ _).
  - vm_compute. repeat constructor; discriminate.
  - apply reach_init.
Defined.

(** ** Listings that are no listings *)

(** X18.  A listing call answered by a 200 whose payload is not an array (an
    object, a string, a number, a boolean, null) yields no record, after
    that one request and without a fetch, whatever the payload holds. *)
Theorem X18_listing_must_be_an_array dec env fuel r w contents :
  respond env (next_request w) = Reply 200 (Some contents) ->
  (forall items, contents <> JArr items) ->
  process_repo dec env fuel r w =
    (Ok [], advance w 1,
     [EvAcquire; EvRequest (contents_url (url r)); EvResponse (Some 200%Z);
      EvRelease]).
Proof.
  intros Hresp Hnot.
  assert (Hw : mkWorld (S (next_request w)) (next_tick w) = advance w 1)
    by (unfold advance; f_equal; lia).
  unfold process_repo, try_except, with_semaphore.
  unfold bind at 1, session_get. rewrite Hresp. cbn [Z.eqb Pos.eqb negb].
  unfold bind at 1, response_json, ret at 1.
  unfold bind at 1, iterate. rewrite Hw.
  destruct contents as [| | |s|items|members]; try reflexivity.
  - destruct s as [|c s]; reflexivity.
  - exfalso. exact (Hnot items eq_refl).
  - destruct members as [|[k v] members]; reflexivity.
Qed.

Lemma X18_listing_must_be_an_array_witness :
  process_repo Sample.plain Cases.apology 3 Sample.fastapi start =
    (Ok [], advance start 1,
     [EvAcquire; EvRequest (contents_url (url Sample.fastapi));
      EvResponse (Some 200%Z); EvRelease]).
Proof.
  refine (X18_listing_must_be_an_array Sample.plain Cases.apology 3
            Sample.fastapi start _ _ _).
  - reflexivity.
  - discriminate.
Defined.

(** X19.  The listing call is never retried: when it fails (a 403
    included), the walk is over after that one request, without a cooldown,
    and returns no record; only file fetches are retried on a 403. *)
Theorem X19_listing_is_not_retried dec env fuel r w :
  listing_failure (respond env (next_request w)) ->
  process_repo dec env fuel r w =
    (Ok [], advance w 1,
     [EvAcquire; EvRequest (contents_url (url r));
      EvResponse (status_of (respond env (next_request w))); EvRelease]) /\
  cooldown_total (snd (process_repo dec env fuel r w)) = 0.
Proof.
  intros Hfail.
  assert (Hw : mkWorld (S (next_request w)) (next_tick w) = advance w 1)
    by (unfold advance; f_equal; lia).
  assert (Hwalk : process_repo dec env fuel r w =
            (Ok [], advance w 1,
             [EvAcquire; EvRequest (contents_url (url r));
              EvResponse (status_of (respond env (next_request w)));
              EvRelease])).
  { unfold process_repo, try_except, with_semaphore.
    unfold bind at 1, session_get.
    inversion Hfail as [E | st body Hst E | E]; simpl; rewrite Hw.
    - reflexivity.
    - apply Z.eqb_neq in Hst. rewrite Hst. reflexivity.
    - reflexivity. }
  rewrite Hwalk. split; reflexivity.
Qed.

Lemma X19_listing_is_not_retried_witness :
  process_repo Sample.plain Cases.throttled 3 Sample.fastapi start =
    (Ok [], advance start 1,
     [EvAcquire; EvRequest (contents_url (url Sample.fastapi));
      EvResponse (Some 403%Z); EvRelease]) /\
  cooldown_total
    (snd (process_repo Sample.plain Cases.throttled 3 Sample.fastapi start))
    = 0.
Proof.
  refine (X19_listing_is_not_retried Sample.plain Cases.throttled 3
            Sample.fastapi start _).
  simpl. apply lf_status. discriminate.
Defined.

(* ================================================================= *)
(** * The orchestrator and the walks *)

Lemma failed_listing_walk dec env fuel r w :
  listing_failure (respond env (next_request w)) ->
  process_repo dec env fuel r w =
    (Ok [], advance w 1,
     [EvAcquire; EvRequest (contents_url (url r));
      EvResponse (status_of (respond env (next_request w))); EvRelease]).
Proof.
  intros Hfail.
  assert (Hw : mkWorld (S (next_request w)) (next_tick w) = advance w 1)
    by (unfold advance; f_equal; lia).
  unfold process_repo, try_except, with_semaphore.
  unfold bind at 1, session_get.
  inversion Hfail as [E | st body Hst E | E]; simpl; rewrite Hw.
  - reflexivity.
  - apply Z.eqb_neq in Hst. rewrite Hst. reflexivity.
  - reflexivity.
Qed.

Lemma all_returned {A} (ts : list (outcome A)) :
  quiet ts -> ~ In Unfinished ts -> exists results, ts = map Ok results.
Proof.
  intros Hq Hrun. induction Hq as [|o l Ho _ IH].
  - exists []. reflexivity.
  - destruct IH as [results ->]; [intros H; apply Hrun; right; exact H|].
    destruct o as [a|e|].
    + exists (a :: results). reflexivity.
    + exfalso. exact (Ho e eq_refl).
    + exfalso. apply Hrun. left. reflexivity.
Qed.

(** While a walk is running, [main] is. *)
Lemma main_waits dec net db fuel catalog s :
  connect_fault db = false ->
  (forall k, index_fault db k = false) ->
  In Unfinished (walks dec net fuel (all_repos catalog)) ->
  exists s',
    main dec net db fuel catalog s = (Unfinished, s') /\
    collection s' = collection s /\
    submitted s' = submitted s.
Proof.
  intros Hconn Hidx Hrun.
  apply (gather_waits _ (walks_never_raise dec net fuel (all_repos catalog)))
    in Hrun.
  unfold main, MongoClient. rewrite Hconn. unfold main_body, sbind at 1.
  pose proof (create_indexes_frame db INDEXES 0
                (mkSink true (indexes s) (collection s) (submitted s)))
    as Hframe.
  destruct (create_indexes db 0 INDEXES _) as [o s2].
  destruct Hframe as (Hc & Hcol & Hsub & _ & Hok). simpl in Hc, Hcol, Hsub.
  rewrite (Hok Hidx). unfold sbind, lift. rewrite Hrun.
  exists s2. repeat split; assumption.
Qed.

(** When every walk returns, the loop can go on until all walks are over. *)
Lemma pool_never_stuck dec net fuel catalog s :
  Forall (fun o => o <> Unfinished) (walks dec net fuel (all_repos catalog)) ->
  reachable (launch dec net fuel catalog) s ->
  all_done s \/ exists s', step s s'.
Proof.
  intros Hfin Hr.
  destruct (reachable_pool_ok _ _ _ (launch_pool_ok dec net fuel catalog) Hr)
    as [Hp Hok].
  pose proof (reachable_settled _ _ (launch_settled _ _ _ _ Hfin) Hr) as Hset.
  unfold MAX_CONCURRENT_REQUESTS in Hp.
  destruct s as [p ts]. simpl in *.
  destruct (done_or_busy ts) as [Hdone | (before & t & after & -> & Hne)];
    [left; exact Hdone | right].
  destruct (fire p t) as [[p' t']|] eqn:Hfire.
  - eexists. apply step_fire. exact Hfire.
  - assert (Hzero : p = 0).
    { unfold fire in Hfire. destruct (pending t) as [|e rest];
        [contradiction|].
      destruct e; try discriminate. destruct p; [reflexivity | discriminate]. }
    subst p. unfold holders in Hp. simpl in Hp.
    destruct (holder_exists (before ++ t :: after) ltac:(lia))
      as (before2 & t2 & after2 & Heq & Hh).
    rewrite Heq in Hok, Hset.
    apply Forall_app in Hok. destruct Hok as [_ Hok].
    apply Forall_app in Hset. destruct Hset as [_ Hset].
    inversion Hok as [|? ? Hok2 _]; subst.
    inversion Hset as [|? ? Hset2 _]; subst.
    destruct (holder_can_fire 0 t2 Hok2 Hset2 Hh) as (p' & t' & Hfire2).
    rewrite Heq. eexists. apply step_fire. exact Hfire2.
Qed.

(** ** C4: a failed listing *)

(** C4.  Take a catalog one of whose repositories has a listing call that
    raises, answers with a status other than 200 or sends a body that does
    not parse, and a store without faults.  The walk of that repository is
    over after its one request, with its permit given back, no record and
    no error.  [main] waits for all walks: as long as one of them is
    running, [main] has not returned and has inserted nothing.  Once all
    have returned, [main] returns normally and has appended the records the
    walks returned, in catalog order: none for the failed repository, and
    for each other repository what its walk returns whatever happens to
    the failed one; and the event loop was never stuck on the way. *)
Theorem C4_failed_listing_is_isolated dec net db fuel catalog s i r :
  nth_error (all_repos catalog) i = Some r ->
  listing_failure (respond (net i) 0) ->
  fault_free db ->
  process_repo dec (net i) fuel r start =
    (Ok [], advance start 1,
     [EvAcquire; EvRequest (contents_url (url r));
      EvResponse (status_of (respond (net i) 0)); EvRelease]) /\
  (In Unfinished (walks dec net fuel (all_repos catalog)) ->
   exists s',
     main dec net db fuel catalog s = (Unfinished, s') /\
     collection s' = collection s /\
     submitted s' = submitted s) /\
  (~ In Unfinished (walks dec net fuel (all_repos catalog)) ->
   exists results s',
     main dec net db fuel catalog s = (Ok tt, s') /\
     collection s' = collection s ++ concat results /\
     walks dec net fuel (all_repos catalog) = map Ok results /\
     nth_error results i = Some [] /\
     (forall net' results',
        (forall j, j <> i -> net' j = net j) ->
        walks dec net' fuel (all_repos catalog) = map Ok results' ->
        forall j, j <> i -> nth_error results' j = nth_error results j) /\
     (forall p0,
        reachable (launch dec net fuel catalog) p0 ->
        all_done p0 \/ exists p1, step p0 p1)).
Proof.
  intros Hi Hfail Hdb.
  pose proof (walks_never_raise dec net fuel (all_repos catalog)) as Hq.
  split; [exact (failed_listing_walk dec (net i) fuel r start Hfail)|].
  split.
  - destruct Hdb as (Hconn & Hidx & _). apply main_waits; assumption.
  - intros Hrun.
    destruct (all_returned _ Hq Hrun) as [results Hwalks].
    assert (Hgather : gather (walks dec net fuel (all_repos catalog))
                      = Ok results)
      by (apply (gather_returns _ _ Hq); exact Hwalks).
    destruct (main_fault_free dec net db fuel catalog results s Hdb Hgather)
      as (s' & Hm & Hcol & _ & _).
    exists results, s'.
    split; [exact Hm|]. split; [exact Hcol|]. split; [exact Hwalks|].
    split; [|split].
    + pose proof (walks_nth dec net fuel (all_repos catalog) i) as Hnth.
      rewrite Hi, Hwalks, nth_error_map in Hnth. simpl in Hnth.
      rewrite (walk_result_failed_listing dec (net i) fuel r Hfail) in Hnth.
      destruct (nth_error results i) as [docs|]; [|discriminate].
      simpl in Hnth. injection Hnth as ->. reflexivity.
    + intros net' results' Hsame Hwalks' j Hj.
      pose proof (walks_nth dec net fuel (all_repos catalog) j) as Hnth.
      pose proof (walks_nth dec net' fuel (all_repos catalog) j) as Hnth'.
      rewrite (Hsame j Hj), <- Hnth, Hwalks, Hwalks', !nth_error_map in Hnth'.
      destruct (nth_error results' j) as [a|], (nth_error results j) as [b|];
        simpl in Hnth'; congruence.
    + intros p0 Hp0. apply (pool_never_stuck dec net fuel catalog); [|exact Hp0].
      rewrite Hwalks. apply Forall_map. apply Forall_forall.
      intros x _. discriminate.
Qed.

Lemma C4_failed_listing_is_isolated_witness :
  walks Sample.plain Sample.net 3 (all_repos Sample.two) =
    [Ok [];
     Ok [build_doc Sample.fastapi "app.ts" (JStr "app.ts") "export {}" 0%Z]]
  /\
  exists results s',
    main Sample.plain Sample.net Sample.healthy 3 Sample.two Sample.fresh
      = (Ok tt, s') /\
    collection s' = collection Sample.fresh ++ concat results /\
    nth_error results 0 = Some [].
Proof.
  split; [vm_compute; reflexivity|].
  assert (Hrun : ~ In Unfinished
                     (walks Sample.plain Sample.net 3 (all_repos Sample.two))).
  { vm_compute. intros [H | [H | []]]; discriminate. }
  destruct (proj2 (proj2
              (C4_failed_listing_is_isolated Sample.plain Sample.net
                 Sample.healthy 3 Sample.two Sample.fresh 0 Sample.django
                 eq_refl
                 ltac:(simpl; apply lf_status; discriminate)
                 (conj eq_refl (conj (fun _ => eq_refl) (fun _ => eq_refl)))))
              Hrun)
    as (results & s' & Hm & Hcol & _ & Hnone & _).
  exists results, s'. repeat split; assumption.
Defined.

(** ** C5: batches of at most one hundred *)

Lemma batches_grouped (results : list (list document)) :
  Forall2
    (fun rc g =>
       concat g = rc /\
       length g = (length rc + 99) / 100 /\
       Forall (fun b => 1 <= length b <= 100) g /\
       (length rc = 250 -> map (@length document) g = [100; 100; 50]))
    results (map batches results).
Proof.
  induction results as [|rc results IH]; simpl; constructor; [|exact IH].
  destruct (batches_spec rc) as (Hcat & Hall & Hlen).
  repeat split; auto.
  intros H250. unfold batches, batch_size.
  rewrite (slice_sizes rc), H250. reflexivity.
Qed.

(** C5.  In a run against a store that accepts every insert, what [main]
    hands to [insert_many], call after call, is, repository after
    repository in the order of the results, the records of the repository
    cut into [ceil(n / 100)] batches of between 1 and 100 records, which
    taken together are the records in their order; a repository with 250
    records gives three calls of 100, 100 and 50 records. *)
Theorem C5_batches_of_one_hundred dec net db fuel catalog results s :
  fault_free db ->
  gather (walks dec net fuel (all_repos catalog)) = Ok results ->
  exists s' groups,
    main dec net db fuel catalog s = (Ok tt, s') /\
    submitted s' = submitted s ++ concat groups /\
    Forall2
      (fun rc g =>
         concat g = rc /\
         length g = (length rc + 99) / 100 /\
         Forall (fun b => 1 <= length b <= 100) g /\
         (length rc = 250 -> map (@length document) g = [100; 100; 50]))
      results groups.
Proof.
  intros Hdb Hgather.
  destruct (main_fault_free dec net db fuel catalog results s Hdb Hgather)
    as (s' & Hm & _ & Hsub & _).
  exists s', (map batches results).
  split; [exact Hm|]. split; [exact Hsub|]. apply batches_grouped.
Qed.

Lemma C5_batches_of_one_hundred_witness :
  map (@length document) Cases.bulk_harvest = [250] /\
  map (@length document)
    (submitted
       (snd (main Sample.plain (fun _ => Cases.bulk) Sample.healthy 1
               Sample.catalog Sample.fresh))) = [100; 100; 50] /\
  exists s' groups,
    main Sample.plain (fun _ => Cases.bulk) Sample.healthy 1 Sample.catalog
      Sample.fresh = (Ok tt, s') /\
    submitted s' = submitted Sample.fresh ++ concat groups /\
    Forall2
      (fun rc g =>
         concat g = rc /\
         length g = (length rc + 99) / 100 /\
         Forall (fun b => 1 <= length b <= 100) g /\
         (length rc = 250 -> map (@length document) g = [100; 100; 50]))
      Cases.bulk_harvest groups.
Proof.
  split; [vm_compute; reflexivity|]. split; [vm_compute; reflexivity|].
  refine (C5_batches_of_one_hundred Sample.plain (fun _ => Cases.bulk)
            Sample.healthy 1 Sample.catalog Cases.bulk_harvest Sample.fresh
            _ _).
  - repeat split; reflexivity.
  - vm_compute. reflexivity.
Defined.
